(** * Footnote extraction and merge pipeline: a shallow embedding

    The development follows the two scripts of the repository,
    [scripts/extract_mysword_footnotes.py] (module [MySword]) and
    [scripts/extract_sword_footnotes.py] (module [Sword]).

    Modelling choices.
    - A Python [str] is a list of characters.  A character is a code point
      below 256 (Rocq's [ascii] read as Latin-1), which covers every literal
      of the two scripts except the three-character ellipsis pattern of
      [parse_note_text]; see there.
    - A Python [int] is a [Z].
    - A [dict] used as a map is stdpp's [gmap]; only lookups and insertions
      are performed on it by the scripts.
    - The JSON document is a tree of records.  The scripts mutate the loaded
      tree in place; no list stored in it is mutated after it has been
      attached to a verse, so sharing between the mapping and the tree is not
      observable and the tree is rebuilt functionally.
    - The loops that build the flat array thread the pair
      (flat_footnotes, footnote_id) explicitly. *)

From Stdlib Require Import Ascii String ZArith Lia.
From stdpp Require Import base option list gmap strings.

Local Open Scope Z_scope.

(** ** Strings *)

Abbreviation str := (list ascii).

Definition lit (s : string) : str := list_ascii_of_string s.

(** *** Character classes

    [is_space] is CPython's [Py_UNICODE_ISSPACE] on code points below 256; it
    is the class used by [str.strip], [str.split] and the pattern [\s]. *)
Definition is_space (c : ascii) : bool :=
  let n := N_of_ascii c in
  ((9 <=? n) && (n <=? 13) || (28 <=? n) && (n <=? 32)
   || (n =? 133) || (n =? 160))%N.

(** The pattern [\d]: below 256 the only decimal digits are 0-9. *)
Definition is_digit (c : ascii) : bool :=
  let n := N_of_ascii c in ((48 <=? n) && (n <=? 57))%N.

(** The pattern [.] without DOTALL: any character but the line feed. *)
Definition is_dot (c : ascii) : bool :=
  negb (N_of_ascii c =? 10)%N.

Definition is_char (a : ascii) (c : ascii) : bool := Ascii.eqb a c.

Definition one_of (cs : str) (c : ascii) : bool := existsb (Ascii.eqb c) cs.

(** [str.lower] on one code point below 256: A-Z and the Latin-1 capitals
    (0xC0-0xDE without the multiplication sign 0xD7) move up by 32. *)
Definition lower_char (c : ascii) : ascii :=
  let n := N_of_ascii c in
  if ((65 <=? n) && (n <=? 90)
      || (192 <=? n) && (n <=? 222) && negb (n =? 215))%N
  then ascii_of_N (n + 32) else c.

Definition py_lower (s : str) : str := map lower_char s.

#[global] Arguments is_space : simpl never.
#[global] Arguments is_digit : simpl never.
#[global] Arguments is_dot : simpl never.
#[global] Arguments is_char : simpl never.
#[global] Arguments lower_char : simpl never.

(** *** Searching and trimming *)

Fixpoint starts_with (p s : str) : bool :=
  match p, s with
  | [], _ => true
  | a :: p', b :: s' => Ascii.eqb a b && starts_with p' s'
  | _ :: _, [] => false
  end.

(** [sub in s] *)
Fixpoint contains (sub s : str) : bool :=
  starts_with sub s ||
  match s with
  | [] => false
  | _ :: s' => contains sub s'
  end.

(** Length of the longest prefix whose characters all satisfy [p]. *)
Fixpoint count_while (p : ascii -> bool) (s : str) : nat :=
  match s with
  | c :: s' => if p c then S (count_while p s') else O
  | [] => O
  end.

Fixpoint lstrip_by (p : ascii -> bool) (s : str) : str :=
  match s with
  | c :: s' => if p c then lstrip_by p s' else s
  | [] => []
  end.

Fixpoint rstrip_by (p : ascii -> bool) (s : str) : str :=
  match s with
  | [] => []
  | c :: s' =>
      match rstrip_by p s' with
      | [] => if p c then [] else [c]
      | r => c :: r
      end
  end.

(** [s.strip()], [s.rstrip(chars)], [s.lstrip(chars)] *)
Definition py_strip (s : str) : str :=
  rstrip_by is_space (lstrip_by is_space s).

Definition py_rstrip_chars (chars s : str) : str := rstrip_by (one_of chars) s.

Definition py_lstrip_chars (chars s : str) : str := lstrip_by (one_of chars) s.

(** [s.split()]: [cur] is the word being read. *)
Fixpoint split_ws (cur s : str) : list str :=
  match s with
  | [] => match cur with [] => [] | _ => [cur] end
  | c :: s' =>
      if is_space c then
        match cur with
        | [] => split_ws [] s'
        | _ => cur :: split_ws [] s'
        end
      else split_ws (cur ++ [c]) s'
  end.

Definition py_split (s : str) : list str := split_ws [] s.

(** [words[-1]] guarded by [if words], else the empty string *)
Definition last_word (words : list str) : str := default [] (last words).

(** *** Regular expressions

    A pattern is embedded as a function that, given the text from the current
    position on, returns the length of the match that starts there.  The
    combinators below are the ones the patterns of the two scripts are
    written with.  None of those patterns matches the empty string. *)

Definition matcher := str -> option nat.

(** A literal. *)
Definition m_lit (p : str) : matcher :=
  fun s => if starts_with p s then Some (length p) else None.

(** One character of a class, as in [[HG]]. *)
Definition m_set (p : ascii -> bool) : matcher :=
  fun s => match s with
           | c :: _ => if p c then Some 1%nat else None
           | [] => None
           end.

(** Greedy repetition of a class, at least [least] times, as in [[^>]*],
    [[^>]+], [\d+], [\s*], [\s+].  In every pattern of the scripts the
    repetition is followed by a character outside the class or by the end of
    the pattern, so giving characters back can never help and the longest run
    is the only candidate. *)
Definition m_many (p : ascii -> bool) (least : nat) : matcher :=
  fun s => let n := count_while p s in
           if (least <=? n)%nat then Some n else None.

(** An optional literal, as in [/?]. *)
Definition m_opt (p : str) : matcher :=
  fun s => if starts_with p s then Some (length p) else Some O.

(** Concatenation. *)
Definition m_seq (m1 m2 : matcher) : matcher :=
  fun s => match m1 s with
           | Some n =>
               match m2 (drop n s) with
               | Some k => Some (n + k)%nat
               | None => None
               end
           | None => None
           end.

(** The non-greedy [.*?] followed by the literal [q]: the match stops at the
    first place where [q] starts, and fails when a line feed comes first. *)
Fixpoint m_lazy_until (q : str) (s : str) : option nat :=
  if starts_with q s then Some (length q)
  else match s with
       | [] => None
       | c :: s' => if is_dot c then S <$> m_lazy_until q s' else None
       end.

(** Scanning a text from left to right for non-overlapping matches.  An
    unmatched character becomes [Chr], a match becomes [Hit]; [skip] counts
    the characters of the current match still to be passed over. *)
Inductive tok := Chr (c : ascii) | Hit (t : str).

Fixpoint re_scan (m : matcher) (skip : nat) (s : str) : list tok :=
  match s with
  | [] => []
  | c :: s' =>
      match skip with
      | S k => re_scan m k s'
      | O =>
          match m s with
          | Some (S k) => Hit (take (S k) s) :: re_scan m k s'
          | _ => Chr c :: re_scan m O s'
          end
      end
  end.

(** [re.sub(pattern, repl, s)] *)
Definition re_sub (m : matcher) (repl s : str) : str :=
  flat_map (fun t => match t with Chr c => [c] | Hit _ => repl end)
           (re_scan m O s).

(** [re.findall(pattern, s)] for a pattern without group: the matches. *)
Definition re_findall (m : matcher) (s : str) : list str :=
  omap (fun t => match t with Chr _ => None | Hit h => Some h end)
       (re_scan m O s).

(** [re.search(pattern, s)]: the leftmost match. *)
Definition re_search (m : matcher) (s : str) : option str :=
  head (re_findall m s).

(** [re.match(pattern, s)]: the match at position 0. *)
Definition re_match (m : matcher) (s : str) : option str :=
  match m s with
  | Some n => Some (take n s)
  | None => None
  end.

(** [re.split] with the whole pattern in a group: the pieces between the
    matches (empty ones included) alternate with the matches. *)
Fixpoint split_toks (cur : str) (ts : list tok) : list str :=
  match ts with
  | [] => [cur]
  | Chr c :: ts' => split_toks (cur ++ [c]) ts'
  | Hit h :: ts' => cur :: h :: split_toks [] ts'
  end.

Definition re_split (m : matcher) (s : str) : list str :=
  split_toks [] (re_scan m O s).

(** The group of a match of [p(.*?)q]: the match without [p] and [q]. *)
Definition group1 (p q h : str) : str :=
  take (length h - length p - length q) (drop (length p) h).

(** [s.replace(old, new)] *)
Definition py_replace (old new s : str) : str := re_sub (m_lit old) new s.

(** ** The canonical document *)

Inductive NoteType := literal | alternate | mixed.

Record Footnote := mkFootnote {
  catch_word : str;
  note_text : str;
  note_type : NoteType
}.

(** A verse object; [footnotes] is [None] when the key is absent. *)
Record Verse := mkVerse {
  verse : Z;
  text : str;
  footnotes : option (list Footnote)
}.

Record Chapter := mkChapter {
  chapter : Z;
  verses : list Verse
}.

Record Book := mkBook {
  name : str;
  chapters : list Chapter
}.

(** One entry of the flat top-level array. *)
Record FootnoteRecord := mkFootnoteRecord {
  id : Z;
  book : str;
  fr_chapter : Z;
  fr_verse : Z;
  fr_catch_word : str;
  fr_note_text : str;
  fr_note_type : NoteType
}.

(** The loaded JSON object: [books] and the top-level ["footnotes"] array. *)
Record Document := mkDocument {
  books : list Book;
  flat_footnotes : list FootnoteRecord
}.

(** The location key [(book_name, chapter, verse)]. *)
Abbreviation Key := (list ascii * Z * Z)%type.

(** The extractor's output, [dict] from location key to list of footnotes. *)
Abbreviation Mapping := (gmap (list ascii * Z * Z) (list Footnote)).

#[global] Instance NoteType_eq_dec : EqDecision NoteType.
Proof. solve_decision. Defined.
#[global] Instance Footnote_eq_dec : EqDecision Footnote.
Proof. solve_decision. Defined.

(** *** Rebuilding the flat array

    The loop nest shared by [merge_footnotes_into_json] (lines 245-267) and
    [add_footnotes_to_json] (lines 140-162).  The state is
    [(flat_footnotes, footnote_id)]. *)

Definition flat_append (book_name : str) (ch_num v_num : Z)
    (st : list FootnoteRecord * Z) (fn : Footnote) : list FootnoteRecord * Z :=
  (st.1 ++ [mkFootnoteRecord st.2 book_name ch_num v_num
              (catch_word fn) (note_text fn) (note_type fn)],
   st.2 + 1).

Definition flat_verse (book_name : str) (ch_num : Z)
    (st : list FootnoteRecord * Z) (v : Verse) : list FootnoteRecord * Z :=
  match footnotes v with
  | Some fns => fold_left (flat_append book_name ch_num (verse v)) fns st
  | None => st
  end.

Definition flat_chapter (book_name : str)
    (st : list FootnoteRecord * Z) (c : Chapter) : list FootnoteRecord * Z :=
  fold_left (flat_verse book_name (chapter c)) (verses c) st.

Definition flat_book (st : list FootnoteRecord * Z) (b : Book)
    : list FootnoteRecord * Z :=
  fold_left (flat_chapter (name b)) (chapters b) st.

Definition rebuild_flat (bs : list Book) : list FootnoteRecord :=
  (fold_left flat_book bs ([], 1)).1.

(** *** Filling the mapping

    Both extractors add a footnote with
    [if key not in footnotes: footnotes[key] = []] followed by
    [footnotes[key].append(...)]. *)
Definition append_footnote (fs : Mapping) (key : Key) (fn : Footnote)
    : Mapping :=
  let fs := match fs !! key with
            | None => <[key := []]> fs
            | Some _ => fs
            end in
  alter (fun l => l ++ [fn]) key fs.

Module MySword.

(** [BOOK_NAMES]: MySword book number (1-66) to project book name. *)
Definition BOOK_NAMES : gmap Z (list ascii) :=
  list_to_map (K := Z) [
    (1, lit "Genesis"); (2, lit "Exodus"); (3, lit "Leviticus");
    (4, lit "Numbers"); (5, lit "Deuteronomy"); (6, lit "Joshua");
    (7, lit "Judges"); (8, lit "Ruth"); (9, lit "I Samuel");
    (10, lit "II Samuel"); (11, lit "I Kings"); (12, lit "II Kings");
    (13, lit "I Chronicles"); (14, lit "II Chronicles"); (15, lit "Ezra");
    (16, lit "Nehemiah"); (17, lit "Esther"); (18, lit "Job");
    (19, lit "Psalms"); (20, lit "Proverbs"); (21, lit "Ecclesiastes");
    (22, lit "Song of Solomon"); (23, lit "Isaiah"); (24, lit "Jeremiah");
    (25, lit "Lamentations"); (26, lit "Ezekiel"); (27, lit "Daniel");
    (28, lit "Hosea"); (29, lit "Joel"); (30, lit "Amos");
    (31, lit "Obadiah"); (32, lit "Jonah"); (33, lit "Micah");
    (34, lit "Nahum"); (35, lit "Habakkuk"); (36, lit "Zephaniah");
    (37, lit "Haggai"); (38, lit "Zechariah"); (39, lit "Malachi");
    (40, lit "Matthew"); (41, lit "Mark"); (42, lit "Luke");
    (43, lit "John"); (44, lit "Acts"); (45, lit "Romans");
    (46, lit "I Corinthians"); (47, lit "II Corinthians");
    (48, lit "Galatians"); (49, lit "Ephesians"); (50, lit "Philippians");
    (51, lit "Colossians"); (52, lit "I Thessalonians");
    (53, lit "II Thessalonians"); (54, lit "I Timothy");
    (55, lit "II Timothy"); (56, lit "Titus"); (57, lit "Philemon");
    (58, lit "Hebrews"); (59, lit "James"); (60, lit "I Peter");
    (61, lit "II Peter"); (62, lit "I John"); (63, lit "II John");
    (64, lit "III John"); (65, lit "Jude"); (66, lit "Revelation of John")
  ].

(** [set(BOOK_NAMES[i] for i in range(40, 67))]; every index is a key of the
    table, so no lookup fails. *)
Definition nt_book_names : gset (list ascii) :=
  list_to_set (omap (fun i => BOOK_NAMES !! i) (seqZ 40 27)).

#[global] Arguments BOOK_NAMES : simpl never.
#[global] Arguments nt_book_names : simpl never.

(** The patterns of [extract_catch_word], lines 61-68. *)
Definition strongs_tag : matcher :=        (* <W[HG]\d+> *)
  m_seq (m_lit (lit "<W"))
    (m_seq (m_set (one_of (lit "HG")))
       (m_seq (m_many is_digit 1) (m_lit (lit ">")))).

Definition format_tag_upper : matcher :=   (* </?F[ROIA]> *)
  m_seq (m_lit (lit "<"))
    (m_seq (m_opt (lit "/"))
       (m_seq (m_lit (lit "F"))
          (m_seq (m_set (one_of (lit "ROIA"))) (m_lit (lit ">"))))).

Definition format_tag_lower (c : string) : matcher :=  (* </?Fr> and so on *)
  m_seq (m_lit (lit "<")) (m_seq (m_opt (lit "/")) (m_lit (lit c))).

Definition pilcrow : matcher :=            (* U+00C2 U+00B6 \s* *)
  m_seq (m_lit [ascii_of_N 194; ascii_of_N 182]) (m_many is_space 0).

(** Lines 61-69 of [extract_catch_word]: the tags are removed one pattern
    after the other, then the text is stripped. *)
Definition strip_markup (text_before_note : str) : str :=
  let clean := re_sub strongs_tag [] text_before_note in
  let clean := re_sub format_tag_upper [] clean in
  let clean := re_sub (format_tag_lower "Fr>") [] clean in
  let clean := re_sub (format_tag_lower "Fo>") [] clean in
  let clean := re_sub (format_tag_lower "Fi>") [] clean in
  let clean := re_sub (format_tag_lower "Fa>") [] clean in
  let clean := re_sub (m_lit (lit "<CM>")) [] clean in
  let clean := re_sub pilcrow [] clean in
  py_strip clean.

Definition extract_catch_word (text_before_note : str) : str :=
  let clean := strip_markup text_before_note in
  let clean := py_rstrip_chars (lit ":;,.") clean in
  match clean with
  | [] => []
  | _ =>
      let words := py_split clean in
      match words with
      | [] => []
      | _ => last_word words
      end
  end.

Definition literal_markers : list str :=
  [lit "heb."; lit "gr."; lit "chald."; lit "greek";
   lit "the word in the original"; lit "that is,"].

Definition alternate_markers : list str :=
  [lit "or,"; lit "or "; lit "some read,"; lit "some copies read"].

Definition classify_note_type (note_text : str) : NoteType :=
  let text_lower := py_lower note_text in
  let has_literal :=
    existsb (fun marker => contains marker text_lower) literal_markers in
  let has_alternate :=
    existsb (fun marker => contains marker text_lower) alternate_markers in
  if has_literal && has_alternate then mixed
  else if has_literal then literal
  else if has_alternate then alternate
  else alternate.

(** The patterns of [clean_note_text]. *)
Definition html_tag (c : string) : matcher :=   (* </?i>, </?b> *)
  m_seq (m_lit (lit "<")) (m_seq (m_opt (lit "/")) (m_lit (lit c))).

Definition any_tag : matcher :=                 (* <[^>]+> *)
  m_seq (m_lit (lit "<"))
    (m_seq (m_many (fun c => negb (is_char ">" c)) 1) (m_lit (lit ">"))).

Definition spaces : matcher := m_many is_space 1.   (* \s+ *)

Definition clean_note_text (raw_note : str) : str :=
  let text := raw_note in
  let text := re_sub (html_tag "i>") [] text in
  let text := re_sub (html_tag "b>") [] text in
  let text := re_sub any_tag [] text in
  let text := py_replace (lit "&amp;") (lit "&") text in
  let text := py_replace (lit "&lt;") (lit "<") text in
  let text := py_replace (lit "&gt;") (lit ">") text in
  let text := py_replace (lit "&c") (lit "&c") text in
  py_strip (re_sub spaces (lit " ") text).

(** One row of the cursor: [(book_num, chapter, verse, scripture)]. *)
Record Row := mkRow {
  book_num : Z;
  row_chapter : Z;
  row_verse : Z;
  scripture : str
}.

(** The state of the extraction loop.  [warnings] records the book numbers
    of the lines printed by [print("  Warning: Unknown book number ...")]. *)
Record ExtractState := mkExtractState {
  ex_footnotes : Mapping;
  total_notes : Z;
  warnings : list Z
}.

Definition RF_note : matcher :=                  (* <RF>.*?<Rf> *)
  m_seq (m_lit (lit "<RF>")) (m_lazy_until (lit "<Rf>")).

(** The body of [for part in parts] (lines 182-201); the state is the
    mapping, the counter and [text_so_far]. *)
Definition extract_part (key : Key) (st : Mapping * Z * str) (part : str)
    : Mapping * Z * str :=
  let '(fs, total, text_so_far) := st in
  match re_match RF_note part with
  | Some h =>
      let raw_note := group1 (lit "<RF>") (lit "<Rf>") h in
      let catch_word := extract_catch_word text_so_far in
      let note_text := clean_note_text raw_note in
      let note_type := classify_note_type note_text in
      (append_footnote fs key (mkFootnote catch_word note_text note_type),
       total + 1, text_so_far)
  | None => (fs, total, part)
  end.

(** The body of [for book_num, chapter, verse, scripture in cursor]
    (lines 171-201). *)
Definition extract_row (st : ExtractState) (r : Row) : ExtractState :=
  match BOOK_NAMES !! book_num r with
  | None =>
      mkExtractState (ex_footnotes st) (total_notes st)
        (warnings st ++ [book_num r])
  | Some book_name =>
      let parts := re_split RF_note (scripture r) in
      let key := (book_name, row_chapter r, row_verse r) in
      let '(fs, total, _) :=
        fold_left (extract_part key) parts
          (ex_footnotes st, total_notes st, []) in
      mkExtractState fs total (warnings st)
  end.

Definition extract_loop (cursor : list Row) : ExtractState :=
  fold_left extract_row cursor (mkExtractState ∅ 0 []).

(** [extract_footnotes_from_mysword]; [cursor] is the sequence of rows the
    SELECT statement yields for the given database and [nt_only]. *)
Definition extract_footnotes_from_mysword (cursor : list Row) : Mapping :=
  ex_footnotes (extract_loop cursor).

(** The body of the innermost loop of the first pass (lines 233-243). *)
Definition merge_verse (new_footnotes : Mapping) (nt_only : bool)
    (book_name : str) (ch_num : Z) (v : Verse) : Verse :=
  match new_footnotes !! (book_name, ch_num, verse v) with
  | Some fns => mkVerse (verse v) (text v) (Some fns)
  | None =>
      if negb nt_only then mkVerse (verse v) (text v) None else v
  end.

Definition merge_chapter (new_footnotes : Mapping) (nt_only : bool)
    (book_name : str) (c : Chapter) : Chapter :=
  mkChapter (chapter c)
    (map (merge_verse new_footnotes nt_only book_name (chapter c)) (verses c)).

(** The body of the outer loop (lines 224-243), with its [continue]. *)
Definition merge_book (new_footnotes : Mapping) (nt_only : bool)
    (b : Book) : Book :=
  if nt_only && negb (bool_decide (name b ∈ nt_book_names)) then b
  else mkBook (name b)
         (map (merge_chapter new_footnotes nt_only (name b)) (chapters b)).

(** [merge_footnotes_into_json], from the loaded [data] to the returned
    [data]. *)
Definition merge_footnotes_into_json (data : Document)
    (new_footnotes : Mapping) (nt_only : bool) : Document :=
  let bs := map (merge_book new_footnotes nt_only) (books data) in
  mkDocument bs (rebuild_flat bs).

End MySword.

Module Sword.

(** [SWORD_TO_PROJECT_BOOK_NAMES]: the table of overrides, empty in the
    script. *)
Definition SWORD_TO_PROJECT_BOOK_NAMES : gmap (list ascii) (list ascii) := ∅.

Definition dquote : ascii := ascii_of_N 34.

Definition rdg_open (ty : string) : str :=      (* <rdg type="ty"> *)
  lit "<rdg type=" ++ [dquote] ++ lit ty ++ [dquote] ++ lit ">".

Definition catch_word_elem : matcher :=     (* <catchWord>.*?</catchWord> *)
  m_seq (m_lit (lit "<catchWord>")) (m_lazy_until (lit "</catchWord>")).

Definition rdg_elem (ty : string) : matcher :=  (* <rdg type="ty">.*?</rdg> *)
  m_seq (m_lit (rdg_open ty)) (m_lazy_until (lit "</rdg>")).

Definition open_tag (nm : string) : matcher :=  (* <note[^>]*>, <rdg[^>]*> *)
  m_seq (m_lit (lit nm))
    (m_seq (m_many (fun c => negb (is_char ">" c)) 0) (m_lit (lit ">"))).

Definition note_elem : matcher :=           (* <note[^>]*>.*?</note> *)
  m_seq (open_tag "<note") (m_lazy_until (lit "</note>")).

Definition spaces : matcher := m_many is_space 1.   (* \s+ *)

(** The pattern replaced in the catch word (line 47): the three code points
    U+00E2 U+20AC U+00A6.  The second lies above U+00FF, so the pattern is
    given by its code points, and a literal given so is compared with the
    text by code point. *)
Definition ellipsis : list N := [226; 8364; 166]%N.

Fixpoint starts_with_points (p : list N) (s : str) : bool :=
  match p, s with
  | [], _ => true
  | n :: p', c :: s' => (N_of_ascii c =? n)%N && starts_with_points p' s'
  | _ :: _, [] => false
  end.

Definition m_points (p : list N) : matcher :=
  fun s => if starts_with_points p s then Some (length p) else None.

(** [.replace(<ellipsis>, '...')] of line 47.  The texts of this model hold
    code points up to U+00FF only; in such a text the pattern does not
    occur. *)
Definition replace_ellipsis (s : str) : str :=
  re_sub (m_points ellipsis) (lit "...") s.

(** [parse_note_text] *)
Definition parse_note_text (note_xml : str) : Footnote :=
  let catch_match := re_search catch_word_elem note_xml in
  let catch_word :=
    match catch_match with
    | Some h =>
        replace_ellipsis (group1 (lit "<catchWord>") (lit "</catchWord>") h)
    | None => []
    end in
  let literals := re_findall (rdg_elem "x-literal") note_xml in
  let alternates := re_findall (rdg_elem "alternate") note_xml in
  let note_type :=
    match literals, alternates with
    | _ :: _, _ :: _ => mixed
    | _ :: _, [] => literal
    | [], _ => alternate
    end in
  let text := re_sub catch_word_elem [] note_xml in
  let text := re_sub (open_tag "<note") [] text in
  let text := re_sub (m_lit (lit "</note>")) [] text in
  let text := re_sub (open_tag "<rdg") [] text in
  let text := re_sub (m_lit (lit "</rdg>")) [] text in
  let text := py_strip (py_lstrip_chars (lit ":") (py_strip text)) in
  let text := re_sub spaces (lit " ") text in
  mkFootnote catch_word text note_type.

(** A book of the SWORD module as the extractor reads it: its name and, for
    each chapter, the raw text [bible.get(...)] returns for each verse (the
    empty text when it returns nothing). *)
Record SwordBook := mkSwordBook {
  sw_name : str;
  sw_chapters : list (list str)
}.

(** The body of [for note_xml in notes] (lines 107-113). *)
Definition extract_note (key : Key) (st : Mapping * Z) (note_xml : str)
    : Mapping * Z :=
  (append_footnote st.1 key (parse_note_text note_xml), st.2 + 1).

(** The body of [for v in range(1, len(indices) + 1)] (lines 101-113). *)
Definition extract_verse (project_name : str) (ch : Z) (st : Mapping * Z)
    (vr : Z * str) : Mapping * Z :=
  let '(v, raw) := vr in
  match raw with
  | [] => st
  | _ =>
      if negb (contains (lit "<note") raw) then st
      else fold_left (extract_note (project_name, ch, v))
             (re_findall note_elem raw) st
  end.

(** The body of [for ch in range(1, book.num_chapters + 1)]. *)
Definition extract_chapter (project_name : str) (st : Mapping * Z)
    (cv : Z * list str) : Mapping * Z :=
  let '(ch, raws) := cv in
  fold_left (extract_verse project_name ch)
    (zip (seqZ 1 (Z.of_nat (length raws))) raws) st.

(** The body of [for book in all_books] (lines 95-113). *)
Definition extract_book (st : Mapping * Z) (b : SwordBook) : Mapping * Z :=
  let project_name :=
    default (sw_name b) (SWORD_TO_PROJECT_BOOK_NAMES !! sw_name b) in
  fold_left (extract_chapter project_name)
    (zip (seqZ 1 (Z.of_nat (length (sw_chapters b)))) (sw_chapters b)) st.

(** [extract_footnotes]; [all_books] is [books_ot + books_nt] of the
    module. *)
Definition extract_footnotes (all_books : list SwordBook) : Mapping :=
  (fold_left extract_book all_books (∅, 0)).1.

Definition add_verse (fs : Mapping) (book_name : str) (ch_num : Z)
    (v : Verse) : Verse :=
  match fs !! (book_name, ch_num, verse v) with
  | Some fns => mkVerse (verse v) (text v) (Some fns)
  | None => v
  end.

Definition add_chapter (fs : Mapping) (book_name : str) (c : Chapter)
    : Chapter :=
  mkChapter (chapter c) (map (add_verse fs book_name (chapter c)) (verses c)).

Definition add_book (fs : Mapping) (b : Book) : Book :=
  mkBook (name b) (map (add_chapter fs (name b)) (chapters b)).

(** [add_footnotes_to_json], from the loaded [data] to the returned [data]. *)
Definition add_footnotes_to_json (data : Document) (fs : Mapping)
    : Document :=
  let bs := map (add_book fs) (books data) in
  mkDocument bs (rebuild_flat bs).

End Sword.

(** ** The generators

    The SQL generators read the document the scripts write.  Modelled here
    are the helpers whose result goes into the dump: [escape_string] of the
    PostgreSQL generator and [get_license_info], which the MySQL and the
    PostgreSQL generator define alike. *)
Module Generator.

Definition squote : ascii := ascii_of_N 39.

(** [escape_string] (postgresql_generator.py, lines 108-112); [None] is
    Python's [None]. *)
Definition escape_string (text : option str) : str :=
  match text with
  | None => lit "NULL"
  | Some text => py_replace [squote] [squote; squote] text
  end.

(** [s.split(sep)]: the pieces between the occurrences of [sep], empty ones
    included. *)
Fixpoint pieces (cur : str) (ts : list tok) : list str :=
  match ts with
  | [] => [cur]
  | Chr c :: ts' => pieces (cur ++ [c]) ts'
  | Hit _ :: ts' => cur :: pieces [] ts'
  end.

Definition py_split_sep (sep s : str) : list str :=
  pieces [] (re_scan (m_lit sep) O s).

(** What [get_license_info] returns, or the exception it raises. *)
Inductive result :=
  | Ok (s : str)
  | IndexError.

(** [get_license_info] (mysql_generator.py, lines 99-105, and
    postgresql_generator.py, lines 114-120); [lines] are the lines of the
    README file, each with its line end, as [for line in file] yields
    them. *)
Fixpoint get_license_info (lines : list str) : result :=
  match lines with
  | [] => Ok (lit "Unknown")
  | line :: lines' =>
      if starts_with (lit "**License:**") line then
        match py_split_sep (lit "**License:** ") line !! 1%nat with
        | Some piece => Ok (py_strip piece)
        | None => IndexError
        end
      else get_license_info lines'
  end.

End Generator.

(** ** Notions the statements are written with *)

(** The footnotes attached to the verses, with their location, in book,
    chapter, verse and within-verse order. *)
Definition attached_verse (book_name : str) (ch_num : Z) (v : Verse)
    : list (Key * Footnote) :=
  map (fun fn => ((book_name, ch_num, verse v), fn)) (default [] (footnotes v)).

Definition attached_chapter (book_name : str) (c : Chapter)
    : list (Key * Footnote) :=
  flat_map (attached_verse book_name (chapter c)) (verses c).

Definition attached_book (b : Book) : list (Key * Footnote) :=
  flat_map (attached_chapter (name b)) (chapters b).

Definition attached (bs : list Book) : list (Key * Footnote) :=
  flat_map attached_book bs.

(** The flat record of a located footnote with identifier [i]. *)
Definition record_of (i : Z) (kf : Key * Footnote) : FootnoteRecord :=
  mkFootnoteRecord i kf.1.1.1 kf.1.1.2 kf.1.2
    (catch_word kf.2) (note_text kf.2) (note_type kf.2).

(** Numbering a sequence of located footnotes [n], [n+1], ... *)
Fixpoint number_from (n : Z) (l : list (Key * Footnote))
    : list FootnoteRecord :=
  match l with
  | [] => []
  | kf :: l' => record_of n kf :: number_from (n + 1) l'
  end.

(** The verse at position [k] of chapter [j] of book [i], with the name and
    number it is located by. *)
Definition verse_at (bs : list Book) (i j k : nat)
    : option (list ascii * Z * Verse) :=
  b ← bs !! i; c ← chapters b !! j; v ← verses c !! k;
  Some (name b, chapter c, v).

(** No verse of the books is addressed by the key. *)
Definition key_unused (bs : list Book) (key : Key) : Prop :=
  forall i j k bn ch v,
    verse_at bs i j k = Some (bn, ch, v) -> (bn, ch, verse v) <> key.

(** Every list stored in the mapping has at least one footnote. *)
Definition nonempty_values (fs : Mapping) : Prop :=
  forall key fns, fs !! key = Some fns -> fns <> [].

(** The names the MySword table knows. *)
Definition known_book_name (bn : list ascii) : Prop :=
  exists n, MySword.BOOK_NAMES !! n = Some bn.

(** A row whose book number the table maps to a name. *)
Definition known_row (r : MySword.Row) : bool :=
  bool_decide (is_Some (MySword.BOOK_NAMES !! MySword.book_num r)).

(** [m] is a substring of [t]. *)
Definition occurs (m t : list ascii) : Prop :=
  exists pre post, t = pre ++ m ++ post.

(** [m] is a substring of [t] up to the case of the letters. *)
Definition occurs_ignoring_case (m t : list ascii) : Prop :=
  exists pre u post, t = pre ++ u ++ post /\ py_lower u = py_lower m.

Definition literal_marker_in (t : list ascii) : Prop :=
  exists m, m ∈ MySword.literal_markers /\ occurs_ignoring_case m t.

Definition alternate_marker_in (t : list ascii) : Prop :=
  exists m, m ∈ MySword.alternate_markers /\ occurs_ignoring_case m t.

(** The note holds a reading element of the given type: its opening tag,
    a content without line feed, and the closing tag. *)
Definition has_rdg_element (ty : string) (note_xml : list ascii) : Prop :=
  exists pre body post,
    note_xml = pre ++ Sword.rdg_open ty ++ body ++ lit "</rdg>" ++ post
    /\ Forall (fun c => is_dot c = true) body.

(** The same without the condition on the content. *)
Definition has_rdg_markup (ty : string) (note_xml : list ascii) : Prop :=
  exists pre body post,
    note_xml = pre ++ Sword.rdg_open ty ++ body ++ lit "</rdg>" ++ post.

(** A note whose only reading is marked [alternate] and starts with a
    literal marker of the other dialect. *)
Definition sample_rdg_note : list ascii :=
  lit "<note>" ++ Sword.rdg_open "alternate" ++ lit "Heb. heart</rdg></note>".

(** Words joined by single spaces: [" ".join(words)]. *)
Fixpoint join_words (ws : list (list ascii)) : list ascii :=
  match ws with
  | [] => []
  | w :: ws' =>
      match ws' with
      | [] => w
      | _ => w ++ " "%char :: join_words ws'
      end
  end.

(** A word: not empty, no whitespace in it. *)
Definition is_word (w : list ascii) : Prop :=
  w <> [] /\ Forall (fun c => is_space c = false) w.

(** Well-formed markup: text without [<] and [&], and tags [<n>] whose name
    [n] is not empty and holds neither [<] nor [>]. *)
Inductive piece := Txt (a : list ascii) | Tag (n : list ascii).

Definition render_piece (p : piece) : list ascii :=
  match p with
  | Txt a => a
  | Tag n => "<"%char :: n ++ [">"%char]
  end.

Definition render (ps : list piece) : list ascii := flat_map render_piece ps.

Definition text_of (ps : list piece) : list ascii :=
  flat_map (fun p => match p with Txt a => a | Tag _ => [] end) ps.

Definition well_formed (p : piece) : Prop :=
  match p with
  | Txt a => ("<"%char ∉ a) /\ ("&"%char ∉ a)
  | Tag n => n <> [] /\ ("<"%char ∉ n) /\ (">"%char ∉ n)
  end.

(** A pattern that matches at [<] only and that, on a well-formed tag,
    takes the whole tag when [sel] accepts its name and fails otherwise. *)
Definition tag_pattern (m : matcher) (sel : list ascii -> bool) : Prop :=
  (forall c t, c <> "<"%char -> m (c :: t) = None)
  /\ (forall n rest,
        well_formed (Tag n) ->
        m ("<"%char :: n ++ ">"%char :: rest)
        = if sel n then Some (S (S (length n))) else None).

(** The pieces a pattern leaves: the texts, and the tags it does not take. *)
Definition kept (sel : list ascii -> bool) (p : piece) : bool :=
  match p with
  | Txt _ => true
  | Tag n => negb (sel n)
  end.

(** The names [</?x>] takes: [x] and [/x]. *)
Definition named (x : ascii) (n : list ascii) : bool :=
  match n with
  | [a] => Ascii.eqb x a
  | [s; a] => Ascii.eqb "/" s && Ascii.eqb x a
  | _ => false
  end.

(** The last two steps of the Markup Cleaner: [re.sub(r'\s+', ' ', text)]
    followed by [strip()]. *)
Definition collapse_spaces (s : list ascii) : list ascii :=
  py_strip (re_sub MySword.spaces (lit " ") s).

(** The procedure of the Catch-Word Resolver over a given cleaner: clean,
    strip the trailing punctuation, split on whitespace, take the last
    token, or the empty string when there is none. *)
Definition catch_word_of (cleaner : list ascii -> list ascii)
    (prefix : list ascii) : list ascii :=
  last_word (py_split (py_rstrip_chars (lit ":;,.") (cleaner prefix))).

(** ** Sample data *)

Definition sample_cursor : list MySword.Row :=
  [MySword.mkRow 40 1 1 (lit "The <FI>book<Fi><RF>Or, <i>roll</i><Rf> of");
   MySword.mkRow 99 1 1 (lit "lost<RF>Heb. not kept<Rf> words")].

(** A book no table of the project names, with one annotated verse. *)
Definition sample_module : list Sword.SwordBook :=
  [Sword.mkSwordBook (lit "Enoch")
     [[lit "walked<note n=1><catchWord>walked</catchWord>: Or, went</note> on"]]].

Definition sample_note : Footnote :=
  mkFootnote (lit "book") (lit "Or, roll") alternate.

Definition stale_note : Footnote :=
  mkFootnote (lit "void") (lit "Heb. emptiness") literal.

(** Genesis 1:1 carries a note already; Matthew 1:1 and 1:2 carry none. *)
Definition sample_document : Document :=
  mkDocument
    [mkBook (lit "Genesis")
       [mkChapter 1 [mkVerse 1 (lit "In the beginning") (Some [stale_note])]];
     mkBook (lit "Matthew")
       [mkChapter 1 [mkVerse 1 (lit "The book") None;
                     mkVerse 2 (lit "Abraham begat") None]]]
    [].

Definition sample_mapping : Mapping :=
  {[ (lit "Matthew", 1, 1) := [sample_note] ]}.

(** ** Further notions *)

(** A verse, chapter and book without footnotes: the part of the document
    that holds the Scripture text. *)
Definition bare_verse (v : Verse) : Verse := mkVerse (verse v) (text v) None.

Definition bare_chapter (c : Chapter) : Chapter :=
  mkChapter (chapter c) (map bare_verse (verses c)).

Definition bare_book (b : Book) : Book :=
  mkBook (name b) (map bare_chapter (chapters b)).

(** The location and the footnote a flat record was made from. *)
Definition key_of (r : FootnoteRecord) : Key :=
  (book r, fr_chapter r, fr_verse r).

Definition footnote_of (r : FootnoteRecord) : Footnote :=
  mkFootnote (fr_catch_word r) (fr_note_text r) (fr_note_type r).

(** A document with New Testament books only. *)
Definition sample_nt_document : Document :=
  mkDocument
    [mkBook (lit "Matthew")
       [mkChapter 1 [mkVerse 1 (lit "The book") (Some [stale_note]);
                     mkVerse 2 (lit "Abraham begat") None]]]
    [].

(** The number of footnotes a mapping holds. *)
Definition footnote_count (fs : Mapping) : Z :=
  map_fold (fun _ fns n => n + Z.of_nat (length fns)) 0 fs.

(** The footnote the MySword extractor builds from the text before a note
    and the raw text of the note (lines 185-198). *)
Definition mysword_footnote (text_so_far raw_note : list ascii) : Footnote :=
  let note_text := MySword.clean_note_text raw_note in
  mkFootnote (MySword.extract_catch_word text_so_far) note_text
    (MySword.classify_note_type note_text).

(** Position [n] of a list, counted from 1 as the SWORD extractor counts
    chapters and verses. *)
Definition nth_from_1 {A} (l : list A) (n : Z) : option A :=
  if decide (1 <= n) then l !! Z.to_nat (n - 1) else None.

(** The raw text the module holds for a verse of a book. *)
Definition raw_at (b : Sword.SwordBook) (ch v : Z) : option (list ascii) :=
  raws ← nth_from_1 (Sword.sw_chapters b) ch; nth_from_1 raws v.

(** The notes of a raw verse text, parsed, in the order they stand in. *)
Definition verse_notes (raw : list ascii) : list Footnote :=
  map Sword.parse_note_text (re_findall Sword.note_elem raw).

(** The list under a key after footnotes have been appended to it. *)
Definition app_notes (o : option (list Footnote)) (l : list Footnote)
    : option (list Footnote) :=
  match l with
  | [] => o
  | _ => Some (default [] o ++ l)
  end.

(** The text a token of the scan stands for. *)
Definition tok_text (t : tok) : list ascii :=
  match t with
  | Chr c => [c]
  | Hit h => h
  end.

(** A verse text with inline notes: the text [t0], then each note between
    its markers, followed by the text up to the next note. *)
Definition with_notes (t0 : list ascii)
    (ns : list (list ascii * list ascii)) : list ascii :=
  t0 ++ flat_map (fun nt => lit "<RF>" ++ nt.1 ++ lit "<Rf>" ++ nt.2) ns.

(** The parts such a text falls into. *)
Fixpoint parts_of (t0 : list ascii) (ns : list (list ascii * list ascii))
    : list (list ascii) :=
  match ns with
  | [] => [t0]
  | (n, t) :: ns' => t0 :: (lit "<RF>" ++ n ++ lit "<Rf>") :: parts_of t ns'
  end.

(** The footnotes of its notes: each with the text that stands between the
    note before it (or the start of the verse) and the note itself. *)
Fixpoint notes_footnotes (t0 : list ascii)
    (ns : list (list ascii * list ascii)) : list Footnote :=
  match ns with
  | [] => []
  | (n, t) :: ns' => mysword_footnote t0 n :: notes_footnotes t ns'
  end.

(** A text that holds no opening marker, and a note text: no line feed and
    no closing marker in it. *)
Definition plain_text (t : list ascii) : Prop := ~ occurs (lit "<RF>") t.

Definition note_body (n : list ascii) : Prop :=
  Forall (fun c => is_dot c = true) n /\ ~ occurs (lit "<Rf>") n.

(** A row of the cursor with two notes, the second right after a tag. *)
Definition sample_row : MySword.Row :=
  MySword.mkRow 43 1 1
    (with_notes (lit "In the <FI>beginning<Fi>")
       [(lit "Gr. <i>start</i>", lit " was the Word,");
        (lit "Or, reason", lit " and")]).

Definition line_feed : ascii := ascii_of_N 10.

(** A row whose note runs over two lines. *)
Definition sample_two_line_row : MySword.Row :=
  MySword.mkRow 40 1 1
    (lit "word<RF>Or," ++ line_feed :: lit "term<Rf> end").

(** Reading a PostgreSQL string constant from behind its opening quote:
    two quotes stand for one quote, a single quote ends the constant.  The
    result is the text of the constant and what follows its closing
    quote. *)
Fixpoint read_literal (s : list ascii) : option (list ascii * list ascii) :=
  match s with
  | [] => None
  | c :: s' =>
      if is_char Generator.squote c then
        match s' with
        | d :: s'' =>
            if is_char Generator.squote d
            then (fun r => (Generator.squote :: r.1, r.2)) <$> read_literal s''
            else Some ([], s')
        | [] => Some ([], [])
        end
      else (fun r => (c :: r.1, r.2)) <$> read_literal s'
  end.

(** A README file with a title, a license line and a text after it. *)
Definition sample_readme : list (list ascii) :=
  [lit "# King James Version" ++ [line_feed];
   [line_feed];
   lit "**License:** Public Domain " ++ [line_feed];
   lit "**License:** Other" ++ [line_feed]].



(** The names of the tags the Catch-Word Resolver removes: Strong's
    numbers [W], [H] or [G], digits; the format tags [F] with one of
    [R O I A], or [Fr], [Fo], [Fi], [Fa], each with or without a leading
    slash; and [CM]. *)
Definition strongs_name (n : list ascii) : bool :=
  match n with
  | w :: h :: d :: ds =>
      Ascii.eqb "W" w && one_of (lit "HG") h && forallb is_digit (d :: ds)
  | _ => false
  end.

Definition unslashed (n : list ascii) : list ascii :=
  match n with
  | c :: n' => if Ascii.eqb "/" c then n' else n
  | [] => []
  end.

Definition format_upper_name (n : list ascii) : bool :=
  match n with
  | [f; x] => Ascii.eqb "F" f && one_of (lit "ROIA") x
  | _ => false
  end.

Definition mysword_tag (n : list ascii) : bool :=
  strongs_name n
  || (format_upper_name (unslashed n)
      || (bool_decide (unslashed n = lit "Fr")
          || (bool_decide (unslashed n = lit "Fo")
              || (bool_decide (unslashed n = lit "Fi")
                  || (bool_decide (unslashed n = lit "Fa")
                      || bool_decide (n = lit "CM")))))).

(** A text before a note, with tags the resolver knows and one it does
    not. *)
Definition sample_prefix : list piece :=
  [Txt (lit "And "); Tag (lit "FI"); Txt (lit "he"); Tag (lit "Fi");
   Txt (lit " said"); Tag (lit "WH559"); Txt (lit " unto "); Tag (lit "CL");
   Txt (lit "them"); Tag (lit "/FR"); Txt (lit ", ")].

(** Decoding the known entities as the specification words it: the text is
    read once from left to right, each of [&amp;], [&lt;] and [&gt;] gives
    the character it stands for, and what has been decoded is not read
    again.  [skip] counts the characters of the current entity still to be
    passed over. *)
Fixpoint decode_entities_from (skip : nat) (s : list ascii) : list ascii :=
  match s with
  | [] => []
  | c :: s' =>
      match skip with
      | S k => decode_entities_from k s'
      | O =>
          if starts_with (lit "&amp;") s
          then "&"%char :: decode_entities_from 4 s'
          else if starts_with (lit "&lt;") s
          then "<"%char :: decode_entities_from 3 s'
          else if starts_with (lit "&gt;") s
          then ">"%char :: decode_entities_from 3 s'
          else c :: decode_entities_from O s'
      end
  end.

Definition decode_entities_once (s : list ascii) : list ascii :=
  decode_entities_from O s.

(** * Properties *)

(** ** The flat array *)

Lemma number_from_app n l1 l2 :
  number_from n (l1 ++ l2)
  = number_from n l1 ++ number_from (n + Z.of_nat (length l1)) l2.
Proof.
  revert n. induction l1 as [|kf l1 IH]; intros n; simpl.
  - by rewrite Z.add_0_r.
  - rewrite IH. do 3 f_equal. lia.
Qed.

Lemma number_from_ids n l :
  map id (number_from n l) = seqZ n (Z.of_nat (length l)).
Proof.
  revert n. induction l as [|kf l IH]; intros n; simpl.
  - done.
  - rewrite IH. rewrite (seqZ_cons n) by lia. simpl. do 2 f_equal. lia.
Qed.

Lemma number_from_length n l : length (number_from n l) = length l.
Proof. revert n. induction l; intros; simpl; auto. Qed.

(** A loop whose body appends the numbered located footnotes of its item
    appends, as a whole, those of all its items. *)
Lemma fold_numbering {A} (f : list FootnoteRecord * Z -> A -> list FootnoteRecord * Z)
    (g : A -> list (Key * Footnote)) :
  (forall st x, f st x = (st.1 ++ number_from st.2 (g x),
                          st.2 + Z.of_nat (length (g x)))) ->
  forall l st, fold_left f l st
               = (st.1 ++ number_from st.2 (flat_map g l),
                  st.2 + Z.of_nat (length (flat_map g l))).
Proof.
  intros Hf l. induction l as [|x l IH]; intros [acc n]; simpl.
  - by rewrite app_nil_r, Z.add_0_r.
  - rewrite IH, Hf. simpl. rewrite number_from_app, length_app, <- app_assoc.
    f_equal. lia.
Qed.

Lemma flat_verse_numbering bn ch st v :
  flat_verse bn ch st v
  = (st.1 ++ number_from st.2 (attached_verse bn ch v),
     st.2 + Z.of_nat (length (attached_verse bn ch v))).
Proof.
  unfold flat_verse, attached_verse. destruct (footnotes v) as [fns|]; simpl.
  - rewrite (fold_numbering _ (fun fn => [((bn, ch, verse v), fn)])).
    + assert (flat_map (fun fn => [((bn, ch, verse v), fn)]) fns
              = map (fun fn => ((bn, ch, verse v), fn)) fns) as ->; [|done].
      induction fns; simpl; congruence.
    + intros [acc n] fn. unfold flat_append. simpl. done.
  - destruct st. simpl. by rewrite app_nil_r, Z.add_0_r.
Qed.

Lemma flat_chapter_numbering bn st c :
  flat_chapter bn st c
  = (st.1 ++ number_from st.2 (attached_chapter bn c),
     st.2 + Z.of_nat (length (attached_chapter bn c))).
Proof.
  unfold flat_chapter, attached_chapter.
  apply fold_numbering. intros. apply flat_verse_numbering.
Qed.

Lemma flat_book_numbering st b :
  flat_book st b
  = (st.1 ++ number_from st.2 (attached_book b),
     st.2 + Z.of_nat (length (attached_book b))).
Proof.
  unfold flat_book, attached_book.
  apply fold_numbering. intros. apply flat_chapter_numbering.
Qed.

Lemma rebuild_flat_numbering bs :
  rebuild_flat bs = number_from 1 (attached bs).
Proof.
  unfold rebuild_flat, attached.
  rewrite (fold_numbering _ attached_book) by apply flat_book_numbering.
  done.
Qed.

Lemma number_from_lookup n l (i : nat) :
  number_from n l !! i = record_of (n + Z.of_nat i) <$> l !! i.
Proof.
  revert n i. induction l as [|kf l IH]; intros n [|i]; simpl; try done.
  - by rewrite Z.add_0_r.
  - rewrite IH. do 2 f_equal. lia.
Qed.

(** C1.  After a merge by either script, partial or full, the flat array of
    the returned document is the sequence of the footnotes attached to its
    verses, in book, chapter, verse and within-verse order: the entry at
    position [i] (from 0) carries the id [i + 1], the location of its verse
    and the fields of its footnote; the ids are 1..N in that order; and the
    array does not depend on the flat array the loaded document had. *)
Theorem flat_footnotes_rebuilt (data : Document) (new_footnotes : Mapping)
    (nt_only : bool) (old : list FootnoteRecord) :
  let merged := MySword.merge_footnotes_into_json data new_footnotes nt_only in
  let added := Sword.add_footnotes_to_json data new_footnotes in
  ((forall i : nat,
      flat_footnotes merged !! i
      = record_of (1 + Z.of_nat i) <$> attached (books merged) !! i)
   /\ length (flat_footnotes merged) = length (attached (books merged))
   /\ map id (flat_footnotes merged)
      = seqZ 1 (Z.of_nat (length (attached (books merged))))
   /\ MySword.merge_footnotes_into_json
        (mkDocument (books data) old) new_footnotes nt_only = merged)
  /\
  ((forall i : nat,
      flat_footnotes added !! i
      = record_of (1 + Z.of_nat i) <$> attached (books added) !! i)
   /\ length (flat_footnotes added) = length (attached (books added))
   /\ map id (flat_footnotes added)
      = seqZ 1 (Z.of_nat (length (attached (books added))))
   /\ Sword.add_footnotes_to_json (mkDocument (books data) old) new_footnotes
      = added).
Proof.
  simpl. unfold MySword.merge_footnotes_into_json, Sword.add_footnotes_to_json.
  simpl. rewrite !rebuild_flat_numbering.
  repeat split; intros;
    auto using number_from_lookup, number_from_length, number_from_ids.
Qed.

(** ** The first pass of the merge *)

#[global] Opaque MySword.nt_book_names MySword.BOOK_NAMES.

Lemma verse_at_merge M nt bs i j k :
  verse_at (map (MySword.merge_book M nt) bs) i j k
  = (fun x : list ascii * Z * Verse =>
       (x.1.1, x.1.2,
        if nt && negb (bool_decide (x.1.1 ∈ MySword.nt_book_names)) then x.2
        else MySword.merge_verse M nt x.1.1 x.1.2 x.2))
    <$> verse_at bs i j k.
Proof.
  unfold verse_at. rewrite list_lookup_fmap.
  destruct (bs !! i) as [b|]; simpl; [|done].
  unfold MySword.merge_book.
  destruct (nt && negb (bool_decide (name b ∈ MySword.nt_book_names))) eqn:E;
    simpl.
  - destruct (chapters b !! j) as [c|]; simpl; [|done].
    destruct (verses c !! k) as [v|]; simpl; [|done]. by rewrite E.
  - rewrite list_lookup_fmap.
    destruct (chapters b !! j) as [c|]; simpl; [|done].
    rewrite list_lookup_fmap.
    destruct (verses c !! k) as [v|]; simpl; [|done]. by rewrite E.
Qed.

Lemma elem_verse_at bs b c v :
  b ∈ bs -> c ∈ chapters b -> v ∈ verses c ->
  exists i j k, verse_at bs i j k = Some (name b, chapter c, v).
Proof.
  intros [i Hi]%list_elem_of_lookup_1 [j Hj]%list_elem_of_lookup_1
         [k Hk]%list_elem_of_lookup_1.
  exists i, j, k. unfold verse_at. rewrite Hi. simpl. rewrite Hj. simpl.
  rewrite Hk. done.
Qed.

Lemma map_ext_elem {A B} (f g : A -> B) (l : list A) :
  (forall x, x ∈ l -> f x = g x) -> map f l = map g l.
Proof.
  intros H. apply map_ext_in. intros x Hx. apply H. by apply list_elem_of_In.
Qed.

Lemma merge_verse_idem M bn ch v :
  MySword.merge_verse M false bn ch (MySword.merge_verse M false bn ch v)
  = MySword.merge_verse M false bn ch v.
Proof.
  unfold MySword.merge_verse.
  destruct (M !! (bn, ch, verse v)) as [fns|] eqn:E; simpl; by rewrite E.
Qed.

Lemma merge_book_idem M b :
  MySword.merge_book M false (MySword.merge_book M false b)
  = MySword.merge_book M false b.
Proof.
  unfold MySword.merge_book. simpl. f_equal.
  rewrite map_map. apply map_ext. intros c.
  unfold MySword.merge_chapter. simpl. f_equal.
  rewrite map_map. apply map_ext. intros v. apply merge_verse_idem.
Qed.

Lemma nt_book_names_spec bn :
  bn ∈ MySword.nt_book_names
  <-> exists n, 40 <= n <= 66 /\ MySword.BOOK_NAMES !! n = Some bn.
Proof.
  Local Transparent MySword.nt_book_names.
  unfold MySword.nt_book_names.
  Local Opaque MySword.nt_book_names.
  rewrite elem_of_list_to_set, list_elem_of_omap. split.
  - intros (n & Hn & E). apply elem_of_seqZ in Hn. exists n. split; [lia|done].
  - intros (n & Hn & E). exists n. split; [|done]. apply elem_of_seqZ. lia.
Qed.

(** C2.  Partial merge (the script's [nt_only=True], whose scope is the
    set of the names of books 40 to 66).  The document keeps its shape, and
    a verse keeps its number and text.  Its footnote field becomes the mapped
    list when its book is in scope and its location key is in the mapping;
    when the book is out of scope, or the key is not in the mapping, the
    verse is left exactly as it was, footnotes included. *)
Theorem partial_merge_frame (data : Document) (new_footnotes : Mapping)
    (i j k : nat) (bn : list ascii) (ch : Z) (v : Verse) :
  verse_at (books data) i j k = Some (bn, ch, v) ->
  let merged := MySword.merge_footnotes_into_json data new_footnotes true in
  (forall n : Z, 40 <= n <= 66 ->
     exists b, MySword.BOOK_NAMES !! n = Some b /\ b ∈ MySword.nt_book_names)
  /\ (forall i' j' k', verse_at (books data) i' j' k' = None ->
                       verse_at (books merged) i' j' k' = None)
  /\ exists v',
      verse_at (books merged) i j k = Some (bn, ch, v')
      /\ verse v' = verse v /\ text v' = text v
      /\ (forall fns, bn ∈ MySword.nt_book_names ->
                      new_footnotes !! (bn, ch, verse v) = Some fns ->
                      footnotes v' = Some fns)
      /\ (bn ∉ MySword.nt_book_names -> v' = v)
      /\ (new_footnotes !! (bn, ch, verse v) = None -> v' = v).
Proof.
  intros Hv merged. split; [|split].
  - intros n Hn.
    assert (is_Some (MySword.BOOK_NAMES !! n)) as [b Hb].
    { assert (n ∈ seqZ 40 27) as Hin by (apply elem_of_seqZ; lia).
      clear Hn. revert n Hin. apply Forall_forall. vm_compute.
      repeat constructor; eexists; reflexivity. }
    exists b. split; [done|]. apply nt_book_names_spec. eauto.
  - intros i' j' k' Hnone. unfold merged. simpl.
    by rewrite verse_at_merge, Hnone.
  - unfold merged. simpl. rewrite verse_at_merge, Hv. simpl.
    eexists. split; [reflexivity|].
    unfold MySword.merge_verse.
    destruct (bool_decide (bn ∈ MySword.nt_book_names)) eqn:E; simpl.
    + apply bool_decide_eq_true in E.
      destruct (new_footnotes !! (bn, ch, verse v)) as [fns|] eqn:EM; simpl.
      * split; [reflexivity|]. split; [reflexivity|]. split; [|split].
        -- intros fns' _ Hf. congruence.
        -- intros Hn. destruct (Hn E).
        -- intros Hf. discriminate Hf.
      * split; [reflexivity|]. split; [reflexivity|]. split; [|split].
        -- intros fns' _ Hf. discriminate Hf.
        -- reflexivity.
        -- reflexivity.
    + apply bool_decide_eq_false in E.
      split; [reflexivity|]. split; [reflexivity|]. split; [|split].
      * intros fns' Hin. destruct (E Hin).
      * reflexivity.
      * reflexivity.
Qed.

Lemma partial_merge_frame_witness :
  verse_at (books sample_document) 1 0 0
  = Some (lit "Matthew", 1, mkVerse 1 (lit "The book") None)
  /\ exists v',
      verse_at (books (MySword.merge_footnotes_into_json
                         sample_document sample_mapping true)) 1 0 0
      = Some (lit "Matthew", 1, v')
      /\ footnotes v' = Some [sample_note].
Proof.
  assert (verse_at (books sample_document) 1 0 0
          = Some (lit "Matthew", 1, mkVerse 1 (lit "The book") None)) as H
    by reflexivity.
  split; [exact H|].
  destruct (partial_merge_frame sample_document sample_mapping 1 0 0 _ _ _ H)
    as (_ & _ & v' & Hat & _ & _ & Hin & _).
  exists v'. split; [exact Hat|].
  apply Hin.
  - apply nt_book_names_spec. exists 40. split; [lia|]. vm_compute. reflexivity.
  - vm_compute. reflexivity.
Defined.

Lemma merge_books_unused_key M key fns (bs : list Book) :
  key_unused bs key ->
  map (MySword.merge_book (<[key := fns]> M) false) bs
  = map (MySword.merge_book M false) bs.
Proof.
  intros Hun. apply map_ext_elem. intros b Hb.
  unfold MySword.merge_book. simpl. f_equal.
  apply map_ext_elem. intros c Hc.
  unfold MySword.merge_chapter. f_equal.
  apply map_ext_elem. intros v Hv.
  destruct (elem_verse_at bs b c v Hb Hc Hv) as (i & j & k & Hat).
  unfold MySword.merge_verse.
  rewrite lookup_insert_ne; [reflexivity|].
  intros Heq. exact (Hun _ _ _ _ _ _ Hat (eq_sym Heq)).
Qed.

(** C3.  Full merge (the script's [nt_only=False]).  The document keeps its
    shape, and a verse keeps its number and text.  The footnote field of
    every verse becomes what the mapping holds for its location key: the
    mapped list when the key is present, no field when it is absent, whatever
    the verse carried before.  A verse therefore carries an empty list only
    if the mapping maps its key to one.  A key of the mapping that addresses
    no verse changes nothing in the result. *)
Theorem full_merge_replaces (data : Document) (new_footnotes : Mapping)
    (i j k : nat) (bn : list ascii) (ch : Z) (v : Verse) :
  verse_at (books data) i j k = Some (bn, ch, v) ->
  let merged := MySword.merge_footnotes_into_json data new_footnotes false in
  (forall i' j' k', verse_at (books data) i' j' k' = None ->
                    verse_at (books merged) i' j' k' = None)
  /\ (forall key fns,
        key_unused (books data) key ->
        MySword.merge_footnotes_into_json data (<[key := fns]> new_footnotes)
          false = merged)
  /\ exists v',
      verse_at (books merged) i j k = Some (bn, ch, v')
      /\ verse v' = verse v /\ text v' = text v
      /\ footnotes v' = new_footnotes !! (bn, ch, verse v)
      /\ ((forall key fns, new_footnotes !! key = Some fns -> fns <> []) ->
          footnotes v' <> Some []).
Proof.
  intros Hv merged. split; [|split].
  - intros i' j' k' Hnone. unfold merged. simpl.
    by rewrite verse_at_merge, Hnone.
  - intros key fns Hun. unfold merged, MySword.merge_footnotes_into_json.
    simpl. by rewrite merge_books_unused_key.
  - unfold merged. simpl. rewrite verse_at_merge, Hv. simpl.
    eexists. split; [reflexivity|].
    unfold MySword.merge_verse.
    destruct (new_footnotes !! (bn, ch, verse v)) as [fns|] eqn:EM; simpl.
    + split; [reflexivity|]. split; [reflexivity|]. split; [reflexivity|].
      intros Hne Heq. apply (Hne _ _ EM). congruence.
    + split; [reflexivity|]. split; [reflexivity|]. split; [reflexivity|].
      intros _ Heq. discriminate Heq.
Qed.

Lemma full_merge_replaces_witness :
  verse_at (books sample_document) 0 0 0
  = Some (lit "Genesis", 1,
          mkVerse 1 (lit "In the beginning") (Some [stale_note]))
  /\ exists v',
      verse_at (books (MySword.merge_footnotes_into_json
                         sample_document sample_mapping false)) 0 0 0
      = Some (lit "Genesis", 1, v')
      /\ footnotes v' = None.
Proof.
  assert (verse_at (books sample_document) 0 0 0
          = Some (lit "Genesis", 1,
                  mkVerse 1 (lit "In the beginning") (Some [stale_note])))
    as H by reflexivity.
  split; [exact H|].
  destruct (full_merge_replaces sample_document sample_mapping 0 0 0 _ _ _ H)
    as (_ & _ & v' & Hat & _ & _ & Hfn & _).
  exists v'. split; [exact Hat|].
  rewrite Hfn. vm_compute. reflexivity.
Defined.

(** C4.  Full merge is idempotent: merging the result of a full merge again
    with the same mapping returns the same document, the per-verse footnotes
    and the flat array with its ids included. *)
Theorem full_merge_idempotent (data : Document) (new_footnotes : Mapping) :
  MySword.merge_footnotes_into_json
    (MySword.merge_footnotes_into_json data new_footnotes false)
    new_footnotes false
  = MySword.merge_footnotes_into_json data new_footnotes false.
Proof.
  unfold MySword.merge_footnotes_into_json. simpl.
  assert (map (MySword.merge_book new_footnotes false)
            (map (MySword.merge_book new_footnotes false) (books data))
          = map (MySword.merge_book new_footnotes false) (books data)) as ->.
  { rewrite map_map. apply map_ext. intros b. apply merge_book_idem. }
  reflexivity.
Qed.

(** ** The extractors *)

Lemma fold_left_invariant {A B} (P : A -> Prop) (f : A -> B -> A) l a :
  P a -> (forall a x, P a -> P (f a x)) -> P (fold_left f l a).
Proof.
  intros Ha Hf. revert a Ha. induction l as [|x l IH]; simpl; auto.
Qed.

Lemma append_footnote_lookup (fs : Mapping) key fn key' :
  append_footnote fs key fn !! key'
  = if decide (key = key') then Some (default [] (fs !! key) ++ [fn])
    else fs !! key'.
Proof.
  unfold append_footnote.
  destruct (fs !! key) as [l|] eqn:E; simpl.
  - destruct (decide (key = key')) as [->|Hne].
    + by rewrite lookup_alter_eq, E.
    + by rewrite lookup_alter_ne.
  - destruct (decide (key = key')) as [->|Hne].
    + by rewrite lookup_alter_eq, lookup_insert_eq.
    + by rewrite lookup_alter_ne, lookup_insert_ne.
Qed.

Lemma append_footnote_nonempty fs key fn :
  nonempty_values fs -> nonempty_values (append_footnote fs key fn).
Proof.
  intros H key' fns. rewrite append_footnote_lookup.
  destruct (decide (key = key')).
  - intros [= <-]. by destruct (default [] (fs !! key)).
  - apply H.
Qed.

Lemma extract_part_fst key fs total tsf part :
  (MySword.extract_part key (fs, total, tsf) part).1.1 = fs
  \/ exists fn,
      (MySword.extract_part key (fs, total, tsf) part).1.1
      = append_footnote fs key fn.
Proof.
  unfold MySword.extract_part.
  destruct (re_match MySword.RF_note part); simpl; eauto.
Qed.

(** An invariant of the mapping that adding a footnote under the key of the
    current row preserves is preserved by the loop over the parts. *)
Lemma extract_parts_invariant (P : Mapping -> Prop) key parts st :
  (forall fs fn, P fs -> P (append_footnote fs key fn)) ->
  P st.1.1 ->
  P (fold_left (MySword.extract_part key) parts st).1.1.
Proof.
  intros Hadd Hst.
  apply (fold_left_invariant (fun st => P st.1.1)); [exact Hst|].
  intros [[fs total] tsf] part Hfs. simpl in Hfs.
  destruct (extract_part_fst key fs total tsf part) as [->|[fn ->]]; auto.
Qed.

Lemma extract_row_footnotes st r :
  MySword.ex_footnotes (MySword.extract_row st r)
  = match MySword.BOOK_NAMES !! MySword.book_num r with
    | None => MySword.ex_footnotes st
    | Some book_name =>
        (fold_left
           (MySword.extract_part
              (book_name, MySword.row_chapter r, MySword.row_verse r))
           (re_split MySword.RF_note (MySword.scripture r))
           (MySword.ex_footnotes st, MySword.total_notes st, [])).1.1
    end.
Proof.
  unfold MySword.extract_row.
  destruct (MySword.BOOK_NAMES !! MySword.book_num r) as [bn|]; [|done].
  by destruct (fold_left _ _ _) as [[fs total] tsf].
Qed.

Lemma mysword_invariant (P : Mapping -> Prop) cursor :
  P ∅ ->
  (forall fs bn ch v fn,
     known_book_name bn -> P fs -> P (append_footnote fs (bn, ch, v) fn)) ->
  P (MySword.extract_footnotes_from_mysword cursor).
Proof.
  intros H0 Hadd.
  unfold MySword.extract_footnotes_from_mysword, MySword.extract_loop.
  apply (fold_left_invariant (fun st => P (MySword.ex_footnotes st)));
    [exact H0|].
  intros st r Hst. rewrite extract_row_footnotes.
  destruct (MySword.BOOK_NAMES !! MySword.book_num r) as [bn|] eqn:E; [|done].
  apply extract_parts_invariant; [|done].
  intros fs fn. apply Hadd. by exists (MySword.book_num r).
Qed.

Lemma sword_invariant (P : Mapping -> Prop) all_books :
  P ∅ ->
  (forall fs b ch v fn,
     b ∈ all_books -> P fs ->
     P (append_footnote fs
          (default (Sword.sw_name b)
             (Sword.SWORD_TO_PROJECT_BOOK_NAMES !! Sword.sw_name b), ch, v)
          fn)) ->
  P (Sword.extract_footnotes all_books).
Proof.
  intros H0 Hadd. unfold Sword.extract_footnotes.
  assert (forall bs st, (forall b, b ∈ bs -> b ∈ all_books) -> P st.1 ->
            P (fold_left Sword.extract_book bs st).1) as Hgen.
  { induction bs as [|b bs IH]; intros st Hsub Hst; simpl; [done|].
    apply IH; [intros b' Hb'; apply Hsub; by right|].
    unfold Sword.extract_book.
    apply (fold_left_invariant (fun st => P st.1)); [done|].
    intros st1 [ch raws] Hst1. unfold Sword.extract_chapter.
    apply (fold_left_invariant (fun st => P st.1)); [done|].
    intros st2 [v raw] Hst2. unfold Sword.extract_verse.
    destruct raw as [|c raw]; [done|].
    destruct (negb _); [done|].
    apply (fold_left_invariant (fun st => P st.1)); [done|].
    intros st3 note Hst3. unfold Sword.extract_note. simpl.
    apply Hadd; [apply Hsub; by left|done]. }
  apply Hgen; [done|exact H0].
Qed.

Lemma verse_at_add fs bs i j k :
  verse_at (map (Sword.add_book fs) bs) i j k
  = (fun x : list ascii * Z * Verse =>
       (x.1.1, x.1.2, Sword.add_verse fs x.1.1 x.1.2 x.2))
    <$> verse_at bs i j k.
Proof.
  unfold verse_at. rewrite list_lookup_fmap.
  destruct (bs !! i) as [b|]; simpl; [|done].
  rewrite list_lookup_fmap.
  destruct (chapters b !! j) as [c|]; simpl; [|done].
  rewrite list_lookup_fmap.
  destruct (verses c !! k) as [v|]; simpl; done.
Qed.

(** C10.  Every list in the mapping either extractor returns has at least
    one footnote, since a key enters the mapping only together with a
    footnote appended under it.  With such a mapping neither merge assigns
    an empty list: a verse of the result that carries an empty list is a
    verse of the loaded document, carrying it already and left as it was. *)
Theorem extracted_lists_nonempty :
  (forall cursor,
     nonempty_values (MySword.extract_footnotes_from_mysword cursor))
  /\ (forall all_books, nonempty_values (Sword.extract_footnotes all_books))
  /\ (forall (data : Document) (fs : Mapping) (nt_only : bool) i j k bn ch v',
        nonempty_values fs ->
        verse_at (books (MySword.merge_footnotes_into_json data fs nt_only))
          i j k = Some (bn, ch, v') ->
        footnotes v' = Some [] ->
        verse_at (books data) i j k = Some (bn, ch, v'))
  /\ (forall (data : Document) (fs : Mapping) i j k bn ch v',
        nonempty_values fs ->
        verse_at (books (Sword.add_footnotes_to_json data fs)) i j k
        = Some (bn, ch, v') ->
        footnotes v' = Some [] ->
        verse_at (books data) i j k = Some (bn, ch, v')).
Proof.
  split; [|split; [|split]].
  - intros cursor. apply (mysword_invariant nonempty_values).
    + intros key fns Hl. by rewrite lookup_empty in Hl.
    + intros fs bn ch v fn _. apply append_footnote_nonempty.
  - intros all_books. apply (sword_invariant nonempty_values).
    + intros key fns Hl. by rewrite lookup_empty in Hl.
    + intros fs b ch v fn _. apply append_footnote_nonempty.
  - intros data fs nt_only i j k bn ch v' Hne. simpl.
    rewrite verse_at_merge.
    destruct (verse_at (books data) i j k) as [[[bn0 ch0] v]|]; simpl;
      [|discriminate].
    destruct (nt_only && negb (bool_decide (bn0 ∈ MySword.nt_book_names)));
      [intros [= <- <- <-]; reflexivity|].
    unfold MySword.merge_verse.
    destruct (fs !! (bn0, ch0, verse v)) as [fns|] eqn:E.
    + intros [= <- <- <-]. simpl. intros [= ->]. destruct (Hne _ _ E eq_refl).
    + destruct nt_only; simpl.
      * intros [= <- <- <-]. reflexivity.
      * intros [= <- <- <-]. simpl. discriminate.
  - intros data fs i j k bn ch v' Hne. simpl.
    rewrite verse_at_add.
    destruct (verse_at (books data) i j k) as [[[bn0 ch0] v]|]; simpl;
      [|discriminate].
    unfold Sword.add_verse.
    destruct (fs !! (bn0, ch0, verse v)) as [fns|] eqn:E.
    + intros [= <- <- <-]. simpl. intros [= ->]. destruct (Hne _ _ E eq_refl).
    + intros [= <- <- <-]. reflexivity.
Qed.

Lemma extract_row_core st1 st2 r :
  MySword.ex_footnotes st1 = MySword.ex_footnotes st2 ->
  MySword.total_notes st1 = MySword.total_notes st2 ->
  MySword.ex_footnotes (MySword.extract_row st1 r)
  = MySword.ex_footnotes (MySword.extract_row st2 r)
  /\ MySword.total_notes (MySword.extract_row st1 r)
     = MySword.total_notes (MySword.extract_row st2 r).
Proof.
  intros Hf Ht. unfold MySword.extract_row. rewrite Hf, Ht.
  destruct (MySword.BOOK_NAMES !! MySword.book_num r) as [bn|]; [|done].
  by destruct (fold_left _ _ _) as [[fs total] tsf].
Qed.

Lemma extract_rows_core rows st1 st2 :
  MySword.ex_footnotes st1 = MySword.ex_footnotes st2 ->
  MySword.total_notes st1 = MySword.total_notes st2 ->
  MySword.ex_footnotes (fold_left MySword.extract_row rows st1)
  = MySword.ex_footnotes (fold_left MySword.extract_row rows st2)
  /\ MySword.total_notes (fold_left MySword.extract_row rows st1)
     = MySword.total_notes (fold_left MySword.extract_row rows st2).
Proof.
  revert st1 st2. induction rows as [|r rows IH]; intros st1 st2 Hf Ht; simpl.
  - done.
  - destruct (extract_row_core st1 st2 r Hf Ht). by apply IH.
Qed.

Lemma extract_row_warnings st r :
  MySword.warnings (MySword.extract_row st r)
  = MySword.warnings st
    ++ (if known_row r then [] else [MySword.book_num r]).
Proof.
  unfold MySword.extract_row, known_row.
  destruct (MySword.BOOK_NAMES !! MySword.book_num r) as [bn|] eqn:E.
  - rewrite bool_decide_eq_true_2 by eauto.
    destruct (fold_left _ _ _) as [[fs total] tsf]. simpl.
    by rewrite app_nil_r.
  - rewrite bool_decide_eq_false_2; [done|]. by intros [x Hx].
Qed.

(** Unknown rows leave the mapping and the counter as they are and are
    reported, in order, in the warnings. *)
Lemma extract_rows_skip rows st :
  let known := List.filter known_row rows in
  let unknown := List.filter (fun r => negb (known_row r)) rows in
  MySword.ex_footnotes (fold_left MySword.extract_row rows st)
  = MySword.ex_footnotes (fold_left MySword.extract_row known st)
  /\ MySword.total_notes (fold_left MySword.extract_row rows st)
     = MySword.total_notes (fold_left MySword.extract_row known st)
  /\ MySword.warnings (fold_left MySword.extract_row rows st)
     = MySword.warnings st ++ map MySword.book_num unknown.
Proof.
  revert st. induction rows as [|r rows IH]; intros st; simpl.
  - by rewrite app_nil_r.
  - destruct (IH (MySword.extract_row st r)) as (Hf & Ht & Hw).
    rewrite Hf, Ht, Hw, extract_row_warnings.
    destruct (known_row r) eqn:E; simpl.
    + by rewrite app_nil_r.
    + rewrite <- app_assoc. simpl. split; [|split; [|done]].
      * apply extract_rows_core; unfold MySword.extract_row;
          unfold known_row in E; apply bool_decide_eq_false in E;
          destruct (MySword.BOOK_NAMES !! MySword.book_num r) as [bn|];
          try done; destruct E; eauto.
      * apply extract_rows_core; unfold MySword.extract_row;
          unfold known_row in E; apply bool_decide_eq_false in E;
          destruct (MySword.BOOK_NAMES !! MySword.book_num r) as [bn|];
          try done; destruct E; eauto.
Qed.

Lemma unknown_name_Enoch : ~ known_book_name (lit "Enoch").
Proof.
  intros [n Hn].
  assert (lit "Enoch" ∈ (map_to_list MySword.BOOK_NAMES).*2) as Hin.
  { apply list_elem_of_fmap. exists (n, lit "Enoch"). split; [done|].
    by apply elem_of_map_to_list. }
  assert (bool_decide (lit "Enoch" ∈ (map_to_list MySword.BOOK_NAMES).*2)
          = false) as Hf by (vm_compute; reflexivity).
  apply bool_decide_eq_false in Hf. exact (Hf Hin).
Qed.

(** C8, as the two extractors have it.  The MySword extractor skips a row
    whose book number its table does not know: the row adds its number to
    the warnings and nothing else, so the mapping and the counter are those
    of the extraction over the other rows, and every key of the mapping
    names a book of the table.  The SWORD extractor has no such test: a book
    name without an override is used as it is, so every key of its mapping
    carries the name of the book it was read from. *)
Theorem unknown_books_in_extraction :
  (forall cursor,
     (forall key,
        is_Some (MySword.extract_footnotes_from_mysword cursor !! key) ->
        known_book_name key.1.1)
     /\ MySword.extract_footnotes_from_mysword cursor
        = MySword.extract_footnotes_from_mysword (List.filter known_row cursor)
     /\ MySword.total_notes (MySword.extract_loop cursor)
        = MySword.total_notes
            (MySword.extract_loop (List.filter known_row cursor))
     /\ MySword.warnings (MySword.extract_loop cursor)
        = map MySword.book_num
            (List.filter (fun r => negb (known_row r)) cursor))
  /\ (forall all_books key,
        is_Some (Sword.extract_footnotes all_books !! key) ->
        exists b, b ∈ all_books /\ key.1.1 = Sword.sw_name b).
Proof.
  split.
  - intros cursor. split; [|split; [|split]].
    + apply (mysword_invariant
               (fun fs => forall key, is_Some (fs !! key) ->
                                      known_book_name key.1.1)).
      * intros key [x Hx]. by rewrite lookup_empty in Hx.
      * intros fs bn ch v fn Hbn Hfs key.
        rewrite append_footnote_lookup.
        destruct (decide ((bn, ch, v) = key)) as [<-|]; [intros _; exact Hbn|].
        apply Hfs.
    + unfold MySword.extract_footnotes_from_mysword, MySword.extract_loop.
      apply extract_rows_skip.
    + unfold MySword.extract_loop. apply extract_rows_skip.
    + unfold MySword.extract_loop.
      by destruct (extract_rows_skip cursor (MySword.mkExtractState ∅ 0 []))
        as (_ & _ & ->).
  - intros all_books.
    apply (sword_invariant
             (fun fs => forall key, is_Some (fs !! key) ->
                exists b, b ∈ all_books /\ key.1.1 = Sword.sw_name b)).
    + intros key [x Hx]. by rewrite lookup_empty in Hx.
    + intros fs b ch v fn Hb Hfs key.
      rewrite append_footnote_lookup.
      unfold Sword.SWORD_TO_PROJECT_BOOK_NAMES. rewrite lookup_empty. simpl.
      destruct (decide ((Sword.sw_name b, ch, v) = key)) as [<-|].
      * intros _. exists b. done.
      * apply Hfs.
Qed.

(** C8 as stated fails for the SWORD extractor: a book that no table of the
    project knows is not skipped, and its footnote is in the mapping. *)
Lemma sword_keeps_unknown_book :
  ~ known_book_name (lit "Enoch")
  /\ Sword.SWORD_TO_PROJECT_BOOK_NAMES !! lit "Enoch" = None
  /\ Sword.extract_footnotes sample_module !! (lit "Enoch", 1, 1)
     = Some [mkFootnote (lit "walked") (lit "Or, went") alternate].
Proof.
  split; [exact unknown_name_Enoch|]. split; [reflexivity|].
  vm_compute. reflexivity.
Qed.

Example mysword_skips_unknown_row :
  map_to_list (MySword.extract_footnotes_from_mysword sample_cursor)
  = [((lit "Matthew", 1, 1),
      [mkFootnote (lit "book") (lit "Or, roll") alternate])]
  /\ MySword.warnings (MySword.extract_loop sample_cursor) = [99].
Proof. split; vm_compute; reflexivity. Qed.

(** ** Strings *)

Lemma starts_with_spec p s :
  starts_with p s = true <-> exists rest, s = p ++ rest.
Proof.
  revert s. induction p as [|a p IH]; intros s; simpl.
  - split; eauto.
  - destruct s as [|b s].
    + split; [discriminate|]. intros [rest H]. discriminate H.
    + rewrite andb_true_iff, Ascii.eqb_eq, IH. split.
      * intros [-> [rest ->]]. eauto.
      * intros [rest [= -> ->]]. eauto.
Qed.

Lemma starts_with_app p rest : starts_with p (p ++ rest) = true.
Proof. apply starts_with_spec. eauto. Qed.

Lemma contains_spec m s : contains m s = true <-> occurs m s.
Proof.
  unfold occurs. induction s as [|c s IH]; simpl.
  - rewrite orb_false_r, starts_with_spec. split.
    + intros [rest H]. exists [], rest. done.
    + intros (pre & post & H). destruct pre; simpl in H.
      * eauto.
      * discriminate H.
  - rewrite orb_true_iff, starts_with_spec, IH. split.
    + intros [[rest ->]|(pre & post & ->)].
      * exists [], rest. done.
      * exists (c :: pre), post. done.
    + intros (pre & post & H). destruct pre as [|c' pre]; simpl in H.
      * left. eauto.
      * right. injection H as -> ->. eauto.
Qed.

Lemma occurs_lower m t :
  occurs m (py_lower t)
  <-> exists pre u post, t = pre ++ u ++ post /\ py_lower u = m.
Proof.
  unfold occurs, py_lower. split.
  - intros (pre & post & H).
    apply fmap_app_inv in H as (pre' & rest & -> & Hr & ->).
    symmetry in Hr. apply fmap_app_inv in Hr as (u & post' & -> & -> & ->).
    eauto 10.
  - intros (pre & u & post & -> & <-).
    exists (map lower_char pre), (map lower_char post).
    by rewrite !map_app.
Qed.

Lemma marker_found ms t :
  Forall (fun m => py_lower m = m) ms ->
  existsb (fun marker => contains marker (py_lower t)) ms = true
  <-> exists m, m ∈ ms /\ occurs_ignoring_case m t.
Proof.
  intros Hlow. rewrite existsb_exists. split.
  - intros (m & Hin & Hc). apply list_elem_of_In in Hin.
    exists m. split; [done|].
    apply contains_spec, occurs_lower in Hc as (pre & u & post & -> & Hu).
    exists pre, u, post. split; [done|].
    rewrite Forall_forall in Hlow. by rewrite (Hlow m Hin).
  - intros (m & Hin & pre & u & post & -> & Hu).
    exists m. split; [by apply list_elem_of_In|].
    apply contains_spec, occurs_lower. exists pre, u, post. split; [done|].
    rewrite Forall_forall in Hlow. by rewrite Hu, (Hlow m Hin).
Qed.

Lemma markers_lowercase :
  Forall (fun m => py_lower m = m) MySword.literal_markers
  /\ Forall (fun m => py_lower m = m) MySword.alternate_markers.
Proof. split; repeat constructor. Qed.

(** C6.  The Note Classifier matches the two marker sets as substrings of
    the note text, ignoring case, and returns [mixed] when a marker of each
    set occurs, [literal] when only a literal marker occurs, and [alternate]
    in every other case, the one where no marker occurs included; these are
    the only three results.  The four sample texts are classified as the
    specification lists them. *)
Theorem classify_note_type_spec (t : list ascii) :
  (MySword.classify_note_type t = mixed
   <-> literal_marker_in t /\ alternate_marker_in t)
  /\ (MySword.classify_note_type t = literal
      <-> literal_marker_in t /\ ~ alternate_marker_in t)
  /\ (MySword.classify_note_type t = alternate <-> ~ literal_marker_in t)
  /\ MySword.literal_markers
     = [lit "heb."; lit "gr."; lit "chald."; lit "greek";
        lit "the word in the original"; lit "that is,"]
  /\ MySword.alternate_markers
     = [lit "or,"; lit "or "; lit "some read,"; lit "some copies read"]
  /\ MySword.classify_note_type (lit "Heb. the heart") = literal
  /\ MySword.classify_note_type (lit "Or, some read it otherwise") = alternate
  /\ MySword.classify_note_type (lit "Heb. lit. Or, see margin") = mixed
  /\ MySword.classify_note_type (lit "nothing special here") = alternate.
Proof.
  destruct markers_lowercase as [HL HA].
  pose proof (marker_found MySword.literal_markers t HL) as ML.
  pose proof (marker_found MySword.alternate_markers t HA) as MA.
  fold (literal_marker_in t) in ML. fold (alternate_marker_in t) in MA.
  assert (forall b (P : Prop), (b = true <-> P) ->
            (b = true /\ P) \/ (b = false /\ ~ P)) as Hcase.
  { intros [] P [H1 H2]; [left|right]; split; auto.
    intros HP. apply H2 in HP. discriminate HP. }
  split; [|split; [|split]].
  4: { repeat split; vm_compute; reflexivity. }
  all: unfold MySword.classify_note_type.
  all: destruct (Hcase _ _ ML) as [[-> L]|[-> L]];
       destruct (Hcase _ _ MA) as [[-> A]|[-> A]]; simpl.
  all: split; try discriminate; try tauto.
Qed.

(** ** Scanning for matches *)

Lemma re_scan_hit m skip s h :
  Hit h ∈ re_scan m skip s ->
  exists pre t k, s = pre ++ t /\ m t = Some (S k) /\ h = take (S k) t.
Proof.
  revert skip. induction s as [|c s IH]; intros skip Hin; simpl in Hin.
  - by apply elem_of_nil in Hin.
  - destruct skip as [|skip].
    + destruct (m (c :: s)) as [[|k]|] eqn:E.
      * apply elem_of_cons in Hin as [Hin|Hin]; [discriminate|].
        destruct (IH _ Hin) as (pre & t & k & -> & Ht & ->).
        exists (c :: pre), t, k. done.
      * apply elem_of_cons in Hin as [Hin|Hin].
        -- injection Hin as ->. exists [], (c :: s), k. done.
        -- destruct (IH _ Hin) as (pre & t & k' & -> & Ht & ->).
           exists (c :: pre), t, k'. done.
      * apply elem_of_cons in Hin as [Hin|Hin]; [discriminate|].
        destruct (IH _ Hin) as (pre & t & k & -> & Ht & ->).
        exists (c :: pre), t, k. done.
    + destruct (IH _ Hin) as (pre & t & k & -> & Ht & ->).
      exists (c :: pre), t, k. done.
Qed.

Lemma re_scan_finds m pre t k :
  t <> [] -> m t = Some (S k) -> exists h, Hit h ∈ re_scan m O (pre ++ t).
Proof.
  intros Hne Ht. induction pre as [|c pre IH]; simpl.
  - destruct t as [|c t]; [done|]. simpl. rewrite Ht. eexists. left.
  - destruct (m (c :: pre ++ t)) as [[|k']|]; simpl.
    + destruct IH as [h Hh]. exists h. by right.
    + eexists. left.
    + destruct IH as [h Hh]. exists h. by right.
Qed.

Lemma re_findall_elem m s h :
  h ∈ re_findall m s <-> Hit h ∈ re_scan m O s.
Proof.
  unfold re_findall. rewrite list_elem_of_omap. split.
  - intros ([c|h'] & Hin & Heq); [discriminate|]. by injection Heq as ->.
  - intros Hin. exists (Hit h). done.
Qed.

Lemma re_findall_nonempty m s :
  re_findall m s <> [] <-> exists h, Hit h ∈ re_scan m O s.
Proof.
  split.
  - destruct (re_findall m s) as [|h l] eqn:E; [done|]. intros _.
    exists h. apply re_findall_elem. rewrite E. left.
  - intros [h Hh] E. apply re_findall_elem in Hh. rewrite E in Hh.
    by apply elem_of_nil in Hh.
Qed.

(** *** Matching up to a closing literal *)

Lemma m_lazy_until_sound q s n :
  m_lazy_until q s = Some n ->
  exists body rest,
    s = body ++ q ++ rest /\ n = (length body + length q)%nat
    /\ Forall (fun c => is_dot c = true) body.
Proof.
  revert n. induction s as [|c s IH]; intros n; simpl.
  - destruct (starts_with q []) eqn:E; [|discriminate].
    intros [= <-]. apply starts_with_spec in E as [rest E].
    exists [], rest. done.
  - destruct (starts_with q (c :: s)) eqn:E.
    + intros [= <-]. apply starts_with_spec in E as [rest E].
      exists [], rest. done.
    + destruct (is_dot c) eqn:Ec; [|discriminate].
      destruct (m_lazy_until q s) as [k|]; [|discriminate].
      intros [= <-]. destruct (IH k eq_refl) as (body & rest & -> & -> & Hb).
      exists (c :: body), rest. split; [done|]. split; [done|].
      by constructor.
Qed.

Lemma m_lazy_until_complete q body rest :
  Forall (fun c => is_dot c = true) body ->
  is_Some (m_lazy_until q (body ++ q ++ rest)).
Proof.
  induction 1 as [|c body Hc Hb IH]; simpl.
  - destruct (q ++ rest) as [|c s] eqn:E; simpl.
    + destruct q; [simpl; eauto|discriminate E].
    + rewrite <- E, starts_with_app. eauto.
  - destruct (starts_with q (c :: body ++ q ++ rest)); [eauto|].
    rewrite Hc. destruct IH as [k ->]. simpl. eauto.
Qed.

Lemma m_open_until_spec p q t :
  p <> [] ->
  (exists k, m_seq (m_lit p) (m_lazy_until q) t = Some (S k))
  <-> exists body rest,
        t = p ++ body ++ q ++ rest /\ Forall (fun c => is_dot c = true) body.
Proof.
  intros Hp. unfold m_seq, m_lit. split.
  - intros [k Hk]. destruct (starts_with p t) eqn:E; [|discriminate].
    apply starts_with_spec in E as [r ->].
    rewrite drop_app_length in Hk.
    destruct (m_lazy_until q r) as [n|] eqn:En; [|discriminate].
    apply m_lazy_until_sound in En as (body & rest & -> & _ & Hb). eauto.
  - intros (body & rest & -> & Hb).
    rewrite starts_with_app, drop_app_length.
    destruct (m_lazy_until_complete q body rest Hb) as [n ->].
    destruct p as [|a p]; [done|]. simpl. eauto.
Qed.

Lemma rdg_open_nonempty ty : Sword.rdg_open ty <> [].
Proof. unfold Sword.rdg_open. simpl. discriminate. Qed.

(** [re.findall] of a reading pattern is non-empty exactly when the note
    holds a reading element of that type. *)
Lemma rdg_findall_spec ty note_xml :
  re_findall (Sword.rdg_elem ty) note_xml <> [] <-> has_rdg_element ty note_xml.
Proof.
  rewrite re_findall_nonempty. unfold has_rdg_element, Sword.rdg_elem. split.
  - intros [h Hh].
    apply re_scan_hit in Hh as (pre & t & k & -> & Ht & _).
    assert (exists k, m_seq (m_lit (Sword.rdg_open ty))
                        (m_lazy_until (lit "</rdg>")) t = Some (S k)) as Hm
      by eauto.
    apply m_open_until_spec in Hm as (body & rest & -> & Hb);
      [|apply rdg_open_nonempty].
    exists pre, body, rest. done.
  - intros (pre & body & post & -> & Hb).
    assert (exists k, m_seq (m_lit (Sword.rdg_open ty))
                        (m_lazy_until (lit "</rdg>"))
                        (Sword.rdg_open ty ++ body ++ lit "</rdg>" ++ post)
                      = Some (S k)) as [k Hk].
    { apply m_open_until_spec; [apply rdg_open_nonempty|]. eauto. }
    apply (re_scan_finds _ pre _ k); [|exact Hk].
    intros E. apply app_eq_nil in E as [E _].
    by apply rdg_open_nonempty in E.
Qed.

(** *** The shape of a match *)

Lemma m_seq_inv m1 m2 t n :
  m_seq m1 m2 t = Some n ->
  exists n1 n2, m1 t = Some n1 /\ m2 (drop n1 t) = Some n2 /\ n = (n1 + n2)%nat.
Proof.
  unfold m_seq. destruct (m1 t) as [n1|] eqn:E1; [|discriminate].
  destruct (m2 (drop n1 t)) as [n2|] eqn:E2; [|discriminate].
  intros [= <-]. exists n1, n2. done.
Qed.

Lemma m_lit_inv p t n :
  m_lit p t = Some n -> n = length p /\ exists r, t = p ++ r.
Proof.
  unfold m_lit. destruct (starts_with p t) eqn:E; [|discriminate].
  intros [= <-]. split; [done|]. by apply starts_with_spec.
Qed.

Lemma count_while_split p s :
  exists a r, s = a ++ r /\ length a = count_while p s
              /\ Forall (fun c => p c = true) a.
Proof.
  induction s as [|c s (a & r & Hs & Hl & Ha)]; simpl.
  - exists [], []. done.
  - destruct (p c) eqn:E.
    + exists (c :: a), r. rewrite Hs at 1. simpl. rewrite Hl.
      split; [done|]. split; [done|]. by constructor.
    + exists [], (c :: s). done.
Qed.

Lemma m_many_zero p s : m_many p 0 s = Some (count_while p s).
Proof. reflexivity. Qed.

(** A match of [<nm[^>]*>]: the name, characters other than [>], and [>]. *)
Lemma open_tag_inv nm t n :
  Sword.open_tag nm t = Some n ->
  exists a r,
    t = lit nm ++ a ++ [">"%char] ++ r
    /\ n = length (lit nm ++ a ++ [">"%char])
    /\ Forall (fun c => negb (is_char ">" c) = true) a.
Proof.
  unfold Sword.open_tag. intros H.
  apply m_seq_inv in H as (n1 & n2 & H1 & H2 & ->).
  apply m_lit_inv in H1 as [-> [r ->]].
  rewrite drop_app_length in H2.
  apply m_seq_inv in H2 as (n3 & n4 & H3 & H4 & ->).
  rewrite m_many_zero in H3. apply (inj Some) in H3. subst n3.
  destruct (count_while_split (fun c => negb (is_char ">" c)) r)
    as (a & r' & Hr & Hl & Ha).
  rewrite <- Hl, Hr, drop_app_length in H4.
  apply m_lit_inv in H4 as [-> [r2 Hr2]]. simpl in Hr2.
  exists a, r2. split; [|split; [|done]].
  - rewrite Hr, Hr2. done.
  - rewrite !length_app, Hl. simpl. done.
Qed.

Lemma note_elem_inv t n :
  Sword.note_elem t = Some n ->
  exists a b,
    take n t = lit "<note" ++ a ++ [">"%char] ++ b ++ lit "</note>"
    /\ Forall (fun c => negb (is_char ">" c) = true) a
    /\ Forall (fun c => is_dot c = true) b.
Proof.
  unfold Sword.note_elem. intros H.
  apply m_seq_inv in H as (n1 & n2 & H1 & H2 & ->).
  apply open_tag_inv in H1 as (a & r & -> & -> & Ha).
  replace (lit "<note" ++ a ++ [">"%char] ++ r)
    with ((lit "<note" ++ a ++ [">"%char]) ++ r) in *
    by (by rewrite <- !app_assoc).
  rewrite drop_app_length in H2.
  apply m_lazy_until_sound in H2 as (b & rest & -> & -> & Hb).
  exists a, b. split; [|done].
  replace ((lit "<note" ++ a ++ [">"%char]) ++ b ++ lit "</note>" ++ rest)
    with ((lit "<note" ++ a ++ [">"%char] ++ b ++ lit "</note>") ++ rest)
    by (by rewrite <- !app_assoc).
  apply take_app_length'. rewrite !length_app. simpl. lia.
Qed.

(** What follows the first occurrence of a character ends what follows any
    occurrence of it. *)
Lemma after_first_occurrence (g : ascii) x r y r' :
  g ∉ x -> x ++ g :: r = y ++ g :: r' -> exists k, r = k ++ r'.
Proof.
  revert y. induction x as [|c x IH]; intros y Hg H; simpl in H.
  - destruct y as [|d y]; simpl in H.
    + injection H as ->. by exists [].
    + injection H as <- ->. by exists (y ++ [g]); rewrite <- app_assoc.
  - destruct y as [|d y]; simpl in H.
    + injection H as -> _. exfalso. apply Hg. left.
    + injection H as <- H. apply (IH y); [|done].
      intros Hin. apply Hg. by right.
Qed.

Lemma rdg_open_split ty :
  Sword.rdg_open ty
  = (lit "<rdg type=" ++ [Sword.dquote] ++ lit ty ++ [Sword.dquote])
    ++ [">"%char].
Proof. unfold Sword.rdg_open. by rewrite <- !app_assoc. Qed.

(** In a note the extractor found, the content of a reading cannot hold a
    line feed: it lies after the first [>] of the note, where the note
    pattern allows none. *)
Lemma note_rdg_markup_is_element raw note_xml ty :
  note_xml ∈ re_findall Sword.note_elem raw ->
  has_rdg_markup ty note_xml -> has_rdg_element ty note_xml.
Proof.
  intros Hin (pre & body & post & Hx).
  apply re_findall_elem, re_scan_hit in Hin as (p0 & t & k & _ & Ht & Hn).
  apply note_elem_inv in Ht as (a & b & Hsh & Ha & Hb).
  rewrite <- Hn in Hsh. clear Hn.
  exists pre, body, post. split; [exact Hx|].
  rewrite Hx, rdg_open_split in Hsh.
  assert ((pre ++ lit "<rdg type=" ++ [Sword.dquote] ++ lit ty
             ++ [Sword.dquote])
          ++ ">"%char :: (body ++ lit "</rdg>" ++ post)
          = (lit "<note" ++ a) ++ ">"%char :: (b ++ lit "</note>")) as E.
  { rewrite <- !app_assoc in Hsh. rewrite <- !app_assoc. exact Hsh. }
  symmetry in E. apply after_first_occurrence in E as [k' Hk].
  - assert (Forall (fun c => is_dot c = true) (b ++ lit "</note>")) as Hall.
    { apply Forall_app. split; [exact Hb|]. repeat constructor. }
    rewrite Hk in Hall. apply Forall_app in Hall as [_ Hall].
    by apply Forall_app in Hall as [Hall _].
  - intros Hg. apply elem_of_app in Hg as [Hg|Hg].
    + assert (bool_decide (">"%char ∈ lit "<note") = false) as Hf
        by (vm_compute; reflexivity).
      apply bool_decide_eq_false in Hf. exact (Hf Hg).
    + rewrite Forall_forall in Ha. specialize (Ha _ Hg).
      unfold is_char in Ha. by rewrite Ascii.eqb_refl in Ha.
Qed.

(** C7.  In the SWORD extractor the type of a note follows from its reading
    elements alone: [mixed] when it holds a reading of type x-literal and a
    reading of type alternate, [literal] when it holds x-literal readings
    only, [alternate] in every other case, the note without readings
    included.  A reading element is its opening tag, a content and the
    closing tag; in the notes the extractor cuts out of a verse the content
    cannot span lines, so there every such piece of markup counts.  The
    words of the note play no part: the sample note is [alternate] although
    its text starts with a literal marker of the other dialect. *)
Theorem parse_note_type_by_rdg (note_xml : list ascii) :
  (note_type (Sword.parse_note_text note_xml) = mixed
   <-> has_rdg_element "x-literal" note_xml
       /\ has_rdg_element "alternate" note_xml)
  /\ (note_type (Sword.parse_note_text note_xml) = literal
      <-> has_rdg_element "x-literal" note_xml
          /\ ~ has_rdg_element "alternate" note_xml)
  /\ (note_type (Sword.parse_note_text note_xml) = alternate
      <-> ~ has_rdg_element "x-literal" note_xml)
  /\ (forall raw ty,
        note_xml ∈ re_findall Sword.note_elem raw ->
        (has_rdg_markup ty note_xml <-> has_rdg_element ty note_xml))
  /\ note_type (Sword.parse_note_text sample_rdg_note) = alternate
  /\ MySword.classify_note_type
       (note_text (Sword.parse_note_text sample_rdg_note)) = literal.
Proof.
  assert (forall (l : list (list ascii)) (P : Prop), (l <> [] <-> P) ->
            (l = [] /\ ~ P) \/ (exists h r, l = h :: r /\ P)) as Hcase.
  { intros [|h r] P [H1 H2]; [left|right].
    - split; [done|]. intros HP. by apply H2.
    - exists h, r. split; [done|]. by apply H1. }
  split; [|split; [|split; [|split]]].
  5: { split; vm_compute; reflexivity. }
  4: { intros raw ty Hin. split.
       - by apply (note_rdg_markup_is_element raw).
       - intros (pre & body & post & H & _). exists pre, body, post. done. }
  all: unfold Sword.parse_note_text; cbn [note_type].
  all: destruct (Hcase _ _ (rdg_findall_spec "x-literal" note_xml))
         as [[-> L]|(h1 & r1 & -> & L)];
       destruct (Hcase _ _ (rdg_findall_spec "alternate" note_xml))
         as [[EA A]|(h2 & r2 & EA & A)]; try rewrite EA.
  all: split; try discriminate; try tauto.
Qed.

(** ** Whitespace *)

Lemma lstrip_by_drop p s : drop (count_while p s) s = lstrip_by p s.
Proof.
  induction s as [|c s IH]; simpl; [done|]. by destruct (p c).
Qed.

Lemma re_scan_skip m k s : re_scan m k s = re_scan m O (drop k s).
Proof.
  revert k. induction s as [|c s IH]; intros [|k]; simpl; done.
Qed.

Lemma re_sub_spaces_space r c s :
  is_space c = true ->
  re_sub MySword.spaces r (c :: s)
  = r ++ re_sub MySword.spaces r (lstrip_by is_space s).
Proof.
  intros Hc. unfold re_sub, MySword.spaces, m_many.
  cbn [re_scan count_while]. rewrite Hc. cbn [Nat.leb flat_map].
  by rewrite re_scan_skip, lstrip_by_drop.
Qed.

Lemma re_sub_spaces_other r c s :
  is_space c = false ->
  re_sub MySword.spaces r (c :: s) = c :: re_sub MySword.spaces r s.
Proof.
  intros Hc. unfold re_sub, MySword.spaces, m_many.
  cbn [re_scan count_while]. rewrite Hc. cbn [Nat.leb flat_map]. done.
Qed.

Lemma rstrip_by_keep p c s :
  p c = false -> rstrip_by p (c :: s) = c :: rstrip_by p s.
Proof. intros Hc. simpl. rewrite Hc. by destruct (rstrip_by p s). Qed.

Lemma rstrip_by_drop p c s :
  p c = true ->
  rstrip_by p (c :: s)
  = match rstrip_by p s with [] => [] | r => c :: r end.
Proof. intros Hc. simpl. by rewrite Hc. Qed.

Lemma lstrip_by_head p s :
  match lstrip_by p s with [] => True | c :: _ => p c = false end.
Proof.
  induction s as [|c s IH]; simpl; [done|].
  destruct (p c) eqn:E; [done|]. simpl. done.
Qed.

Lemma split_ws_words cur s :
  Forall (fun c => is_space c = false) cur ->
  Forall is_word (split_ws cur s).
Proof.
  revert cur. induction s as [|c s IH]; intros cur Hcur; simpl.
  - destruct cur as [|d cur]; [constructor|].
    constructor; [|constructor]. split; [done|exact Hcur].
  - destruct (is_space c) eqn:E.
    + destruct cur as [|d cur]; [apply IH; constructor|].
      constructor; [split; [done|exact Hcur]|]. apply IH. constructor.
    + apply IH. apply Forall_app. split; [exact Hcur|]. by repeat constructor.
Qed.

Lemma py_split_words s : Forall is_word (py_split s).
Proof. apply split_ws_words. constructor. Qed.

Lemma join_words_nil ws : Forall is_word ws -> join_words ws = [] -> ws = [].
Proof.
  destruct 1 as [|w ws [Hw _] Hws]; [done|]. simpl.
  destruct ws; [done|]. destruct w; [done|]. discriminate.
Qed.

(** The two facts behind [collapse_spaces]: [cur] is the word being read. *)
Lemma collapse_words_aux s :
  (forall cur,
     cur <> [] ->
     cur ++ rstrip_by is_space (re_sub MySword.spaces (lit " ") s)
     = join_words (split_ws cur s))
  /\ rstrip_by is_space
       (re_sub MySword.spaces (lit " ") (lstrip_by is_space s))
     = join_words (split_ws [] s).
Proof.
  induction s as [|c s [IH1 IH2]].
  - split; [|done]. intros cur Hcur. simpl.
    destruct cur; [done|]. by rewrite app_nil_r.
  - destruct (is_space c) eqn:E.
    + split.
      * intros cur Hcur. rewrite re_sub_spaces_space by done.
        cbn [split_ws]. rewrite E. destruct cur as [|d cur]; [done|].
        change (lit " " ++ ?x) with (" "%char :: x).
        rewrite rstrip_by_drop by reflexivity. rewrite IH2.
        pose proof (py_split_words s) as Hw. unfold py_split in Hw.
        destruct (split_ws [] s) as [|w ws] eqn:Es.
        -- simpl. by rewrite app_nil_r.
        -- change (join_words ((d :: cur) :: w :: ws))
             with ((d :: cur) ++ " "%char :: join_words (w :: ws)).
           destruct (join_words (w :: ws)) eqn:Ej; [|done].
           by apply join_words_nil in Ej.
      * cbn [lstrip_by split_ws]. rewrite E. exact IH2.
    + split.
      * intros cur Hcur. rewrite re_sub_spaces_other by done.
        rewrite rstrip_by_keep by done.
        cbn [split_ws]. rewrite E.
        rewrite <- (IH1 (cur ++ [c])); [by rewrite <- app_assoc|].
        by destruct cur.
      * cbn [lstrip_by split_ws]. rewrite E.
        rewrite re_sub_spaces_other by done.
        rewrite rstrip_by_keep by done.
        change ([] ++ [c]) with [c]. by rewrite <- (IH1 [c]).
Qed.

Lemma lstrip_re_sub_spaces s :
  lstrip_by is_space (re_sub MySword.spaces (lit " ") s)
  = re_sub MySword.spaces (lit " ") (lstrip_by is_space s).
Proof.
  assert (forall t, match t with [] => True | c :: _ => is_space c = false end ->
            lstrip_by is_space (re_sub MySword.spaces (lit " ") t)
            = re_sub MySword.spaces (lit " ") t) as Hid.
  { intros [|c t] Hc; [done|]. rewrite re_sub_spaces_other by done.
    simpl. by rewrite Hc. }
  induction s as [|c s IH]; [done|].
  destruct (is_space c) eqn:E.
  - rewrite re_sub_spaces_space by done. cbn [lstrip_by]. rewrite E.
    change (lit " " ++ ?x) with (" "%char :: x).
    cbn [lstrip_by]. replace (is_space " ") with true by reflexivity.
    apply Hid, lstrip_by_head.
  - cbn [lstrip_by]. rewrite E. apply Hid. exact E.
Qed.

(** Collapsing the whitespace and stripping leaves the words of the text,
    joined by single spaces. *)
Lemma collapse_spaces_words s :
  collapse_spaces s = join_words (py_split s).
Proof.
  unfold collapse_spaces, py_strip. rewrite lstrip_re_sub_spaces.
  apply collapse_words_aux.
Qed.

(** ** Removing tags *)

Lemma re_scan_miss m c s :
  m (c :: s) = None -> re_scan m O (c :: s) = Chr c :: re_scan m O s.
Proof. intros H. simpl. by rewrite H. Qed.

(** Characters at which the pattern cannot start pass through the scan. *)
Lemma re_scan_pass m a y :
  (forall c, c ∈ a -> forall t, m (c :: t) = None) ->
  re_scan m O (a ++ y) = map Chr a ++ re_scan m O y.
Proof.
  induction a as [|c a IH]; intros H; [done|].
  simpl app. rewrite re_scan_miss by (apply H; left).
  simpl. f_equal. apply IH. intros d Hd. apply H. by right.
Qed.

Lemma re_scan_take m x y k :
  length x = S k -> m (x ++ y) = Some (S k) ->
  re_scan m O (x ++ y) = Hit x :: re_scan m O y.
Proof.
  intros Hl Hm. destruct x as [|c x]; [discriminate|].
  simpl in Hl. injection Hl as Hl.
  change ((c :: x) ++ y) with (c :: (x ++ y)) in *.
  cbn [re_scan]. rewrite Hm. f_equal.
  - f_equal. cbn [take]. f_equal. by apply take_app_length'.
  - rewrite re_scan_skip. f_equal. by apply drop_app_length'.
Qed.

Lemma re_sub_chars repl a :
  flat_map (fun t => match t with Chr c => [c] | Hit _ => repl end)
    (map Chr a) = a.
Proof. induction a as [|c a IH]; simpl; [done|]. by rewrite IH. Qed.

Lemma re_sub_pass m repl a y :
  (forall c, c ∈ a -> forall t, m (c :: t) = None) ->
  re_sub m repl (a ++ y) = a ++ re_sub m repl y.
Proof.
  intros H. unfold re_sub. rewrite re_scan_pass by done.
  by rewrite flat_map_app, re_sub_chars.
Qed.

Lemma re_sub_take m repl x y k :
  length x = S k -> m (x ++ y) = Some (S k) ->
  re_sub m repl (x ++ y) = repl ++ re_sub m repl y.
Proof.
  intros Hl Hm. unfold re_sub. by rewrite (re_scan_take m x y k).
Qed.

Lemma re_sub_none m repl s :
  (forall c, c ∈ s -> forall t, m (c :: t) = None) -> re_sub m repl s = s.
Proof.
  intros H. rewrite <- (app_nil_r s) at 1.
  rewrite re_sub_pass by done. by rewrite app_nil_r.
Qed.

(** A tag pattern removes from well-formed markup the tags it takes and
    nothing else. *)
Lemma re_sub_tags m sel ps :
  tag_pattern m sel -> Forall well_formed ps ->
  re_sub m [] (render ps) = render (List.filter (kept sel) ps).
Proof.
  intros [Hstart Htag]. induction 1 as [|p ps Hp Hps IH]; [done|].
  unfold render in *. cbn [flat_map List.filter].
  destruct p as [a|n]; cbn [render_piece kept].
  - destruct Hp as [Hlt _]. rewrite re_sub_pass.
    + cbn [flat_map render_piece]. by rewrite IH.
    + intros c Hc t. apply Hstart. intros ->. by apply Hlt.
  - pose proof (Htag n (flat_map render_piece ps) Hp) as Hm.
    destruct Hp as (Hne & Hlt & Hgt).
    change (("<"%char :: n ++ [">"%char]) ++ flat_map render_piece ps)
      with ("<"%char :: (n ++ [">"%char]) ++ flat_map render_piece ps).
    rewrite <- (app_assoc n [">"%char]). cbn [app].
    destruct (sel n); cbn [negb].
    + change ("<"%char :: n ++ ">"%char :: flat_map render_piece ps)
        with (("<"%char :: n) ++ ">"%char :: flat_map render_piece ps) in *.
      replace (("<"%char :: n) ++ ">"%char :: flat_map render_piece ps)
        with (("<"%char :: n ++ [">"%char]) ++ flat_map render_piece ps) in *
        by (cbn [app]; by rewrite <- app_assoc).
      rewrite (re_sub_take m [] _ _ (S (length n))).
      * exact IH.
      * cbn [length]. rewrite length_app. cbn [length]. lia.
      * exact Hm.
    + unfold re_sub. rewrite re_scan_miss by exact Hm.
      rewrite re_scan_pass.
      * rewrite re_scan_miss by (apply Hstart; discriminate).
        cbn [flat_map app]. rewrite flat_map_app, re_sub_chars.
        cbn [flat_map app render_piece]. fold (re_sub m [] (flat_map render_piece ps)).
        rewrite IH. by rewrite <- app_assoc.
      * intros c Hc t. apply Hstart. intros ->. by apply Hlt.
Qed.

#[local] Arguments Ascii.eqb : simpl never.

Lemma eqb_not_elem (g a : ascii) (n : list ascii) :
  g ∉ n -> a ∈ n -> Ascii.eqb g a = false.
Proof.
  intros Hg Ha. apply Ascii.eqb_neq. intros ->. by apply Hg.
Qed.

Lemma count_while_stop p n c rest :
  Forall (fun a => p a = true) n -> p c = false ->
  count_while p (n ++ c :: rest) = length n.
Proof.
  intros Hn Hc. induction Hn as [|a n Ha Hn IH]; simpl.
  - by rewrite Hc.
  - by rewrite Ha, IH.
Qed.

Lemma m_lit_other p c d t : c <> d -> m_lit (c :: p) (d :: t) = None.
Proof.
  intros Hne. unfold m_lit. simpl.
  by rewrite (proj2 (Ascii.eqb_neq c d) Hne).
Qed.

Lemma m_seq_none m1 m2 t : m1 t = None -> m_seq m1 m2 t = None.
Proof. intros H. unfold m_seq. by rewrite H. Qed.

(** [</?x>] takes the tags named [x] and [/x]. *)
Lemma html_tag_pattern (x : ascii) :
  x <> "/"%char -> x <> ">"%char ->
  tag_pattern (MySword.html_tag (String x (String ">" EmptyString)))
    (named x).
Proof.
  intros Hx Hx'. split.
  - intros c t Hc. apply m_seq_none, m_lit_other. congruence.
  - intros n rest (Hne & Hlt & Hgt).
    assert (Ascii.eqb x "/" = false) as Ex by by apply Ascii.eqb_neq.
    assert (Ascii.eqb x ">" = false) as Ex' by by apply Ascii.eqb_neq.
    unfold MySword.html_tag, m_seq, m_lit, m_opt, named.
    destruct n as [|a [|b [|c n]]]; [done| | |].
    + assert (Ascii.eqb ">" a = false) as Ea
        by (apply (eqb_not_elem _ _ _ Hgt); left).
      simpl. rewrite ?Ascii.eqb_refl. simpl.
      destruct (Ascii.eqb "/" a) eqn:E; simpl.
      * apply Ascii.eqb_eq in E as <-. by rewrite Ex, Ex'.
      * rewrite ?Ascii.eqb_refl. by destruct (Ascii.eqb x a).
    + assert (Ascii.eqb ">" b = false) as Eb
        by (apply (eqb_not_elem _ _ _ Hgt); right; left).
      simpl. rewrite ?Ascii.eqb_refl. simpl.
      destruct (Ascii.eqb "/" a) eqn:E; simpl.
      * rewrite ?Ascii.eqb_refl. by destruct (Ascii.eqb x b).
      * rewrite Eb. by destruct (Ascii.eqb x a).
    + assert (Ascii.eqb ">" b = false) as Eb
        by (apply (eqb_not_elem _ _ _ Hgt); right; left).
      assert (Ascii.eqb ">" c = false) as Ec
        by (apply (eqb_not_elem _ _ _ Hgt); right; right; left).
      simpl. rewrite ?Ascii.eqb_refl. simpl.
      destruct (Ascii.eqb "/" a) eqn:E; simpl.
      * rewrite Ec. by destruct (Ascii.eqb x b).
      * rewrite Eb. by destruct (Ascii.eqb x a).
Qed.

(** [<[^>]+>] takes every well-formed tag. *)
Lemma any_tag_pattern : tag_pattern MySword.any_tag (fun _ => true).
Proof.
  split.
  - intros c t Hc. apply m_seq_none, m_lit_other. congruence.
  - intros n rest (Hne & Hlt & Hgt).
    unfold MySword.any_tag, m_seq. unfold m_lit at 1. simpl starts_with.
    rewrite ?Ascii.eqb_refl. unfold m_many.
    change (drop (length (lit "<")) ("<"%char :: n ++ ">"%char :: rest))
      with (n ++ ">"%char :: rest).
    change (length (lit "<")) with 1%nat.
    rewrite count_while_stop.
    + assert ((1 <=? length n)%nat = true) as ->
        by (destruct n; [done|reflexivity]).
      rewrite drop_app_length. unfold m_lit. simpl starts_with.
      rewrite ?Ascii.eqb_refl. simpl. f_equal. lia.
    + apply Forall_forall. intros a Ha. unfold is_char.
      by rewrite (eqb_not_elem _ _ _ Hgt Ha).
    + unfold is_char. by rewrite ?Ascii.eqb_refl.
Qed.

Lemma Forall_list_filter {A} (P : A -> Prop) (f : A -> bool) l :
  Forall P l -> Forall P (List.filter f l).
Proof.
  induction 1 as [|x l Hx Hl IH]; simpl; [constructor|].
  destruct (f x); [by constructor|done].
Qed.

Lemma text_of_kept sel ps : text_of (List.filter (kept sel) ps) = text_of ps.
Proof.
  unfold text_of. induction ps as [|[a|n] ps IH]; simpl; [done| |].
  - by rewrite IH.
  - destruct (sel n); simpl; exact IH.
Qed.

Lemma render_texts ps :
  render (List.filter (kept (fun _ => true)) ps) = text_of ps.
Proof.
  unfold render, text_of. induction ps as [|[a|n] ps IH]; simpl; [done| |].
  - by rewrite IH.
  - exact IH.
Qed.

Lemma text_of_no_amp ps : Forall well_formed ps -> "&"%char ∉ text_of ps.
Proof.
  unfold text_of. induction 1 as [|[a|n] ps Hp Hps IH]; simpl.
  - apply not_elem_of_nil.
  - destruct Hp as [_ Hamp]. intros [H|H]%elem_of_app; [by apply Hamp|done].
  - exact IH.
Qed.

Lemma py_replace_absent old new (g : ascii) s :
  g ∉ s -> py_replace (g :: old) new s = s.
Proof.
  intros Hg. unfold py_replace. apply re_sub_none.
  intros c Hc t. apply m_lit_other. intros ->. by apply Hg.
Qed.

(** On well-formed markup the Markup Cleaner removes every tag, keeps the
    text between the tags and collapses its whitespace. *)
Lemma clean_note_text_markup ps :
  Forall well_formed ps ->
  MySword.clean_note_text (render ps) = collapse_spaces (text_of ps).
Proof.
  intros Hps. unfold MySword.clean_note_text. cbv zeta.
  rewrite (re_sub_tags _ (named "i") ps) by
    (done || apply (html_tag_pattern "i"); discriminate).
  set (ps1 := List.filter (kept (named "i")) ps).
  assert (Forall well_formed ps1) as Hps1 by by apply Forall_list_filter.
  rewrite (re_sub_tags _ (named "b") ps1) by
    (done || apply (html_tag_pattern "b"); discriminate).
  set (ps2 := List.filter (kept (named "b")) ps1).
  assert (Forall well_formed ps2) as Hps2 by by apply Forall_list_filter.
  rewrite (re_sub_tags _ (fun _ => true) ps2) by
    (done || apply any_tag_pattern).
  rewrite render_texts. unfold ps2, ps1. rewrite !text_of_kept.
  pose proof (text_of_no_amp ps Hps) as Hamp.
  change (lit "&amp;") with ("&"%char :: lit "amp;").
  change (lit "&lt;") with ("&"%char :: lit "lt;").
  change (lit "&gt;") with ("&"%char :: lit "gt;").
  change (lit "&c") with ("&"%char :: lit "c").
  rewrite (py_replace_absent (lit "amp;") _ _ (text_of ps)) by done.
  rewrite (py_replace_absent (lit "lt;") _ _ (text_of ps)) by done.
  rewrite (py_replace_absent (lit "gt;") _ _ (text_of ps)) by done.
  rewrite (py_replace_absent (lit "c") _ _ (text_of ps)) by done.
  reflexivity.
Qed.

(** ** Decoding entities *)

Lemma re_sub_miss m repl c s :
  m (c :: s) = None -> re_sub m repl (c :: s) = c :: re_sub m repl s.
Proof. intros H. unfold re_sub. by rewrite re_scan_miss. Qed.

Lemma tags_absent s :
  "<"%char ∉ s ->
  re_sub MySword.any_tag []
    (re_sub (MySword.html_tag "b>") [] (re_sub (MySword.html_tag "i>") [] s))
  = s.
Proof.
  intros Hlt.
  rewrite (re_sub_none (MySword.html_tag "i>")).
  rewrite (re_sub_none (MySword.html_tag "b>")).
  rewrite (re_sub_none MySword.any_tag). done.
  all: intros c Hc t; apply m_seq_none, m_lit_other; intros <-; by apply Hlt.
Qed.

(** Replacing an entity that occurs once, between two texts without [&]. *)
Lemma py_replace_once old new (g : ascii) a b :
  g ∉ a -> g ∉ b ->
  py_replace (g :: old) new (a ++ (g :: old) ++ b) = a ++ new ++ b.
Proof.
  intros Ha Hb. unfold py_replace.
  rewrite re_sub_pass by (intros c Hc t; apply m_lit_other; intros ->; by apply Ha).
  rewrite (re_sub_take _ _ (g :: old) b (length old)).
  - rewrite re_sub_none; [done|].
    intros c Hc t. apply m_lit_other. intros ->. by apply Hb.
  - done.
  - unfold m_lit. by rewrite starts_with_app.
Qed.

(** An entity is left alone by the replacement of another one. *)
Lemma py_replace_other old new (g : ascii) a rest b :
  g ∉ a -> g ∉ rest -> g ∉ b ->
  starts_with old (rest ++ b) = false ->
  py_replace (g :: old) new (a ++ (g :: rest) ++ b) = a ++ (g :: rest) ++ b.
Proof.
  intros Ha Hr Hb Hne. unfold py_replace.
  rewrite re_sub_pass by (intros c Hc t; apply m_lit_other; intros ->; by apply Ha).
  change ((g :: rest) ++ b) with (g :: (rest ++ b)).
  rewrite re_sub_miss.
  - rewrite re_sub_none; [done|].
    intros c Hc t. apply m_lit_other. intros ->.
    apply elem_of_app in Hc as [Hc|Hc]; [by apply Hr|by apply Hb].
  - unfold m_lit. simpl. by rewrite Ascii.eqb_refl, Hne.
Qed.

Lemma not_elem_of_mid (g c : ascii) a b :
  g ∉ a -> g ∉ b -> g <> c -> g ∉ a ++ c :: b.
Proof.
  intros Ha Hb Hc [H|H]%elem_of_app; [by apply Ha|].
  apply elem_of_cons in H as [H|H]; [done|by apply Hb].
Qed.

Lemma clean_note_text_lt a b :
  "<"%char ∉ a -> "&"%char ∉ a -> "<"%char ∉ b -> "&"%char ∉ b ->
  MySword.clean_note_text (a ++ lit "&lt;" ++ b)
  = collapse_spaces (a ++ "<"%char :: b).
Proof.
  intros Hla Haa Hlb Hab. unfold MySword.clean_note_text. cbv zeta.
  rewrite tags_absent.
  2: { intros [H|H]%elem_of_app; [by apply Hla|].
       apply elem_of_app in H as [H|H]; [|by apply Hlb].
       revert H. by apply not_elem_of_cons; split;
         [|apply not_elem_of_cons; split;
           [|apply not_elem_of_cons; split;
             [|apply not_elem_of_cons; split; [|apply not_elem_of_nil]]]]. }
  change (lit "&amp;") with ("&"%char :: lit "amp;").
  change (lit "&lt;") with ("&"%char :: lit "lt;").
  change (lit "&gt;") with ("&"%char :: lit "gt;").
  change (lit "&c") with ("&"%char :: lit "c").
  rewrite (py_replace_other (lit "amp;") _ _ a (lit "lt;") b); try done.
  2: { by apply not_elem_of_cons; split;
         [|apply not_elem_of_cons; split;
           [|apply not_elem_of_cons; split; [|apply not_elem_of_nil]]]. }
  rewrite (py_replace_once (lit "lt;") _ _ a b) by done.
  change (lit "<" ++ b) with ("<"%char :: b).
  rewrite (py_replace_absent (lit "gt;")) by by apply not_elem_of_mid.
  rewrite (py_replace_absent (lit "c")) by by apply not_elem_of_mid.
  reflexivity.
Qed.

Lemma clean_note_text_gt a b :
  "<"%char ∉ a -> "&"%char ∉ a -> "<"%char ∉ b -> "&"%char ∉ b ->
  MySword.clean_note_text (a ++ lit "&gt;" ++ b)
  = collapse_spaces (a ++ ">"%char :: b).
Proof.
  intros Hla Haa Hlb Hab. unfold MySword.clean_note_text. cbv zeta.
  assert ("&"%char ∉ lit "gt;") as Hgt.
  { by apply not_elem_of_cons; split;
      [|apply not_elem_of_cons; split;
        [|apply not_elem_of_cons; split; [|apply not_elem_of_nil]]]. }
  rewrite tags_absent.
  2: { intros [H|H]%elem_of_app; [by apply Hla|].
       apply elem_of_app in H as [H|H]; [|by apply Hlb].
       revert H. by apply not_elem_of_cons; split;
         [|apply not_elem_of_cons; split;
           [|apply not_elem_of_cons; split;
             [|apply not_elem_of_cons; split; [|apply not_elem_of_nil]]]]. }
  change (lit "&amp;") with ("&"%char :: lit "amp;").
  change (lit "&lt;") with ("&"%char :: lit "lt;").
  change (lit "&gt;") with ("&"%char :: lit "gt;").
  change (lit "&c") with ("&"%char :: lit "c").
  rewrite (py_replace_other (lit "amp;") _ _ a (lit "gt;") b); try done.
  rewrite (py_replace_other (lit "lt;") _ _ a (lit "gt;") b); try done.
  rewrite (py_replace_once (lit "gt;") _ _ a b) by done.
  change (lit ">" ++ b) with (">"%char :: b).
  rewrite (py_replace_absent (lit "c")) by by apply not_elem_of_mid.
  reflexivity.
Qed.

Lemma clean_note_text_amp a b :
  "<"%char ∉ a -> "&"%char ∉ a -> "<"%char ∉ b -> "&"%char ∉ b ->
  starts_with (lit "lt;") b = false -> starts_with (lit "gt;") b = false ->
  MySword.clean_note_text (a ++ lit "&amp;" ++ b)
  = collapse_spaces (a ++ "&"%char :: b).
Proof.
  intros Hla Haa Hlb Hab Hlt Hgt. unfold MySword.clean_note_text. cbv zeta.
  rewrite tags_absent.
  2: { intros [H|H]%elem_of_app; [by apply Hla|].
       apply elem_of_app in H as [H|H]; [|by apply Hlb].
       revert H. by apply not_elem_of_cons; split;
         [|apply not_elem_of_cons; split;
           [|apply not_elem_of_cons; split;
             [|apply not_elem_of_cons; split;
               [|apply not_elem_of_cons; split; [|apply not_elem_of_nil]]]]]. }
  change (lit "&amp;") with ("&"%char :: lit "amp;").
  change (lit "&lt;") with ("&"%char :: lit "lt;").
  change (lit "&gt;") with ("&"%char :: lit "gt;").
  change (lit "&c") with ("&"%char :: lit "c").
  rewrite (py_replace_once (lit "amp;") _ _ a b) by done.
  change (lit "&" ++ b) with (["&"%char] ++ b).
  rewrite (py_replace_other (lit "lt;") _ _ a [] b); try done;
    [|apply not_elem_of_nil].
  rewrite (py_replace_other (lit "gt;") _ _ a [] b); try done;
    [|apply not_elem_of_nil].
  destruct (starts_with (lit "c") b) eqn:Ec.
  - apply starts_with_spec in Ec as [b' ->].
    change (["&"%char] ++ lit "c" ++ b') with (("&"%char :: lit "c") ++ b').
    rewrite (py_replace_once (lit "c") _ _ a b'); [done|done|].
    intros H. apply Hab. by right.
  - rewrite (py_replace_other (lit "c") _ _ a [] b); try done.
    apply not_elem_of_nil.
Qed.

(** The Markup Cleaner is defined on every text, malformed or not.
    Its result is a sequence of words (non-empty, free of whitespace) joined
    by single spaces, so no whitespace leads or trails it and no run of
    whitespace is longer than one space.  On well-formed markup (texts
    without [<] and [&], between tags [<n>] whose name is non-empty and
    holds neither [<] nor [>], paired or not) every tag is removed and the
    text between the tags is kept.  The entities [&lt;], [&gt;] and [&amp;]
    standing between two texts without [<] and [&] are decoded; the
    replacements run one after the other, so for [&amp;] the text that
    follows must not start with [lt;] or [gt;].  A [<] that no [>] closes
    and an empty [<>] are left in place. *)
Theorem clean_note_text_spec (raw_note : list ascii) :
  (exists words,
     Forall is_word words
     /\ MySword.clean_note_text raw_note = join_words words)
  /\ (forall ps,
        Forall well_formed ps ->
        MySword.clean_note_text (render ps)
        = join_words (py_split (text_of ps)))
  /\ (forall a b,
        "<"%char ∉ a -> "&"%char ∉ a -> "<"%char ∉ b -> "&"%char ∉ b ->
        MySword.clean_note_text (a ++ lit "&lt;" ++ b)
        = join_words (py_split (a ++ "<"%char :: b))
        /\ MySword.clean_note_text (a ++ lit "&gt;" ++ b)
           = join_words (py_split (a ++ ">"%char :: b))
        /\ (starts_with (lit "lt;") b = false ->
            starts_with (lit "gt;") b = false ->
            MySword.clean_note_text (a ++ lit "&amp;" ++ b)
            = join_words (py_split (a ++ "&"%char :: b))))
  /\ MySword.clean_note_text (lit "a <b unclosed") = lit "a <b unclosed"
  /\ MySword.clean_note_text (lit "x</i>y  <i>z ") = lit "xy z"
  /\ MySword.clean_note_text (lit "<> a > b") = lit "<> a > b".
Proof.
  split; [|split; [|split]].
  - eexists. split; [apply py_split_words|].
    unfold MySword.clean_note_text. cbv zeta.
    apply collapse_spaces_words.
  - intros ps Hps.
    by rewrite clean_note_text_markup, collapse_spaces_words.
  - intros a b Hla Haa Hlb Hab. split; [|split].
    + by rewrite clean_note_text_lt, collapse_spaces_words.
    + by rewrite clean_note_text_gt, collapse_spaces_words.
    + intros Hlt Hgt.
      by rewrite clean_note_text_amp, collapse_spaces_words.
  - repeat split; vm_compute; reflexivity.
Qed.

(** C9.  The Markup Cleaner at the note text [a &amp;lt; b], the escaped
    form of the text [a &lt; b].  Decoding its entities gives [a &lt; b].
    The cleaner returns [a < b]: under the comment that announces the
    decoding of the entities (line 138) it replaces [&amp;] first and
    searches the result for [&lt;] and [&gt;] afterwards, so that the [&] it
    has just decoded is read as the start of a second entity. *)
Lemma clean_note_text_decodes_twice :
  MySword.clean_note_text (lit "a &amp;lt; b") = lit "a < b"
  /\ decode_entities_once (lit "a &amp;lt; b") = lit "a &lt; b"
  /\ MySword.clean_note_text (lit "a &amp;lt; b")
     <> decode_entities_once (lit "a &amp;lt; b").
Proof.
  assert (MySword.clean_note_text (lit "a &amp;lt; b") = lit "a < b") as H1
    by (vm_compute; reflexivity).
  assert (decode_entities_once (lit "a &amp;lt; b") = lit "a &lt; b") as H2
    by (vm_compute; reflexivity).
  split; [exact H1|]. split; [exact H2|].
  rewrite H1, H2. discriminate.
Qed.

(** ** The catch word *)

Lemma split_ws_word cur w rest :
  Forall (fun c => is_space c = false) w ->
  split_ws cur (w ++ rest) = split_ws (cur ++ w) rest.
Proof.
  intros Hw. revert cur. induction Hw as [|c w Hc Hw IH]; intros cur; simpl.
  - by rewrite app_nil_r.
  - rewrite Hc, IH. by rewrite <- app_assoc.
Qed.

Lemma split_ws_after_space cur u c rest :
  is_space c = true ->
  exists l, split_ws cur (u ++ c :: rest) = l ++ split_ws [] rest.
Proof.
  intros Hc. revert cur. induction u as [|d u IH]; intros cur; simpl.
  - rewrite Hc. destruct cur; [by exists []|]. by eexists [_].
  - destruct (is_space d).
    + destruct cur as [|e cur].
      * apply IH.
      * destruct (IH []) as [l ->]. by exists ((e :: cur) :: l).
    + apply IH.
Qed.

Lemma py_split_one_word w : is_word w -> py_split w = [w].
Proof.
  intros [Hne Hw]. unfold py_split.
  rewrite <- (app_nil_r w) at 1. rewrite split_ws_word by done.
  simpl. by destruct w.
Qed.

Lemma last_word_app l w : last_word (l ++ [w]) = w.
Proof. unfold last_word. by rewrite last_snoc. Qed.

(** The last token of a text that ends with a word. *)
Lemma last_word_split u w :
  is_word w ->
  u = [] \/ (exists u' c, u = u' ++ [c] /\ is_space c = true) ->
  last_word (py_split (u ++ w)) = w.
Proof.
  intros Hw [->|(u' & c & -> & Hc)].
  - simpl. by rewrite py_split_one_word.
  - unfold py_split. rewrite <- app_assoc. simpl.
    destruct (split_ws_after_space [] u' c w Hc) as [l ->].
    fold (py_split w). rewrite py_split_one_word by done.
    apply last_word_app.
Qed.

Lemma last_word_is_word ws :
  Forall is_word ws -> last_word ws = [] \/ is_word (last_word ws).
Proof.
  intros Hws. unfold last_word.
  destruct (last ws) as [w|] eqn:E; [|by left]. right. simpl.
  rewrite Forall_forall in Hws. apply Hws.
  by apply last_Some_elem_of.
Qed.

(** Without [<] and without the first character of the pilcrow pattern no
    pattern of [strip_markup] matches, and only the stripping is left. *)
Lemma strip_markup_plain p :
  "<"%char ∉ p -> ascii_of_N 194 ∉ p -> MySword.strip_markup p = py_strip p.
Proof.
  intros Hlt Hpil. unfold MySword.strip_markup. cbv zeta.
  rewrite (re_sub_none MySword.strongs_tag [] p).
  rewrite (re_sub_none MySword.format_tag_upper [] p).
  rewrite (re_sub_none (MySword.format_tag_lower "Fr>") [] p).
  rewrite (re_sub_none (MySword.format_tag_lower "Fo>") [] p).
  rewrite (re_sub_none (MySword.format_tag_lower "Fi>") [] p).
  rewrite (re_sub_none (MySword.format_tag_lower "Fa>") [] p).
  rewrite (re_sub_none (m_lit (lit "<CM>")) [] p).
  rewrite (re_sub_none MySword.pilcrow [] p). done.
  all: intros c Hc t.
  all: first [apply m_seq_none, m_lit_other | apply m_lit_other].
  all: intros E; subst c; first [exact (Hlt Hc) | exact (Hpil Hc)].
Qed.

(** The procedure of the Catch-Word Resolver.  It cleans the prefix with
    its own list of MySword patterns ([strip_markup]: Strong's numbers, the
    format tags, [<CM>], the pilcrow; then [strip()]), strips the trailing
    characters of [:;,.], splits on whitespace and returns the last token,
    or the empty string when there is none.  The result is empty or a word;
    it is the word the cleaned and trimmed prefix ends with; a prefix
    without [<] and without the pilcrow is only stripped by the cleaning;
    and the sample prefix of the specification gives [he]. *)
Theorem extract_catch_word_spec (text_before_note : list ascii) :
  MySword.extract_catch_word text_before_note
  = catch_word_of MySword.strip_markup text_before_note
  /\ (MySword.extract_catch_word text_before_note = []
      \/ is_word (MySword.extract_catch_word text_before_note))
  /\ (MySword.strip_markup text_before_note = [] ->
      MySword.extract_catch_word text_before_note = [])
  /\ (forall u w,
        py_rstrip_chars (lit ":;,.") (MySword.strip_markup text_before_note)
        = u ++ w ->
        is_word w ->
        u = [] \/ (exists u' c, u = u' ++ [c] /\ is_space c = true) ->
        MySword.extract_catch_word text_before_note = w)
  /\ ("<"%char ∉ text_before_note -> ascii_of_N 194 ∉ text_before_note ->
      MySword.strip_markup text_before_note = py_strip text_before_note)
  /\ MySword.extract_catch_word
       (lit "...the word is <WH1234>truth<Fr>, saith he:") = lit "he".
Proof.
  assert (MySword.extract_catch_word text_before_note
          = catch_word_of MySword.strip_markup text_before_note) as Heq.
  { unfold MySword.extract_catch_word, catch_word_of. cbv zeta.
    destruct (py_rstrip_chars _ _) as [|c s] eqn:E; [done|].
    by destruct (py_split (c :: s)). }
  split; [exact Heq|]. rewrite Heq. unfold catch_word_of.
  split; [|split; [|split; [|split]]].
  - apply last_word_is_word, py_split_words.
  - intros ->. done.
  - intros u w -> Hw Hu. by apply last_word_split.
  - apply strip_markup_plain.
  - vm_compute. reflexivity.
Qed.

(** C5.  The Catch-Word Resolver at the prefix [the end<CL>].  The claimed
    procedure, the Markup Cleaner followed by the trimming of the punctuation
    and the choice of the last token, gives [end].  The resolver returns
    [end<CL>]: it removes the tags of its own eight patterns only, [<CL>] is
    none of them, although the comment above the patterns (line 60) says
    that all MySword markup tags are stripped and the docstring that the
    result is the last English word before the marker. *)
Lemma catch_word_not_by_markup_cleaner :
  MySword.extract_catch_word (lit "the end<CL>") = lit "end<CL>"
  /\ catch_word_of MySword.clean_note_text (lit "the end<CL>") = lit "end"
  /\ MySword.extract_catch_word (lit "the end<CL>")
     <> catch_word_of MySword.clean_note_text (lit "the end<CL>").
Proof.
  assert (MySword.extract_catch_word (lit "the end<CL>") = lit "end<CL>")
    as H1 by (vm_compute; reflexivity).
  assert (catch_word_of MySword.clean_note_text (lit "the end<CL>")
          = lit "end") as H2 by (vm_compute; reflexivity).
  split; [exact H1|]. split; [exact H2|].
  rewrite H1, H2. discriminate.
Qed.

(** * Further properties of the scripts *)

(** ** Merging *)

Lemma merge_verse_partial_idem M bn ch v :
  MySword.merge_verse M true bn ch (MySword.merge_verse M true bn ch v)
  = MySword.merge_verse M true bn ch v.
Proof.
  unfold MySword.merge_verse.
  destruct (M !! (bn, ch, verse v)) as [fns|] eqn:E; simpl; by rewrite E.
Qed.

Lemma merge_book_partial_idem M b :
  MySword.merge_book M true (MySword.merge_book M true b)
  = MySword.merge_book M true b.
Proof.
  unfold MySword.merge_book.
  destruct (true && negb (bool_decide (name b ∈ MySword.nt_book_names)))
    eqn:E; [by rewrite E|].
  cbn [name chapters]. rewrite E. f_equal.
  rewrite map_map. apply map_ext. intros c.
  unfold MySword.merge_chapter. cbn [chapter verses]. f_equal.
  rewrite map_map. apply map_ext. intros v. apply merge_verse_partial_idem.
Qed.

(** X1.  The partial merge is idempotent as well: a second run with the same
    mapping returns the document of the first. *)
Theorem partial_merge_idempotent (data : Document) (new_footnotes : Mapping) :
  MySword.merge_footnotes_into_json
    (MySword.merge_footnotes_into_json data new_footnotes true)
    new_footnotes true
  = MySword.merge_footnotes_into_json data new_footnotes true.
Proof.
  unfold MySword.merge_footnotes_into_json. cbn [books].
  assert (map (MySword.merge_book new_footnotes true)
            (map (MySword.merge_book new_footnotes true) (books data))
          = map (MySword.merge_book new_footnotes true) (books data)) as ->.
  { rewrite map_map. apply map_ext. intros b. apply merge_book_partial_idem. }
  reflexivity.
Qed.

(** X2.  [add_footnotes_to_json] sets the footnotes of a verse whose location key
    is in the mapping and leaves every other verse as it is, the footnotes
    it carries included; the document keeps its shape, and a verse its
    number and text. *)
Theorem add_footnotes_frame (data : Document) (fs : Mapping)
    (i j k : nat) (bn : list ascii) (ch : Z) (v : Verse) :
  verse_at (books data) i j k = Some (bn, ch, v) ->
  let added := Sword.add_footnotes_to_json data fs in
  (forall i' j' k', verse_at (books data) i' j' k' = None ->
                    verse_at (books added) i' j' k' = None)
  /\ exists v',
      verse_at (books added) i j k = Some (bn, ch, v')
      /\ verse v' = verse v /\ text v' = text v
      /\ (forall fns, fs !! (bn, ch, verse v) = Some fns ->
                      footnotes v' = Some fns)
      /\ (fs !! (bn, ch, verse v) = None -> v' = v).
Proof.
  intros Hv added. split.
  - intros i' j' k' Hnone. unfold added. cbn [Sword.add_footnotes_to_json books].
    by rewrite verse_at_add, Hnone.
  - unfold added. cbn [Sword.add_footnotes_to_json books].
    rewrite verse_at_add, Hv. cbn [fmap option_fmap option_map fst snd].
    eexists. split; [reflexivity|].
    unfold Sword.add_verse.
    destruct (fs !! (bn, ch, verse v)) as [fns|] eqn:E; cbn [verse text footnotes].
    + split; [reflexivity|]. split; [reflexivity|]. split.
      * intros fns' [= <-]. reflexivity.
      * intros H. discriminate H.
    + split; [reflexivity|]. split; [reflexivity|]. split.
      * intros fns' H. discriminate H.
      * reflexivity.
Qed.

Lemma add_footnotes_frame_witness :
  verse_at (books sample_document) 0 0 0
  = Some (lit "Genesis", 1,
          mkVerse 1 (lit "In the beginning") (Some [stale_note]))
  /\ exists v',
      verse_at (books (Sword.add_footnotes_to_json
                         sample_document sample_mapping)) 0 0 0
      = Some (lit "Genesis", 1, v')
      /\ footnotes v' = Some [stale_note].
Proof.
  assert (verse_at (books sample_document) 0 0 0
          = Some (lit "Genesis", 1,
                  mkVerse 1 (lit "In the beginning") (Some [stale_note])))
    as H by reflexivity.
  split; [exact H|].
  destruct (add_footnotes_frame sample_document sample_mapping 0 0 0 _ _ _ H)
    as (_ & v' & Hat & _ & _ & _ & Hout).
  exists v'. split; [exact Hat|].
  rewrite Hout; [reflexivity|]. vm_compute. reflexivity.
Defined.

Lemma add_book_idem fs b :
  Sword.add_book fs (Sword.add_book fs b) = Sword.add_book fs b.
Proof.
  unfold Sword.add_book. cbn [name chapters]. f_equal.
  rewrite map_map. apply map_ext. intros c.
  unfold Sword.add_chapter. cbn [chapter verses]. f_equal.
  rewrite map_map. apply map_ext. intros v.
  unfold Sword.add_verse.
  destruct (fs !! (name b, chapter c, verse v)) as [fns|] eqn:E;
    cbn [verse]; by rewrite E.
Qed.

(** X3.  [add_footnotes_to_json] is idempotent. *)
Theorem add_footnotes_idempotent (data : Document) (fs : Mapping) :
  Sword.add_footnotes_to_json (Sword.add_footnotes_to_json data fs) fs
  = Sword.add_footnotes_to_json data fs.
Proof.
  unfold Sword.add_footnotes_to_json. cbn [books].
  assert (map (Sword.add_book fs) (map (Sword.add_book fs) (books data))
          = map (Sword.add_book fs) (books data)) as ->.
  { rewrite map_map. apply map_ext. intros b. apply add_book_idem. }
  reflexivity.
Qed.

(** X4.  On a document whose books are all in the New Testament set the partial
    merge of the MySword script and [add_footnotes_to_json] of the SWORD
    script return the same document. *)
Theorem partial_merge_is_add_on_nt (data : Document) (fs : Mapping) :
  (forall b, b ∈ books data -> name b ∈ MySword.nt_book_names) ->
  MySword.merge_footnotes_into_json data fs true
  = Sword.add_footnotes_to_json data fs.
Proof.
  intros Hnt.
  unfold MySword.merge_footnotes_into_json, Sword.add_footnotes_to_json.
  assert (map (MySword.merge_book fs true) (books data)
          = map (Sword.add_book fs) (books data)) as ->; [|reflexivity].
  apply map_ext_elem. intros b Hb.
  unfold MySword.merge_book, Sword.add_book.
  rewrite (bool_decide_eq_true_2 _ (Hnt b Hb)). reflexivity.
Qed.

Lemma partial_merge_is_add_on_nt_witness :
  (forall b, b ∈ books sample_nt_document -> name b ∈ MySword.nt_book_names)
  /\ MySword.merge_footnotes_into_json sample_nt_document sample_mapping true
     = Sword.add_footnotes_to_json sample_nt_document sample_mapping.
Proof.
  assert (forall b, b ∈ books sample_nt_document ->
                    name b ∈ MySword.nt_book_names) as H.
  { intros b Hb. apply list_elem_of_singleton in Hb as ->.
    apply nt_book_names_spec. exists 40. split; [lia|].
    vm_compute. reflexivity. }
  split; [exact H|].
  exact (partial_merge_is_add_on_nt sample_nt_document sample_mapping H).
Defined.

Lemma bare_merge_book M nt b :
  bare_book (MySword.merge_book M nt b) = bare_book b.
Proof.
  unfold MySword.merge_book.
  destruct (nt && negb (bool_decide (name b ∈ MySword.nt_book_names)));
    [reflexivity|].
  unfold bare_book. cbn [name chapters]. f_equal.
  rewrite map_map. apply map_ext. intros c.
  unfold bare_chapter, MySword.merge_chapter. cbn [chapter verses]. f_equal.
  rewrite map_map. apply map_ext. intros v.
  unfold bare_verse, MySword.merge_verse.
  destruct (M !! (name b, chapter c, verse v)); [reflexivity|].
  by destruct nt.
Qed.

Lemma bare_add_book fs b : bare_book (Sword.add_book fs b) = bare_book b.
Proof.
  unfold bare_book, Sword.add_book. cbn [name chapters]. f_equal.
  rewrite map_map. apply map_ext. intros c.
  unfold bare_chapter, Sword.add_chapter. cbn [chapter verses]. f_equal.
  rewrite map_map. apply map_ext. intros v.
  unfold bare_verse, Sword.add_verse.
  by destruct (fs !! (name b, chapter c, verse v)).
Qed.

(** X5.  No merge touches the Scripture text: the books, chapters and verses of
    the returned document, footnotes set aside, are those of the loaded
    one, in the same order, whatever the mapping and the mode. *)
Theorem merge_keeps_scripture (data : Document) (fs : Mapping)
    (nt_only : bool) :
  map bare_book (books (MySword.merge_footnotes_into_json data fs nt_only))
  = map bare_book (books data)
  /\ map bare_book (books (Sword.add_footnotes_to_json data fs))
     = map bare_book (books data).
Proof.
  unfold MySword.merge_footnotes_into_json, Sword.add_footnotes_to_json.
  cbn [books]. rewrite !map_map. split; apply map_ext; intros b.
  - apply bare_merge_book.
  - apply bare_add_book.
Qed.

(** ** The flat array and the mapping *)

Lemma footnote_of_record n kf :
  key_of (record_of n kf) = kf.1 /\ footnote_of (record_of n kf) = kf.2.
Proof. destruct kf as [[[bn ch] v] [cw nt ty]]. done. Qed.

Lemma number_from_elem n l r :
  r ∈ number_from n l <->
  exists (i : nat) kf, l !! i = Some kf /\ r = record_of (n + Z.of_nat i) kf.
Proof.
  rewrite list_elem_of_lookup. split.
  - intros [i Hi]. rewrite number_from_lookup in Hi.
    destruct (l !! i) as [kf|] eqn:E; [|discriminate].
    injection Hi as <-. eauto.
  - intros (i & kf & Hl & ->). exists i. by rewrite number_from_lookup, Hl.
Qed.

Lemma verse_at_members bs i j k bn ch v :
  verse_at bs i j k = Some (bn, ch, v) ->
  exists b c, b ∈ bs /\ c ∈ chapters b /\ v ∈ verses c
              /\ name b = bn /\ chapter c = ch.
Proof.
  unfold verse_at. intros H.
  destruct (bs !! i) as [b|] eqn:Hb; simpl in H; [|done].
  destruct (chapters b !! j) as [c|] eqn:Hc; simpl in H; [|done].
  destruct (verses c !! k) as [v'|] eqn:Hv; simpl in H; [|done].
  inversion H; subst. exists b, c.
  eauto 10 using list_elem_of_lookup_2.
Qed.

(** The footnotes attached to the verses of a list of books. *)
Lemma attached_elem bs kf :
  kf ∈ attached bs <->
  exists i j k bn ch v,
    verse_at bs i j k = Some (bn, ch, v)
    /\ kf.1 = (bn, ch, verse v)
    /\ kf.2 ∈ default [] (footnotes v).
Proof.
  unfold attached, attached_book, attached_chapter, attached_verse.
  rewrite list_elem_of_In, in_flat_map. split.
  - intros (b & Hb & H). apply in_flat_map in H as (c & Hc & H).
    apply in_flat_map in H as (v & Hv & H).
    apply in_map_iff in H as (fn & <- & Hfn).
    apply list_elem_of_In in Hb, Hc, Hv, Hfn.
    destruct (elem_verse_at bs b c v Hb Hc Hv) as (i & j & k & Hat).
    exists i, j, k, (name b), (chapter c), v. done.
  - intros (i & j & k & bn & ch & v & Hat & Hk & Hfn).
    apply verse_at_members in Hat as (b & c & Hb & Hc & Hv & <- & <-).
    exists b. split; [by apply list_elem_of_In|].
    apply in_flat_map. exists c. split; [by apply list_elem_of_In|].
    apply in_flat_map. exists v. split; [by apply list_elem_of_In|].
    apply in_map_iff. exists kf.2. split; [|by apply list_elem_of_In].
    rewrite <- Hk. by destruct kf.
Qed.

(** X6.  After a full merge the flat array holds the footnotes of the mapping
    and no other: every record is a footnote the mapping lists under the
    record's location, and every footnote the mapping lists under the
    location of a verse of the document has a record there. *)
Theorem full_merge_flat_from_mapping (data : Document) (fs : Mapping) :
  let merged := MySword.merge_footnotes_into_json data fs false in
  (forall r,
     r ∈ flat_footnotes merged ->
     exists fns, fs !! key_of r = Some fns /\ footnote_of r ∈ fns)
  /\ (forall i j k bn ch v fns fn,
        verse_at (books data) i j k = Some (bn, ch, v) ->
        fs !! (bn, ch, verse v) = Some fns ->
        fn ∈ fns ->
        exists r, r ∈ flat_footnotes merged
                  /\ key_of r = (bn, ch, verse v) /\ footnote_of r = fn).
Proof.
  cbn zeta. unfold MySword.merge_footnotes_into_json. cbn [flat_footnotes].
  rewrite rebuild_flat_numbering. split.
  - intros r Hr. apply number_from_elem in Hr as (n & kf & Hl & ->).
    destruct (footnote_of_record (1 + Z.of_nat n) kf) as [-> ->].
    assert (kf ∈ attached
              (map (MySword.merge_book fs false) (books data))) as Hin
      by (by apply list_elem_of_lookup_2 in Hl).
    apply attached_elem in Hin as (i & j & k & bn & ch & v' & Hat & Hk & Hfn).
    rewrite verse_at_merge in Hat.
    destruct (verse_at (books data) i j k) as [[[bn0 ch0] v]|];
      [|discriminate].
    cbn in Hat. injection Hat as <- <- <-.
    unfold MySword.merge_verse in Hk, Hfn. rewrite Hk.
    destruct (fs !! (bn0, ch0, verse v)) as [fns|] eqn:E; cbn in Hfn.
    + exists fns. split; [|exact Hfn]. exact E.
    + by apply elem_of_nil in Hfn.
  - intros i j k bn ch v fns fn Hat Hfs Hfn.
    assert (((bn, ch, verse v), fn)
            ∈ attached (map (MySword.merge_book fs false) (books data)))
      as Hin.
    { apply attached_elem.
      exists i, j, k, bn, ch, (MySword.merge_verse fs false bn ch v).
      rewrite verse_at_merge, Hat. cbn.
      unfold MySword.merge_verse. rewrite Hfs. cbn. done. }
    apply list_elem_of_lookup_1 in Hin as [n Hn].
    exists (record_of (1 + Z.of_nat n) ((bn, ch, verse v), fn)).
    split; [|apply (footnote_of_record _ ((bn, ch, verse v), fn))].
    apply number_from_elem. eauto.
Qed.

(** ** What the extractors count and store *)

Lemma fold_left_invariant_elem {A B} (P : A -> Prop) (f : A -> B -> A) l a :
  P a -> (forall a x, x ∈ l -> P a -> P (f a x)) -> P (fold_left f l a).
Proof.
  revert a. induction l as [|x l IH]; intros a Ha Hf; simpl; [done|].
  apply IH.
  - apply Hf; [by left|done].
  - intros a' x' Hx'. apply Hf. by right.
Qed.

Lemma footnote_count_insert (fs : Mapping) key fns :
  fs !! key = None ->
  footnote_count (<[key := fns]> fs)
  = footnote_count fs + Z.of_nat (length fns).
Proof.
  intros Hk. unfold footnote_count.
  rewrite map_fold_insert_L; [done| |done].
  intros. lia.
Qed.

Lemma footnote_count_append fs key fn :
  footnote_count (append_footnote fs key fn) = footnote_count fs + 1.
Proof.
  unfold append_footnote.
  destruct (fs !! key) as [l|] eqn:E.
  - rewrite <- (insert_delete_id fs key l E) at 1.
    rewrite alter_insert_eq, footnote_count_insert
      by apply lookup_delete_eq.
    rewrite <- (insert_delete_id fs key l E) at 2.
    rewrite footnote_count_insert by apply lookup_delete_eq.
    rewrite length_app. simpl. lia.
  - rewrite alter_insert_eq, footnote_count_insert by done.
    simpl. lia.
Qed.

Lemma extract_part_cases key fs total tsf part :
  MySword.extract_part key (fs, total, tsf) part = (fs, total, part)
  \/ exists h,
      re_match MySword.RF_note part = Some h
      /\ MySword.extract_part key (fs, total, tsf) part
         = (append_footnote fs key
              (mysword_footnote tsf (group1 (lit "<RF>") (lit "<Rf>") h)),
            total + 1, tsf).
Proof.
  unfold MySword.extract_part.
  destruct (re_match MySword.RF_note part); eauto.
Qed.

(** An invariant of the mapping and the counter that each added footnote
    preserves holds when the loop over the cursor ends.  The footnote is
    made from a part of the row's text that the note pattern matches and
    from the text before it, which is empty or another part. *)
Lemma mysword_loop_invariant (P : Mapping -> Z -> Prop) cursor :
  P ∅ 0 ->
  (forall fs n r bn tsf part h,
     r ∈ cursor ->
     MySword.BOOK_NAMES !! MySword.book_num r = Some bn ->
     tsf = [] \/ tsf ∈ re_split MySword.RF_note (MySword.scripture r) ->
     part ∈ re_split MySword.RF_note (MySword.scripture r) ->
     re_match MySword.RF_note part = Some h ->
     P fs n ->
     P (append_footnote fs (bn, MySword.row_chapter r, MySword.row_verse r)
          (mysword_footnote tsf (group1 (lit "<RF>") (lit "<Rf>") h)))
       (n + 1)) ->
  P (MySword.ex_footnotes (MySword.extract_loop cursor))
    (MySword.total_notes (MySword.extract_loop cursor)).
Proof.
  intros H0 Hadd. unfold MySword.extract_loop.
  apply (fold_left_invariant_elem
           (fun st => P (MySword.ex_footnotes st) (MySword.total_notes st)));
    [exact H0|].
  intros st r Hr Hst. unfold MySword.extract_row.
  destruct (MySword.BOOK_NAMES !! MySword.book_num r) as [bn|] eqn:E;
    [|exact Hst].
  set (key := (bn, MySword.row_chapter r, MySword.row_verse r)).
  set (all := re_split MySword.RF_note (MySword.scripture r)).
  assert (forall parts s,
            (forall p, p ∈ parts -> p ∈ all) ->
            s.2 = [] \/ s.2 ∈ all ->
            P s.1.1 s.1.2 ->
            P (fold_left (MySword.extract_part key) parts s).1.1
              (fold_left (MySword.extract_part key) parts s).1.2) as Hparts.
  { induction parts as [|part parts IH]; intros [[fs n] tsf] Hsub Ht Hs;
      [done|].
    cbn [fold_left].
    assert (part ∈ all) as Hpart by (apply Hsub; left).
    assert (forall p, p ∈ parts -> p ∈ all) as Hsub'
      by (intros p Hp; apply Hsub; by right).
    destruct (extract_part_cases key fs n tsf part) as [->|(h & Hh & ->)].
    - apply IH; [done|by right|exact Hs].
    - apply IH; [done|exact Ht|]. cbn [fst snd] in *.
      by apply (Hadd fs n r bn tsf part h). }
  specialize (Hparts all (MySword.ex_footnotes st, MySword.total_notes st, [])
                (fun p Hp => Hp) (or_introl eq_refl) Hst).
  by destruct (fold_left _ _ _) as [[fs total] tsf].
Qed.

Lemma sword_loop_invariant (P : Mapping -> Z -> Prop) all_books :
  P ∅ 0 ->
  (forall fs n key fn, P fs n -> P (append_footnote fs key fn) (n + 1)) ->
  P (fold_left Sword.extract_book all_books (∅, 0)).1
    (fold_left Sword.extract_book all_books (∅, 0)).2.
Proof.
  intros H0 Hadd.
  apply (fold_left_invariant (fun st : Mapping * Z => P st.1 st.2));
    [exact H0|].
  intros st b Hst. unfold Sword.extract_book.
  apply (fold_left_invariant (fun st : Mapping * Z => P st.1 st.2)); [done|].
  intros st1 [ch raws] Hst1. unfold Sword.extract_chapter.
  apply (fold_left_invariant (fun st : Mapping * Z => P st.1 st.2)); [done|].
  intros st2 [v raw] Hst2. unfold Sword.extract_verse.
  destruct raw as [|c raw]; [done|].
  destruct (negb _); [done|].
  apply (fold_left_invariant (fun st : Mapping * Z => P st.1 st.2)); [done|].
  intros st3 note Hst3. unfold Sword.extract_note. simpl. by apply Hadd.
Qed.

(** X7.  The number each extractor prints when it ends ([total_notes]) is the
    number of footnotes held by the lists of the mapping it returns. *)
Theorem total_notes_counts_mapping :
  (forall cursor,
     MySword.total_notes (MySword.extract_loop cursor)
     = footnote_count (MySword.extract_footnotes_from_mysword cursor))
  /\ (forall all_books,
        (fold_left Sword.extract_book all_books (∅, 0)).2
        = footnote_count (Sword.extract_footnotes all_books)).
Proof.
  split.
  - intros cursor. unfold MySword.extract_footnotes_from_mysword.
    apply (mysword_loop_invariant (fun fs n => n = footnote_count fs)).
    + done.
    + intros fs n r bn tsf part h _ _ _ _ _ ->.
      by rewrite footnote_count_append.
  - intros all_books. unfold Sword.extract_footnotes.
    apply (sword_loop_invariant (fun fs n => n = footnote_count fs)).
    + done.
    + intros fs n key fn ->. by rewrite footnote_count_append.
Qed.

(** ** What the SWORD extractor stores under a key *)

Lemma extract_notes_lookup (key : Key) (notes : list (list ascii))
    (st : Mapping * Z) (key' : Key) :
  (fold_left (Sword.extract_note key) notes st).1 !! key'
  = if decide (key = key')
    then app_notes (st.1 !! key') (map Sword.parse_note_text notes)
    else st.1 !! key'.
Proof.
  revert st. induction notes as [|x notes IH]; intros st; cbn [fold_left].
  - by destruct (decide (key = key')).
  - rewrite IH. unfold Sword.extract_note. cbn [fst].
    rewrite append_footnote_lookup.
    destruct (decide (key = key')) as [->|Hne]; [|done].
    cbn [map app_notes]. destruct (map Sword.parse_note_text notes); cbn.
    + done.
    + by rewrite <- app_assoc.
Qed.

(** A text without [<note] holds no note element, so that the test of
    line 103 only saves the search. *)
Lemma no_note_no_findall raw :
  contains (lit "<note") raw = false -> re_findall Sword.note_elem raw = [].
Proof.
  intros Hc. destruct (re_findall Sword.note_elem raw) as [|h l] eqn:E;
    [done|].
  assert (h ∈ re_findall Sword.note_elem raw) as Hh by (rewrite E; left).
  apply re_findall_elem, re_scan_hit in Hh as (pre & t & k & -> & Ht & _).
  unfold Sword.note_elem in Ht.
  apply m_seq_inv in Ht as (n1 & n2 & H1 & _ & _).
  apply open_tag_inv in H1 as (a & r & -> & _ & _).
  assert (contains (lit "<note")
            (pre ++ lit "<note" ++ a ++ [">"%char] ++ r) = true) as Ht.
  { apply contains_spec. by exists pre, (a ++ [">"%char] ++ r). }
  rewrite Ht in Hc. discriminate.
Qed.

Lemma extract_verse_lookup (pn : list ascii) (ch : Z) (st : Mapping * Z)
    (v : Z) (raw : list ascii) (key' : Key) :
  (Sword.extract_verse pn ch st (v, raw)).1 !! key'
  = if decide ((pn, ch, v) = key')
    then app_notes (st.1 !! key') (verse_notes raw)
    else st.1 !! key'.
Proof.
  unfold Sword.extract_verse, verse_notes.
  destruct raw as [|c raw].
  - by destruct (decide ((pn, ch, v) = key')).
  - destruct (contains (lit "<note") (c :: raw)) eqn:E; cbn [negb].
    + apply extract_notes_lookup.
    + rewrite no_note_no_findall by done.
      by destruct (decide ((pn, ch, v) = key')).
Qed.

(** A loop over the items of a list numbered from [m]: what is observed of
    the state changes at the item numbered [k] only. *)
Lemma fold_numbered {St X O} (f : St -> Z * X -> St) (obs : St -> O)
    (upd : X -> O -> O) (k : Z) :
  (forall i st x,
     obs (f st (i, x)) = if decide (i = k) then upd x (obs st) else obs st) ->
  forall l m st,
    obs (fold_left f (zip (seqZ m (Z.of_nat (length l))) l) st)
    = match (if decide (m <= k) then l !! Z.to_nat (k - m) else None) with
      | Some x => upd x (obs st)
      | None => obs st
      end.
Proof.
  intros Hf. induction l as [|x l IH]; intros m st.
  - cbn. by destruct (decide (m <= k)).
  - cbn [length]. rewrite Nat2Z.inj_succ, seqZ_cons by lia.
    replace (Z.pred (Z.succ (Z.of_nat (length l)))) with (Z.of_nat (length l))
      by lia.
    cbn [zip zip_with fold_left]. rewrite IH, Hf.
    destruct (decide (m = k)) as [Hmk|Hne];
      destruct (decide (Z.succ m <= k)) as [Hle|Hgt];
      destruct (decide (m <= k)) as [Hle'|Hgt']; try lia.
    + subst m. by replace (Z.to_nat (k - k)) with 0%nat by lia.
    + replace (Z.to_nat (k - m)) with (S (Z.to_nat (k - Z.succ m))) by lia.
      done.
    + done.
Qed.

Lemma extract_chapter_lookup (pn : list ascii) (st : Mapping * Z) (c : Z)
    (raws : list (list ascii)) (bn : list ascii) (ch v : Z) :
  (Sword.extract_chapter pn st (c, raws)).1 !! (bn, ch, v)
  = if decide (pn = bn /\ c = ch)
    then match nth_from_1 raws v with
         | Some raw => app_notes (st.1 !! (bn, ch, v)) (verse_notes raw)
         | None => st.1 !! (bn, ch, v)
         end
    else st.1 !! (bn, ch, v).
Proof.
  unfold Sword.extract_chapter.
  rewrite (fold_numbered (Sword.extract_verse pn c)
             (fun st : Mapping * Z => st.1 !! (bn, ch, v))
             (fun raw o =>
                if decide (pn = bn /\ c = ch)
                then app_notes o (verse_notes raw) else o) v).
  - unfold nth_from_1.
    destruct (decide (1 <= v)); [|by destruct (decide (pn = bn /\ c = ch))].
    destruct (raws !! Z.to_nat (v - 1));
      by destruct (decide (pn = bn /\ c = ch)).
  - intros i st' raw. rewrite extract_verse_lookup.
    destruct (decide ((pn, c, i) = (bn, ch, v))) as [E|Hne].
    + injection E as -> -> ->.
      rewrite decide_True by done. by rewrite decide_True by done.
    + destruct (decide (i = v)) as [->|Hi]; [|done].
      rewrite decide_False; [done|]. intros [-> ->]. by apply Hne.
Qed.

Lemma extract_book_lookup (st : Mapping * Z) (b : Sword.SwordBook)
    (bn : list ascii) (ch v : Z) :
  (Sword.extract_book st b).1 !! (bn, ch, v)
  = if decide (Sword.sw_name b = bn)
    then match raw_at b ch v with
         | Some raw => app_notes (st.1 !! (bn, ch, v)) (verse_notes raw)
         | None => st.1 !! (bn, ch, v)
         end
    else st.1 !! (bn, ch, v).
Proof.
  unfold Sword.extract_book, Sword.SWORD_TO_PROJECT_BOOK_NAMES.
  rewrite lookup_empty. cbn [default].
  rewrite (fold_numbered (Sword.extract_chapter (Sword.sw_name b))
             (fun st : Mapping * Z => st.1 !! (bn, ch, v))
             (fun raws o =>
                if decide (Sword.sw_name b = bn)
                then match nth_from_1 raws v with
                     | Some raw => app_notes o (verse_notes raw)
                     | None => o
                     end
                else o) ch).
  - unfold raw_at, nth_from_1.
    destruct (decide (1 <= ch));
      [|by destruct (decide (Sword.sw_name b = bn))].
    destruct (Sword.sw_chapters b !! Z.to_nat (ch - 1)); cbn;
      by destruct (decide (Sword.sw_name b = bn)).
  - intros i st' raws. rewrite extract_chapter_lookup.
    destruct (decide (i = ch)) as [->|Hi].
    + destruct (decide (Sword.sw_name b = bn)) as [E|Hne].
      * by rewrite decide_True by done.
      * rewrite decide_False; [done|]. by intros [? _].
    + rewrite decide_False; [done|]. by intros [_ ?].
Qed.

Lemma extract_books_frame (bs : list Sword.SwordBook) (st : Mapping * Z)
    (bn : list ascii) (ch v : Z) :
  (forall b, b ∈ bs -> Sword.sw_name b <> bn) ->
  (fold_left Sword.extract_book bs st).1 !! (bn, ch, v) = st.1 !! (bn, ch, v).
Proof.
  revert st. induction bs as [|b bs IH]; intros st Hbs; [done|].
  cbn [fold_left]. rewrite IH by (intros b' Hb'; apply Hbs; by right).
  rewrite extract_book_lookup, decide_False; [done|]. apply Hbs. left.
Qed.

(** X8.  What the SWORD extractor returns, for a module whose books have
    distinct names.  Under the key of a verse of a book of the module stands
    the list of the notes of the verse's raw text, parsed, in the order they
    stand in the text; a verse without note has no key, and neither has a
    chapter or verse number the book does not have.  A key whose name is the
    name of no book of the module is not in the mapping. *)
Theorem sword_extract_lookup (all_books : list Sword.SwordBook) :
  NoDup (map Sword.sw_name all_books) ->
  (forall b ch v,
     b ∈ all_books ->
     Sword.extract_footnotes all_books !! (Sword.sw_name b, ch, v)
     = match raw_at b ch v with
       | Some raw =>
           match verse_notes raw with
           | [] => None
           | notes => Some notes
           end
       | None => None
       end)
  /\ (forall bn ch v,
        (forall b, b ∈ all_books -> Sword.sw_name b <> bn) ->
        Sword.extract_footnotes all_books !! (bn, ch, v) = None).
Proof.
  intros Hnd. unfold Sword.extract_footnotes. split.
  - intros b ch v Hb.
    apply list_elem_of_split in Hb as (l1 & l2 & ->).
    rewrite fmap_app, fmap_cons in Hnd.
    apply NoDup_app in Hnd as (_ & H1 & H2).
    apply NoDup_cons in H2 as [H2 _].
    rewrite fold_left_app. cbn [fold_left].
    rewrite extract_books_frame.
    + rewrite extract_book_lookup, decide_True by done.
      rewrite extract_books_frame.
      * cbn [fst]. rewrite lookup_empty.
        destruct (raw_at b ch v) as [raw|]; [|done].
        by destruct (verse_notes raw).
      * intros b' Hb' E. apply (H1 (Sword.sw_name b)).
        -- apply list_elem_of_fmap. by exists b'.
        -- left.
    + intros b' Hb' E. apply H2. apply list_elem_of_fmap. by exists b'.
  - intros bn ch v Hbn. by rewrite extract_books_frame.
Qed.

Lemma sword_extract_lookup_witness :
  NoDup (map Sword.sw_name sample_module)
  /\ Sword.extract_footnotes sample_module !! (lit "Enoch", 1, 1)
     = Some [mkFootnote (lit "walked") (lit "Or, went") alternate].
Proof.
  assert (NoDup (map Sword.sw_name sample_module)) as Hnd.
  { apply NoDup_cons. split; [apply not_elem_of_nil|apply NoDup_nil_2]. }
  split; [exact Hnd|].
  destruct (sword_extract_lookup sample_module Hnd) as [H _].
  etransitivity.
  - apply (H (Sword.mkSwordBook (lit "Enoch")
       [[lit "walked<note n=1><catchWord>walked</catchWord>: Or, went</note> on"]])
       1 1). left.
  - vm_compute. reflexivity.
Defined.

(** ** Where the footnotes of the MySword extractor come from *)

Lemma re_scan_text m skip s :
  flat_map tok_text (re_scan m skip s) = drop skip s.
Proof.
  revert skip. induction s as [|c s IH]; intros skip.
  - by destruct skip.
  - destruct skip as [|k]; cbn [re_scan].
    + destruct (m (c :: s)) as [[|k]|]; cbn [flat_map tok_text].
      * by rewrite IH.
      * rewrite IH. change (drop k s) with (drop (S k) (c :: s)).
        apply take_drop.
      * by rewrite IH.
    + apply IH.
Qed.

Lemma split_toks_concat cur ts :
  concat (split_toks cur ts) = cur ++ flat_map tok_text ts.
Proof.
  revert cur. induction ts as [|[c|h] ts IH]; intros cur; cbn.
  - done.
  - by rewrite IH, <- app_assoc.
  - by rewrite IH.
Qed.

(** The parts [re.split] returns, joined, give the text back. *)
Lemma re_split_concat m s : concat (re_split m s) = s.
Proof. unfold re_split. by rewrite split_toks_concat, re_scan_text. Qed.

Lemma re_split_part_occurs m s part : part ∈ re_split m s -> occurs part s.
Proof.
  intros Hin. apply list_elem_of_split in Hin as (l1 & l2 & E).
  exists (concat l1), (concat l2).
  by rewrite <- (re_split_concat m s), E, concat_app.
Qed.

Lemma occurs_trans a b c : occurs a b -> occurs b c -> occurs a c.
Proof.
  intros (p1 & q1 & ->) (p2 & q2 & ->).
  exists (p2 ++ p1), (q1 ++ q2). by rewrite <- !app_assoc.
Qed.

(** A match of the note pattern at the start of a part: the markers around
    a text without line feed, which is the group of the match. *)
Lemma RF_match_inv part h :
  re_match MySword.RF_note part = Some h ->
  exists raw,
    h = lit "<RF>" ++ raw ++ lit "<Rf>"
    /\ occurs h part
    /\ Forall (fun c => is_dot c = true) raw
    /\ group1 (lit "<RF>") (lit "<Rf>") h = raw.
Proof.
  unfold re_match, MySword.RF_note.
  destruct (m_seq _ _ part) as [n|] eqn:E; [|discriminate].
  intros [= <-].
  apply m_seq_inv in E as (n1 & n2 & H1 & H2 & ->).
  apply m_lit_inv in H1 as [-> [r ->]].
  rewrite drop_app_length in H2.
  apply m_lazy_until_sound in H2 as (raw & rest & -> & -> & Hraw).
  exists raw.
  assert (take (length (lit "<RF>") + (length raw + length (lit "<Rf>")))
            (lit "<RF>" ++ raw ++ lit "<Rf>" ++ rest)
          = lit "<RF>" ++ raw ++ lit "<Rf>") as ->.
  { rewrite !app_assoc. apply take_app_length'.
    rewrite !length_app. lia. }
  split; [done|]. split; [by exists [], rest; rewrite <- !app_assoc|].
  split; [done|].
  unfold group1. rewrite drop_app_length, !length_app.
  replace (length (lit "<RF>") + (length raw + length (lit "<Rf>"))
           - length (lit "<RF>") - length (lit "<Rf>"))%nat
    with (length raw) by lia.
  by rewrite take_app_length.
Qed.

Lemma append_footnote_all (Q : Key -> Footnote -> Prop) fs key fn :
  Q key fn ->
  (forall k fns f, fs !! k = Some fns -> f ∈ fns -> Q k f) ->
  forall k fns f,
    append_footnote fs key fn !! k = Some fns -> f ∈ fns -> Q k f.
Proof.
  intros Hq Hfs k fns f. rewrite append_footnote_lookup.
  destruct (decide (key = k)) as [<-|Hne]; [|apply Hfs].
  intros [= <-] Hf. apply elem_of_app in Hf as [Hf|Hf].
  - destruct (fs !! key) as [l|] eqn:E; cbn in Hf.
    + by apply (Hfs key l).
    + by apply elem_of_nil in Hf.
  - by apply list_elem_of_singleton in Hf as ->.
Qed.

Lemma mysword_provenance cursor key fns fn :
  MySword.extract_footnotes_from_mysword cursor !! key = Some fns ->
  fn ∈ fns ->
  exists r tsf raw,
    r ∈ cursor
    /\ MySword.BOOK_NAMES !! MySword.book_num r = Some key.1.1
    /\ MySword.row_chapter r = key.1.2
    /\ MySword.row_verse r = key.2
    /\ occurs (lit "<RF>" ++ raw ++ lit "<Rf>") (MySword.scripture r)
    /\ Forall (fun c => is_dot c = true) raw
    /\ occurs tsf (MySword.scripture r)
    /\ fn = mysword_footnote tsf raw.
Proof.
  unfold MySword.extract_footnotes_from_mysword. revert key fns fn.
  apply (mysword_loop_invariant
           (fun fs _ => forall key fns fn,
              fs !! key = Some fns -> fn ∈ fns ->
              exists r tsf raw,
                r ∈ cursor
                /\ MySword.BOOK_NAMES !! MySword.book_num r = Some key.1.1
                /\ MySword.row_chapter r = key.1.2
                /\ MySword.row_verse r = key.2
                /\ occurs (lit "<RF>" ++ raw ++ lit "<Rf>")
                     (MySword.scripture r)
                /\ Forall (fun c => is_dot c = true) raw
                /\ occurs tsf (MySword.scripture r)
                /\ fn = mysword_footnote tsf raw)).
  - intros key fns fn Hl. by rewrite lookup_empty in Hl.
  - intros fs n r bn tsf part h Hr Hbn Ht Hpart Hh Hfs.
    apply append_footnote_all; [|exact Hfs].
    apply RF_match_inv in Hh as (raw & -> & Hocc & Hraw & ->).
    exists r, tsf, raw. repeat (split; [done|]).
    split; [|split; [done|split; [|done]]].
    + apply (occurs_trans _ part); [done|].
      by apply (re_split_part_occurs MySword.RF_note).
    + destruct Ht as [->|Ht].
      * by exists [], (MySword.scripture r).
      * by apply (re_split_part_occurs MySword.RF_note).
Qed.

(** X9.  Every footnote of the mapping the MySword extractor returns was made
    from a note of a row of the cursor whose book number the table knows:
    the key is the row's book name, chapter and verse; the note stands in
    the row's text between [<RF>] and [<Rf>] and holds no line feed; the
    catch word was taken from a piece of the same text.  So the note text is
    a sequence of words joined by single spaces, the catch word is empty or
    one word, and the type is the classification of the cleaned note
    text. *)
Theorem mysword_footnotes_from_notes (cursor : list MySword.Row)
    (key : Key) (fns : list Footnote) (fn : Footnote) :
  MySword.extract_footnotes_from_mysword cursor !! key = Some fns ->
  fn ∈ fns ->
  (exists r tsf raw,
     r ∈ cursor
     /\ MySword.BOOK_NAMES !! MySword.book_num r = Some key.1.1
     /\ MySword.row_chapter r = key.1.2
     /\ MySword.row_verse r = key.2
     /\ occurs (lit "<RF>" ++ raw ++ lit "<Rf>") (MySword.scripture r)
     /\ Forall (fun c => is_dot c = true) raw
     /\ occurs tsf (MySword.scripture r)
     /\ catch_word fn = MySword.extract_catch_word tsf
     /\ note_text fn = MySword.clean_note_text raw)
  /\ note_type fn = MySword.classify_note_type (note_text fn)
  /\ (catch_word fn = [] \/ is_word (catch_word fn))
  /\ (exists words, Forall is_word words /\ note_text fn = join_words words).
Proof.
  intros Hl Hfn.
  destruct (mysword_provenance cursor key fns fn Hl Hfn)
    as (r & tsf & raw & Hr & Hbn & Hch & Hv & Hocc & Hraw & Ht & ->).
  split; [|split; [|split]].
  - exists r, tsf, raw. repeat (split; [done|]). done.
  - reflexivity.
  - cbn [mysword_footnote catch_word].
    assert (MySword.extract_catch_word tsf
            = catch_word_of MySword.strip_markup tsf) as ->.
    { unfold MySword.extract_catch_word, catch_word_of. cbv zeta.
      destruct (py_rstrip_chars _ _) as [|c s] eqn:E; [done|].
      by destruct (py_split (c :: s)). }
    apply last_word_is_word, py_split_words.
  - eexists. split; [apply py_split_words|].
    cbn [mysword_footnote note_text].
    unfold MySword.clean_note_text. cbv zeta.
    apply collapse_spaces_words.
Qed.

Lemma mysword_footnotes_from_notes_witness :
  exists r tsf raw,
    r ∈ sample_cursor
    /\ MySword.BOOK_NAMES !! MySword.book_num r = Some (lit "Matthew")
    /\ MySword.row_chapter r = 1
    /\ MySword.row_verse r = 1
    /\ occurs (lit "<RF>" ++ raw ++ lit "<Rf>") (MySword.scripture r)
    /\ Forall (fun c => is_dot c = true) raw
    /\ occurs tsf (MySword.scripture r)
    /\ catch_word sample_note = MySword.extract_catch_word tsf
    /\ note_text sample_note = MySword.clean_note_text raw.
Proof.
  refine (proj1 (mysword_footnotes_from_notes sample_cursor
                   (lit "Matthew", 1, 1) [sample_note] sample_note _ _)).
  - vm_compute. reflexivity.
  - left.
Defined.

Lemma book_names_range n bn :
  MySword.BOOK_NAMES !! n = Some bn -> 1 <= n <= 66.
Proof.
  intros Hn.
  assert (n ∈ (map_to_list MySword.BOOK_NAMES).*1) as Hin.
  { apply list_elem_of_fmap. exists (n, bn). split; [done|].
    by apply elem_of_map_to_list. }
  assert (forallb (fun k => (1 <=? k) && (k <=? 66))
            (map_to_list MySword.BOOK_NAMES).*1 = true) as Hall
    by (vm_compute; reflexivity).
  rewrite forallb_forall in Hall.
  apply list_elem_of_In, Hall in Hin. lia.
Qed.

Lemma mysword_nt_keys cursor key :
  (forall r, r ∈ cursor -> 40 <= MySword.book_num r) ->
  is_Some (MySword.extract_footnotes_from_mysword cursor !! key) ->
  key.1.1 ∈ MySword.nt_book_names.
Proof.
  intros Hnt [fns Hl].
  assert (nonempty_values (MySword.extract_footnotes_from_mysword cursor))
    as Hne.
  { apply (mysword_invariant nonempty_values).
    - intros k l Hk. by rewrite lookup_empty in Hk.
    - intros fs bn ch v fn _. apply append_footnote_nonempty. }
  destruct fns as [|fn fns]; [by destruct (Hne _ _ Hl)|].
  destruct (mysword_provenance cursor key (fn :: fns) fn Hl)
    as (r & _ & _ & Hr & Hbn & _); [left|].
  apply nt_book_names_spec. exists (MySword.book_num r).
  split; [|done]. pose proof (book_names_range _ _ Hbn).
  specialize (Hnt r Hr). lia.
Qed.

Lemma add_book_no_key fs b :
  (forall ch v, fs !! (name b, ch, v) = None) -> Sword.add_book fs b = b.
Proof.
  intros Hno. destruct b as [bn cs]. unfold Sword.add_book. cbn in *.
  f_equal. rewrite <- (map_id cs) at 2. apply map_ext_elem.
  intros [ch vs] _. unfold Sword.add_chapter. cbn. f_equal.
  rewrite <- (map_id vs) at 2. apply map_ext_elem.
  intros v _. unfold Sword.add_verse. by rewrite Hno.
Qed.

Lemma partial_merge_is_add_nt_keys data fs :
  (forall key, is_Some (fs !! key) -> key.1.1 ∈ MySword.nt_book_names) ->
  MySword.merge_footnotes_into_json data fs true
  = Sword.add_footnotes_to_json data fs.
Proof.
  intros Hkeys.
  unfold MySword.merge_footnotes_into_json, Sword.add_footnotes_to_json.
  assert (map (MySword.merge_book fs true) (books data)
          = map (Sword.add_book fs) (books data)) as ->; [|reflexivity].
  apply map_ext_elem. intros b Hb. unfold MySword.merge_book.
  destruct (bool_decide (name b ∈ MySword.nt_book_names)) eqn:E; cbn.
  - reflexivity.
  - symmetry. apply add_book_no_key. intros ch v.
    destruct (fs !! (name b, ch, v)) as [l|] eqn:El; [|done].
    apply bool_decide_eq_false in E. destruct E.
    apply (Hkeys (name b, ch, v)). by rewrite El.
Qed.

(** X10.  The default run of the MySword script.  Its query returns rows of books
    40 and above only; then every key of the extracted mapping names a New
    Testament book, so the book filter of the partial merge drops nothing
    that was extracted, and the merge returns what [add_footnotes_to_json]
    of the SWORD script returns for the same document and mapping. *)
Theorem nt_extraction_merge (cursor : list MySword.Row) :
  (forall r, r ∈ cursor -> 40 <= MySword.book_num r) ->
  (forall key,
     is_Some (MySword.extract_footnotes_from_mysword cursor !! key) ->
     key.1.1 ∈ MySword.nt_book_names)
  /\ (forall data,
        MySword.merge_footnotes_into_json data
          (MySword.extract_footnotes_from_mysword cursor) true
        = Sword.add_footnotes_to_json data
            (MySword.extract_footnotes_from_mysword cursor)).
Proof.
  intros Hnt. split.
  - intros key. by apply mysword_nt_keys.
  - intros data. apply partial_merge_is_add_nt_keys.
    intros key. by apply mysword_nt_keys.
Qed.

Lemma nt_extraction_merge_witness :
  (forall r, r ∈ List.filter known_row sample_cursor ->
             40 <= MySword.book_num r)
  /\ MySword.merge_footnotes_into_json sample_document
       (MySword.extract_footnotes_from_mysword
          (List.filter known_row sample_cursor)) true
     = Sword.add_footnotes_to_json sample_document
         (MySword.extract_footnotes_from_mysword
            (List.filter known_row sample_cursor)).
Proof.
  assert (forall r, r ∈ List.filter known_row sample_cursor ->
                    40 <= MySword.book_num r) as H.
  { intros r Hr.
    assert (List.filter known_row sample_cursor
            = [MySword.mkRow 40 1 1
                 (lit "The <FI>book<Fi><RF>Or, <i>roll</i><Rf> of")]) as E
      by (vm_compute; reflexivity).
    rewrite E in Hr. apply list_elem_of_singleton in Hr as ->. cbn. lia. }
  split; [exact H|].
  exact (proj2 (nt_extraction_merge _ H) sample_document).
Defined.

(** ** A verse text with inline notes *)

(** A literal whose first character stands nowhere else in it cannot start
    inside a text that does not hold it, whether the text ends there or is
    followed by that character. *)
Lemma starts_late (a : ascii) (p' t r : list ascii) :
  a ∉ p' -> t <> [] -> ~ occurs (a :: p') t ->
  r = [] \/ (exists r', r = a :: r') ->
  starts_with (a :: p') (t ++ r) = false.
Proof.
  intros Ha Ht Hocc Hr.
  destruct (starts_with (a :: p') (t ++ r)) eqn:E; [|done].
  apply starts_with_spec in E as [z E].
  apply app_eq_inv in E as [(k & -> & _)|(k & Hp & Hk)].
  - destruct Hocc. by exists [], k.
  - destruct t as [|c t]; [done|]. injection Hp as <- ->.
    destruct k as [|d k].
    + destruct Hocc. exists [], []. by rewrite !app_nil_r.
    + destruct Hr as [->|[r' ->]]; [discriminate|].
      injection Hk as <- _. destruct Ha. apply elem_of_app. right. left.
Qed.

Lemma occurs_tail m c t : ~ occurs m (c :: t) -> ~ occurs m t.
Proof. intros H (pre & post & ->). apply H. by exists (c :: pre), post. Qed.

Lemma lt_not_in_RF : "<"%char ∉ lit "RF>".
Proof.
  intros H. change (lit "RF>") with ["R"; "F"; ">"]%char in H.
  repeat (apply elem_of_cons in H as [H|H]; [discriminate|]).
  by apply elem_of_nil in H.
Qed.

Lemma lt_not_in_Rf : "<"%char ∉ lit "Rf>".
Proof.
  intros H. change (lit "Rf>") with ["R"; "f"; ">"]%char in H.
  repeat (apply elem_of_cons in H as [H|H]; [discriminate|]).
  by apply elem_of_nil in H.
Qed.

Lemma RF_note_text t r :
  plain_text t -> t <> [] ->
  r = [] \/ (exists r', r = "<"%char :: r') ->
  MySword.RF_note (t ++ r) = None.
Proof.
  intros Hp Ht Hr. unfold MySword.RF_note. apply m_seq_none.
  unfold m_lit. change (lit "<RF>") with ("<"%char :: lit "RF>").
  by rewrite (starts_late _ _ _ _ lt_not_in_RF Ht Hp Hr).
Qed.

Lemma RF_note_empty : MySword.RF_note [] = None.
Proof. reflexivity. Qed.

Lemma re_scan_text_part t r :
  plain_text t ->
  r = [] \/ (exists r', r = "<"%char :: r') ->
  re_scan MySword.RF_note 0 (t ++ r)
  = map Chr t ++ re_scan MySword.RF_note 0 r.
Proof.
  intros Hp Hr. induction t as [|c t IH]; [done|].
  change ((c :: t) ++ r) with (c :: (t ++ r)).
  rewrite re_scan_miss.
  - cbn [map app]. f_equal. apply IH. by apply (occurs_tail _ c).
  - by apply (RF_note_text (c :: t) r).
Qed.

Lemma lazy_until_Rf n rest :
  note_body n ->
  m_lazy_until (lit "<Rf>") (n ++ lit "<Rf>" ++ rest)
  = Some (length n + length (lit "<Rf>"))%nat.
Proof.
  intros [Hdot Hocc]. induction Hdot as [|c n Hc Hn IH].
  - cbn [app length Nat.add].
    destruct (lit "<Rf>" ++ rest) as [|d s] eqn:E; [discriminate E|].
    cbn [m_lazy_until]. by rewrite <- E, starts_with_app.
  - change ((c :: n) ++ lit "<Rf>" ++ rest)
      with (c :: (n ++ lit "<Rf>" ++ rest)).
    cbn [m_lazy_until].
    change (c :: (n ++ lit "<Rf>" ++ rest))
      with ((c :: n) ++ lit "<Rf>" ++ rest).
    change (lit "<Rf>") with ("<"%char :: lit "Rf>") at 1.
    rewrite (starts_late _ _ (c :: n) _ lt_not_in_Rf); [|done|done|].
    + rewrite Hc, IH by (by apply (occurs_tail _ c)). done.
    + right. by exists (lit "Rf>" ++ rest).
Qed.

Lemma RF_note_note n rest :
  note_body n ->
  MySword.RF_note (lit "<RF>" ++ n ++ lit "<Rf>" ++ rest)
  = Some (length (lit "<RF>" ++ n ++ lit "<Rf>")).
Proof.
  intros Hn. unfold MySword.RF_note, m_seq, m_lit.
  rewrite starts_with_app, drop_app_length, lazy_until_Rf by done.
  by rewrite !length_app.
Qed.

Lemma split_toks_chars cur t ts :
  split_toks cur (map Chr t ++ ts) = split_toks (cur ++ t) ts.
Proof.
  revert cur. induction t as [|c t IH]; intros cur; cbn.
  - by rewrite app_nil_r.
  - rewrite IH. by rewrite <- app_assoc.
Qed.

Lemma re_scan_with_notes t0 ns :
  plain_text t0 ->
  Forall (fun nt => note_body nt.1 /\ plain_text nt.2) ns ->
  re_scan MySword.RF_note 0 (with_notes t0 ns)
  = map Chr t0
    ++ flat_map (fun nt => Hit (lit "<RF>" ++ nt.1 ++ lit "<Rf>")
                             :: map Chr nt.2) ns.
Proof.
  intros Hp Hns. revert t0 Hp.
  induction Hns as [|[n t] ns [Hn Ht] Hns IH]; intros t0 Hp;
    unfold with_notes; cbn [flat_map fst snd].
  - by rewrite re_scan_text_part by (done || by left).
  - rewrite re_scan_text_part; [|done|right; by eexists]. f_equal.
    replace ((lit "<RF>" ++ n ++ lit "<Rf>" ++ t)
             ++ flat_map (fun nt => lit "<RF>" ++ nt.1 ++ lit "<Rf>" ++ nt.2)
                  ns)
      with ((lit "<RF>" ++ n ++ lit "<Rf>") ++ with_notes t ns)
      by (unfold with_notes; by rewrite <- !app_assoc).
    rewrite (re_scan_take _ _ _ (length (lit "RF>" ++ n ++ lit "<Rf>"))).
    + cbn [app]. f_equal. by apply IH.
    + done.
    + rewrite <- !app_assoc. by rewrite RF_note_note.
Qed.

Lemma split_parts cur t0 ns :
  split_toks cur
    (map Chr t0
     ++ flat_map (fun nt => Hit (lit "<RF>" ++ nt.1 ++ lit "<Rf>")
                              :: map Chr nt.2) ns)
  = parts_of (cur ++ t0) ns.
Proof.
  revert cur t0. induction ns as [|[n t] ns IH]; intros cur t0;
    rewrite split_toks_chars; cbn [flat_map parts_of split_toks fst snd].
  - done.
  - cbn [app split_toks]. do 2 f_equal. apply (IH [] t).
Qed.

(** The text of a verse with inline notes is split into its texts and its
    notes. *)
Lemma re_split_with_notes t0 ns :
  plain_text t0 ->
  Forall (fun nt => note_body nt.1 /\ plain_text nt.2) ns ->
  re_split MySword.RF_note (with_notes t0 ns) = parts_of t0 ns.
Proof.
  intros Hp Hns. unfold re_split.
  rewrite re_scan_with_notes by done. apply (split_parts [] t0).
Qed.

Lemma extract_part_text key fs total tsf t :
  plain_text t ->
  MySword.extract_part key (fs, total, tsf) t = (fs, total, t).
Proof.
  intros Hp. unfold MySword.extract_part, re_match.
  destruct t as [|c t]; [done|].
  rewrite <- (app_nil_r (c :: t)) at 1.
  rewrite RF_note_text; [done..|by left].
Qed.

Lemma extract_part_note key fs total tsf n :
  note_body n ->
  MySword.extract_part key (fs, total, tsf) (lit "<RF>" ++ n ++ lit "<Rf>")
  = (append_footnote fs key (mysword_footnote tsf n), total + 1, tsf).
Proof.
  intros Hn. unfold MySword.extract_part, re_match.
  pose proof (RF_note_note n [] Hn) as H. rewrite app_nil_r in H.
  rewrite H, firstn_all. unfold group1, mysword_footnote.
  rewrite drop_app_length, !length_app.
  replace (length (lit "<RF>") + (length n + length (lit "<Rf>"))
           - length (lit "<RF>") - length (lit "<Rf>"))%nat
    with (length n) by lia.
  by rewrite take_app_length.
Qed.

Lemma extract_parts_of key t0 ns fs total tsf :
  plain_text t0 ->
  Forall (fun nt => note_body nt.1 /\ plain_text nt.2) ns ->
  (fold_left (MySword.extract_part key) (parts_of t0 ns) (fs, total, tsf)).1
  = (fold_left (fun fs fn => append_footnote fs key fn)
       (notes_footnotes t0 ns) fs,
     total + Z.of_nat (length ns)).
Proof.
  intros Hp Hns. revert t0 fs total tsf Hp.
  induction Hns as [|[n t] ns [Hn Ht] Hns IH]; intros t0 fs total tsf Hp;
    cbn [parts_of notes_footnotes fold_left fst snd].
  - rewrite extract_part_text by done. cbn. f_equal. lia.
  - rewrite extract_part_text, extract_part_note by done.
    rewrite IH by done. f_equal. cbn [length]. lia.
Qed.

Lemma fold_append_lookup (key : Key) (l : list Footnote) (fs : Mapping)
    (key' : Key) :
  fold_left (fun fs fn => append_footnote fs key fn) l fs !! key'
  = if decide (key = key') then app_notes (fs !! key') l else fs !! key'.
Proof.
  revert fs. induction l as [|x l IH]; intros fs; cbn [fold_left].
  - by destruct (decide (key = key')).
  - rewrite IH, append_footnote_lookup.
    destruct (decide (key = key')) as [->|Hne]; [|done].
    cbn [app_notes]. destruct l; cbn.
    + done.
    + by rewrite <- app_assoc.
Qed.

Lemma not_occurs_by_contains m t : contains m t = false -> ~ occurs m t.
Proof.
  intros Hc Ho. apply contains_spec in Ho. rewrite Ho in Hc. discriminate.
Qed.

Lemma note_body_by_check n :
  forallb is_dot n && negb (contains (lit "<Rf>") n) = true -> note_body n.
Proof.
  intros H. apply andb_true_iff in H as [Hd Hc]. split.
  - apply Forall_forall. intros c Hc'. rewrite forallb_forall in Hd.
    apply Hd. by apply list_elem_of_In.
  - apply not_occurs_by_contains. by destruct (contains _ n).
Qed.

(** X11.  What the MySword extractor does with one row.  Let the row's book
    number be in the table and its text be a text [t0] followed by notes
    [<RF>n<Rf>], each followed by a text [t], where the texts hold no [<RF>]
    and the notes hold neither a line feed nor [<Rf>].  Then the row adds
    one footnote per note, in the order of the notes, under the key of the
    row and under no other key; the counter grows by the number of notes.
    The catch word of a note is resolved from the text that stands between
    the note before it and the note itself, and from the start of the verse
    for the first note only. *)
Theorem mysword_row_with_notes (st : MySword.ExtractState) (r : MySword.Row)
    (bn t0 : list ascii) (ns : list (list ascii * list ascii)) :
  MySword.BOOK_NAMES !! MySword.book_num r = Some bn ->
  MySword.scripture r = with_notes t0 ns ->
  plain_text t0 ->
  Forall (fun nt => note_body nt.1 /\ plain_text nt.2) ns ->
  let st' := MySword.extract_row st r in
  let key := (bn, MySword.row_chapter r, MySword.row_verse r) in
  MySword.ex_footnotes st' !! key
  = app_notes (MySword.ex_footnotes st !! key) (notes_footnotes t0 ns)
  /\ (forall key',
        key' <> key ->
        MySword.ex_footnotes st' !! key' = MySword.ex_footnotes st !! key')
  /\ MySword.total_notes st' = MySword.total_notes st + Z.of_nat (length ns)
  /\ MySword.warnings st' = MySword.warnings st.
Proof.
  intros Hbn Hs Hp Hns st' key. subst st'. unfold MySword.extract_row.
  rewrite Hbn, Hs, re_split_with_notes by done. fold key.
  pose proof (extract_parts_of key t0 ns (MySword.ex_footnotes st)
                (MySword.total_notes st) [] Hp Hns) as E.
  destruct (fold_left (MySword.extract_part key) _ _) as [[fs total] tsf].
  cbn [fst] in E. injection E as -> ->.
  cbn [MySword.ex_footnotes MySword.total_notes MySword.warnings].
  split; [|split; [|done]].
  - by rewrite fold_append_lookup, decide_True.
  - intros key' Hne. by rewrite fold_append_lookup, decide_False.
Qed.

Lemma mysword_row_with_notes_witness :
  MySword.ex_footnotes
    (MySword.extract_row (MySword.mkExtractState ∅ 0 []) sample_row)
  !! (lit "John", 1, 1)
  = Some [mkFootnote (lit "beginning") (lit "Gr. start") literal;
          mkFootnote (lit "Word") (lit "Or, reason") alternate].
Proof.
  refine (eq_trans
            (proj1 (mysword_row_with_notes (MySword.mkExtractState ∅ 0 [])
                      sample_row (lit "John") (lit "In the <FI>beginning<Fi>")
                      [(lit "Gr. <i>start</i>", lit " was the Word,");
                       (lit "Or, reason", lit " and")] _ _ _ _)) _).
  - vm_compute. reflexivity.
  - reflexivity.
  - apply not_occurs_by_contains. vm_compute. reflexivity.
  - repeat (apply Forall_cons; split;
              [split;
               [apply note_body_by_check; vm_compute; reflexivity
               |apply not_occurs_by_contains; vm_compute; reflexivity]|]).
    apply Forall_nil_2.
  - vm_compute. reflexivity.
Defined.

(** ** A note that runs over a line feed *)

Lemma starts_late_other (a : ascii) (p' t r : list ascii) (d : ascii) :
  a ∉ p' -> d ∉ p' -> t <> [] -> ~ occurs (a :: p') t ->
  starts_with (a :: p') (t ++ d :: r) = false.
Proof.
  intros Ha Hd Ht Hocc.
  destruct (starts_with (a :: p') (t ++ d :: r)) eqn:E; [|done].
  apply starts_with_spec in E as [z E].
  apply app_eq_inv in E as [(k & -> & _)|(k & Hp & Hk)].
  - destruct Hocc. by exists [], k.
  - destruct t as [|c t]; [done|]. injection Hp as <- ->.
    destruct k as [|e k].
    + destruct Hocc. exists [], []. by rewrite !app_nil_r.
    + injection Hk as <- _. destruct Hd. apply elem_of_app. right. left.
Qed.

Lemma line_feed_not_in_Rf : line_feed ∉ lit "Rf>".
Proof.
  intros H. change (lit "Rf>") with ["R"; "f"; ">"]%char in H.
  repeat (apply elem_of_cons in H as [H|H]; [discriminate|]).
  by apply elem_of_nil in H.
Qed.

Lemma lazy_until_line_feed w rest :
  note_body w -> m_lazy_until (lit "<Rf>") (w ++ line_feed :: rest) = None.
Proof.
  intros [Hdot Hocc]. induction Hdot as [|c w Hc Hw IH].
  - reflexivity.
  - change ((c :: w) ++ line_feed :: rest)
      with (c :: (w ++ line_feed :: rest)).
    cbn [m_lazy_until].
    change (c :: (w ++ line_feed :: rest))
      with ((c :: w) ++ line_feed :: rest).
    change (lit "<Rf>") with ("<"%char :: lit "Rf>") at 1.
    rewrite (starts_late_other _ _ (c :: w) _ _ lt_not_in_Rf
               line_feed_not_in_Rf); [|done|done].
    rewrite Hc, IH by (by apply (occurs_tail _ c)). done.
Qed.

Lemma note_body_app a b : note_body (a ++ b) -> note_body b.
Proof.
  intros [Hd Ho]. split.
  - by apply Forall_app in Hd as [_ ?].
  - intros (pre & post & ->). apply Ho. exists (a ++ pre), post.
    by rewrite <- app_assoc.
Qed.

Lemma RF_note_line_feed w rest :
  note_body w -> MySword.RF_note (w ++ line_feed :: rest) = None.
Proof.
  intros Hw. unfold MySword.RF_note, m_seq, m_lit.
  destruct (starts_with (lit "<RF>") (w ++ line_feed :: rest)) eqn:E;
    [|done].
  apply starts_with_spec in E as [z E]. rewrite E, drop_app_length.
  apply app_eq_inv in E as [(k & -> & ->)|(k & Hp & Hk)].
  - by rewrite (lazy_until_line_feed k rest) by (by apply note_body_app in Hw).
  - destruct k as [|d k].
    + cbn [app] in Hk. subst z. rewrite app_nil_r in Hp. subst w.
      reflexivity.
    + injection Hk as <- _. exfalso.
      assert (line_feed ∈ lit "<RF>") as Hin
        by (rewrite Hp; apply elem_of_app; right; left).
      change (lit "<RF>") with ["<"; "R"; "F"; ">"]%char in Hin.
      repeat (apply elem_of_cons in Hin as [Hin|Hin]; [discriminate|]).
      by apply elem_of_nil in Hin.
Qed.

Lemma re_scan_line_feed w rest :
  note_body w -> plain_text rest ->
  re_scan MySword.RF_note 0 (w ++ line_feed :: rest)
  = map Chr (w ++ line_feed :: rest).
Proof.
  intros Hw Hrest. induction w as [|c w IH].
  - cbn [app]. rewrite re_scan_miss by reflexivity. cbn [map]. f_equal.
    rewrite <- (app_nil_r rest) at 1.
    rewrite re_scan_text_part by (done || by left).
    cbn [re_scan]. by rewrite app_nil_r.
  - change ((c :: w) ++ line_feed :: rest)
      with (c :: (w ++ line_feed :: rest)).
    rewrite re_scan_miss.
    + cbn [map]. f_equal. apply IH. by apply (note_body_app [c]).
    + by apply (RF_note_line_feed (c :: w)).
Qed.

(** X12.  A note that runs over a line feed is lost.  When the text of a row has
    no closing marker [<Rf>] before its first line feed, and no opening
    marker [<RF>] after it, the note pattern, whose [.] does not pass a line
    feed, matches nowhere: the row adds no footnote and the counter stays,
    whatever stands between the markers. *)
Theorem mysword_note_over_line_feed (st : MySword.ExtractState)
    (r : MySword.Row) (w rest : list ascii) :
  MySword.scripture r = w ++ line_feed :: rest ->
  note_body w ->
  plain_text rest ->
  MySword.ex_footnotes (MySword.extract_row st r) = MySword.ex_footnotes st
  /\ MySword.total_notes (MySword.extract_row st r) = MySword.total_notes st.
Proof.
  intros Hs Hw Hrest. unfold MySword.extract_row.
  destruct (MySword.BOOK_NAMES !! MySword.book_num r) as [bn|]; [|done].
  assert (re_split MySword.RF_note (MySword.scripture r)
          = [MySword.scripture r]) as ->.
  { unfold re_split. rewrite Hs, re_scan_line_feed by done.
    rewrite <- (app_nil_r (map Chr _)), split_toks_chars. done. }
  cbn [fold_left]. unfold MySword.extract_part, re_match.
  rewrite Hs.
  assert (MySword.RF_note (w ++ line_feed :: rest) = None) as ->; [|done].
  by apply RF_note_line_feed.
Qed.

Lemma mysword_note_over_line_feed_witness :
  MySword.ex_footnotes
    (MySword.extract_row (MySword.mkExtractState ∅ 0 []) sample_two_line_row)
  = ∅.
Proof.
  refine (proj1 (mysword_note_over_line_feed (MySword.mkExtractState ∅ 0 [])
                   sample_two_line_row (lit "word<RF>Or,")
                   (lit "term<Rf> end") _ _ _)).
  - reflexivity.
  - apply note_body_by_check. vm_compute. reflexivity.
  - apply not_occurs_by_contains. vm_compute. reflexivity.
Defined.

(** * The generators *)

(** ** Escaping a text for the PostgreSQL dump *)

Lemma escape_string_cons c t :
  Generator.escape_string (Some (c :: t))
  = (if is_char Generator.squote c
     then [Generator.squote; Generator.squote] else [c])
    ++ Generator.escape_string (Some t).
Proof.
  unfold Generator.escape_string, py_replace, re_sub, is_char.
  cbn [re_scan]. unfold m_lit at 1. cbn [starts_with length].
  destruct (Ascii.eqb Generator.squote c) eqn:E; cbn [andb flat_map].
  - by apply Ascii.eqb_eq in E as <-.
  - done.
Qed.

Lemma read_literal_escaped t rest :
  (forall r', rest <> Generator.squote :: r') ->
  read_literal (Generator.escape_string (Some t) ++ Generator.squote :: rest)
  = Some (t, rest).
Proof.
  intros Hrest. induction t as [|c t IH].
  - change (Generator.escape_string (Some [])) with (@nil ascii).
    cbn [app read_literal]. unfold is_char at 1. rewrite Ascii.eqb_refl.
    destruct rest as [|d rest]; [done|].
    unfold is_char. destruct (Ascii.eqb Generator.squote d) eqn:E; [|done].
    apply Ascii.eqb_eq in E as <-. by destruct (Hrest rest).
  - rewrite escape_string_cons.
    destruct (is_char Generator.squote c) eqn:E.
    + cbn [app read_literal]. unfold is_char at 1 2.
      rewrite !Ascii.eqb_refl. rewrite IH. cbn.
      unfold is_char in E. by apply Ascii.eqb_eq in E as <-.
    + cbn [app read_literal]. rewrite E, IH. done.
Qed.

(** X13.  A text written by the PostgreSQL generator between two quotes, as it
    writes book names, catch words, note texts and verse texts, is a string
    constant that reads back as the text and ends at the quote the generator
    closes it with, whatever follows that is not a quote.  So two texts have
    the same escaped form only when they are equal.  For [None] the result
    is the text [NULL], the escaped form of the text [NULL] as well. *)
Theorem escape_string_reads_back :
  (forall t rest,
     (forall r', rest <> Generator.squote :: r') ->
     read_literal
       (Generator.escape_string (Some t) ++ Generator.squote :: rest)
     = Some (t, rest))
  /\ (forall t1 t2,
        Generator.escape_string (Some t1) = Generator.escape_string (Some t2)
        -> t1 = t2)
  /\ Generator.escape_string None
     = Generator.escape_string (Some (lit "NULL"))
  /\ Generator.escape_string (Some (lit "Or, the LORD's"))
     = lit "Or, the LORD''s".
Proof.
  split; [exact read_literal_escaped|]. split; [|split; reflexivity].
  intros t1 t2 E.
  assert (Some (t1, @nil ascii) = Some (t2, [])) as H.
  { rewrite <- (read_literal_escaped t1 []) by done.
    rewrite <- (read_literal_escaped t2 []) by done.
    by rewrite E. }
  by injection H.
Qed.

(** ** The license line of the README *)

Lemma re_scan_no_occurrence p s :
  ~ occurs p s -> re_scan (m_lit p) 0 s = map Chr s.
Proof.
  intros Hocc. induction s as [|c s IH]; [done|].
  rewrite re_scan_miss.
  - cbn [map]. f_equal. apply IH. by apply (occurs_tail _ c).
  - unfold m_lit. destruct (starts_with p (c :: s)) eqn:E; [|done].
    apply starts_with_spec in E as [r E]. destruct Hocc. by exists [], r.
Qed.

Lemma pieces_chars cur t ts :
  Generator.pieces cur (map Chr t ++ ts) = Generator.pieces (cur ++ t) ts.
Proof.
  revert cur. induction t as [|c t IH]; intros cur; cbn.
  - by rewrite app_nil_r.
  - rewrite IH. by rewrite <- app_assoc.
Qed.

Lemma py_split_sep_absent sep s :
  ~ occurs sep s -> Generator.py_split_sep sep s = [s].
Proof.
  intros Hocc. unfold Generator.py_split_sep.
  rewrite re_scan_no_occurrence by done.
  rewrite <- (app_nil_r (map Chr s)), pieces_chars. done.
Qed.

Lemma py_split_sep_leading sep v :
  sep <> [] -> ~ occurs sep v ->
  Generator.py_split_sep sep (sep ++ v) = [[]; v].
Proof.
  intros Hsep Hocc. unfold Generator.py_split_sep.
  destruct sep as [|a sep]; [done|].
  rewrite (re_scan_take _ (a :: sep) v (length sep)); [|done|].
  - cbn [Generator.pieces]. f_equal.
    rewrite re_scan_no_occurrence by done.
    rewrite <- (app_nil_r (map Chr v)), pieces_chars. done.
  - unfold m_lit. by rewrite starts_with_app.
Qed.

Lemma get_license_info_skip pre lines :
  Forall (fun l => starts_with (lit "**License:**") l = false) pre ->
  Generator.get_license_info (pre ++ lines)
  = Generator.get_license_info lines.
Proof.
  induction 1 as [|l pre Hl Hpre IH]; [done|].
  cbn [app Generator.get_license_info]. by rewrite Hl.
Qed.

(** X14.  [get_license_info] of the two SQL generators, on the lines of the
    README.  Without a line that starts with [**License:**] the result is
    [Unknown].  Otherwise the first such line decides and the lines after it
    are not read: when the line is [**License:** ] followed by a text that
    does not hold this marker again, the result is that text without the
    whitespace around it, the line end included; when the marker is not
    followed by a space, so that [**License:** ] stands nowhere in the line,
    the function raises [IndexError] and no dump is written. *)
Theorem get_license_info_spec :
  (forall lines,
     Forall (fun l => starts_with (lit "**License:**") l = false) lines ->
     Generator.get_license_info lines = Generator.Ok (lit "Unknown"))
  /\ (forall pre line post,
        Forall (fun l => starts_with (lit "**License:**") l = false) pre ->
        starts_with (lit "**License:**") line = true ->
        Generator.get_license_info (pre ++ line :: post)
        = Generator.get_license_info [line])
  /\ (forall v,
        ~ occurs (lit "**License:** ") v ->
        Generator.get_license_info [lit "**License:** " ++ v]
        = Generator.Ok (py_strip v))
  /\ (forall line,
        starts_with (lit "**License:**") line = true ->
        ~ occurs (lit "**License:** ") line ->
        Generator.get_license_info [line] = Generator.IndexError)
  /\ Generator.get_license_info sample_readme
     = Generator.Ok (lit "Public Domain")
  /\ Generator.get_license_info [lit "**License:**" ++ [line_feed]]
     = Generator.IndexError.
Proof.
  split; [|split; [|split; [|split; [|split; vm_compute; reflexivity]]]].
  - intros lines H. rewrite <- (app_nil_r lines).
    by rewrite get_license_info_skip.
  - intros pre line post Hpre Hline. rewrite get_license_info_skip by done.
    cbn [Generator.get_license_info]. by rewrite Hline.
  - intros v Hv. cbn [Generator.get_license_info].
    change (lit "**License:** ") with (lit "**License:**" ++ lit " ") at 1.
    rewrite <- app_assoc, starts_with_app.
    change (lit "**License:**" ++ lit " " ++ v)
      with (lit "**License:** " ++ v).
    by rewrite py_split_sep_leading.
  - intros line Hline Hocc. cbn [Generator.get_license_info].
    by rewrite Hline, py_split_sep_absent.
Qed.

(** * The note text of the SWORD parser *)













(** ** Tags the patterns take *)


Lemma starts_with_closed (g : ascii) p n rest :
  g ∉ p -> g ∉ n ->
  starts_with (p ++ [g]) (n ++ g :: rest) = bool_decide (n = p).
Proof.
  revert n. induction p as [|b p IH]; intros n Hp Hn.
  - destruct n as [|a n]; cbn [app starts_with].
    + by rewrite Ascii.eqb_refl.
    + rewrite (eqb_not_elem g a (a :: n)) by (done || left).
      symmetry. by apply bool_decide_eq_false_2.
  - destruct n as [|a n]; cbn [app starts_with].
    + rewrite (proj2 (Ascii.eqb_neq b g)) by (intros ->; apply Hp; left).
      symmetry. by apply bool_decide_eq_false_2.
    + rewrite IH.
      * destruct (Ascii.eqb b a) eqn:E; cbn [andb].
        -- apply Ascii.eqb_eq in E as ->. apply bool_decide_ext.
           split; [by intros ->|by intros [= ->]].
        -- symmetry. apply bool_decide_eq_false_2. intros [= -> _].
           rewrite Ascii.eqb_refl in E. discriminate.
      * intros H. apply Hp. by right.
      * intros H. apply Hn. by right.
Qed.

(** A literal [<nm>] takes the tags named [nm]. *)
Lemma lit_tag_pattern nm :
  ">"%char ∉ nm ->
  tag_pattern (m_lit ("<"%char :: nm ++ [">"%char]))
    (fun n => bool_decide (n = nm)).
Proof.
  intros Hnm. split.
  - intros c t Hc. apply m_lit_other. congruence.
  - intros n rest (Hne & Hlt & Hgt). unfold m_lit.
    cbn [starts_with]. rewrite Ascii.eqb_refl. cbn [andb].
    rewrite starts_with_closed by done.
    destruct (bool_decide (n = nm)) eqn:E; [|done].
    apply bool_decide_eq_true in E as ->.
    cbn [length]. rewrite length_app. cbn [length]. f_equal. lia.
Qed.


Lemma kept_both s1 s2 ps :
  List.filter (kept s2) (List.filter (kept s1) ps)
  = List.filter (kept (fun n => s1 n || s2 n)) ps.
Proof.
  induction ps as [|[a|n] ps IH]; cbn [List.filter kept]; [done| |].
  - by rewrite IH.
  - destruct (s1 n); cbn [negb orb List.filter kept]; [done|].
    destruct (s2 n); cbn [negb]; by rewrite IH.
Qed.


(** ** What the SWORD parser makes of a note *)




Lemma not_elem_by_check (g : ascii) s : one_of s g = false -> g ∉ s.
Proof.
  unfold one_of. intros H Hin. apply list_elem_of_In in Hin.
  assert (existsb (Ascii.eqb g) s = true) as Ht; [|congruence].
  apply existsb_exists. exists g. split; [done|apply Ascii.eqb_refl].
Qed.






(** In a text of code points up to U+00FF the pattern of line 47 does not
    occur, and the replacement returns the text. *)
Lemma replace_ellipsis_latin1 s : Sword.replace_ellipsis s = s.
Proof.
  unfold Sword.replace_ellipsis. apply re_sub_none. intros c _ t.
  unfold Sword.m_points, Sword.ellipsis. cbn [Sword.starts_with_points].
  destruct t as [|d t]; [by rewrite andb_false_r|].
  assert ((N_of_ascii d =? 8364)%N = false) as ->.
  { apply N.eqb_neq. pose proof (N_ascii_bounded d). lia. }
  by rewrite andb_false_r.
Qed.





(** ** The tags the Catch-Word Resolver removes *)

Lemma slash_tag_pattern (body : matcher) (sel' : list ascii -> bool) :
  (forall n rest,
     ">"%char ∉ n ->
     body (n ++ ">"%char :: rest)
     = if sel' n then Some (S (length n)) else None) ->
  tag_pattern (m_seq (m_lit (lit "<")) (m_seq (m_opt (lit "/")) body))
    (fun n => sel' (unslashed n)).
Proof.
  intros Hbody. split.
  - intros c t Hc. apply m_seq_none. change (lit "<") with ["<"%char].
    apply m_lit_other. congruence.
  - intros n rest (Hne & Hlt & Hgt).
    unfold m_seq at 1. unfold m_lit at 1. change (lit "<") with ["<"%char].
    cbn [starts_with length skipn]. rewrite Ascii.eqb_refl. cbn [andb].
    destruct n as [|a n]; [done|].
    unfold m_seq, m_opt. change (lit "/") with ["/"%char].
    change (drop 1 ("<"%char :: (a :: n) ++ ">"%char :: rest))
      with (a :: n ++ ">"%char :: rest).
    cbn [app starts_with unslashed length].
    destruct (Ascii.eqb "/" a) eqn:E; cbn [andb length].
    + change (drop 1 (a :: n ++ ">"%char :: rest))
        with (n ++ ">"%char :: rest).
      rewrite Hbody by (intros H; apply Hgt; by right).
      destruct (sel' n); [|done]. f_equal.
    + change (drop 0 (a :: n ++ ">"%char :: rest))
        with ((a :: n) ++ ">"%char :: rest).
      rewrite Hbody by done.
      destruct (sel' (a :: n)); [|done]. f_equal.
Qed.

Lemma format_lower_body nm n rest :
  ">"%char ∉ nm -> ">"%char ∉ n ->
  m_lit (nm ++ [">"%char]) (n ++ ">"%char :: rest)
  = if bool_decide (n = nm) then Some (S (length n)) else None.
Proof.
  intros Hnm Hn. unfold m_lit. rewrite starts_with_closed by done.
  destruct (bool_decide (n = nm)) eqn:E; [|done].
  apply bool_decide_eq_true in E as ->. rewrite length_app. cbn [length].
  f_equal. lia.
Qed.

Lemma format_upper_body n rest :
  ">"%char ∉ n ->
  m_seq (m_lit (lit "F"))
    (m_seq (m_set (one_of (lit "ROIA"))) (m_lit (lit ">")))
    (n ++ ">"%char :: rest)
  = if format_upper_name n then Some (S (length n)) else None.
Proof.
  intros Hn. unfold m_seq, m_lit, m_set, format_upper_name.
  change (lit "F") with ["F"%char]. change (lit ">") with [">"%char].
  destruct n as [|f [|x [|y n]]]; cbn [app starts_with length].
  - reflexivity.
  - destruct (Ascii.eqb "F" f); cbn [andb]; reflexivity.
  - destruct (Ascii.eqb "F" f); cbn [andb]; [|reflexivity].
    rewrite skipn_cons, drop_0.
    destruct (one_of (lit "ROIA") x); [|reflexivity].
    rewrite skipn_cons, drop_0. cbn [starts_with].
    rewrite Ascii.eqb_refl. reflexivity.
  - destruct (Ascii.eqb "F" f); cbn [andb]; [|reflexivity].
    rewrite skipn_cons, drop_0.
    destruct (one_of (lit "ROIA") x); [|reflexivity].
    rewrite skipn_cons, drop_0. cbn [starts_with].
    rewrite (eqb_not_elem ">" y (f :: x :: y :: n)); [done|done|].
    right. right. left.
Qed.

Lemma count_while_all_or_stop p d (g : ascii) rest :
  p g = false -> g ∉ d ->
  (forallb p d = true /\ count_while p (d ++ g :: rest) = length d)
  \/ (forallb p d = false
      /\ exists x t,
           drop (count_while p (d ++ g :: rest)) (d ++ g :: rest) = x :: t
           /\ x <> g).
Proof.
  intros Hg Hd. induction d as [|a d IH]; cbn [app count_while forallb].
  - left. by rewrite Hg.
  - destruct (p a) eqn:Ea; cbn [andb].
    + destruct IH as [[Hall Hk]|(Hall & x & t & Hx & Hne)].
      * intros H. apply Hd. by right.
      * left. by rewrite Hk.
      * right. split; [done|]. exists x, t. by rewrite skipn_cons.
    + right. split; [done|]. exists a, (d ++ g :: rest). split; [done|].
      intros ->. apply Hd. left.
Qed.

(** [<W[HG]\d+>] takes the tags of Strong's numbers. *)
Lemma strongs_tag_pattern : tag_pattern MySword.strongs_tag strongs_name.
Proof.
  split.
  - intros c t Hc. apply m_seq_none.
    change (lit "<W") with ("<"%char :: lit "W"). apply m_lit_other.
    congruence.
  - intros n rest (Hne & Hlt & Hgt).
    unfold MySword.strongs_tag. unfold m_seq at 1. unfold m_lit at 1.
    change (lit "<W") with ["<"; "W"]%char.
    destruct n as [|w n]; [done|].
    cbn [app starts_with length]. rewrite Ascii.eqb_refl. cbn [andb].
    destruct (Ascii.eqb "W" w) eqn:Ew; cbn [andb].
    2: { unfold strongs_name. destruct n as [|h [|d ds]]; try done.
         by rewrite Ew. }
    rewrite !skipn_cons, drop_0.
    unfold m_seq at 1. unfold m_set.
    destruct n as [|h n]; cbn [app]; [reflexivity|].
    destruct (one_of (lit "HG") h) eqn:Eh.
    2: { unfold strongs_name. destruct n as [|d ds]; [done|].
         by rewrite Ew, Eh. }
    rewrite skipn_cons, drop_0. unfold m_seq, m_many, m_lit.
    change (lit ">") with [">"%char].
    assert (">"%char ∉ n) as Hgt'
      by (intros H; apply Hgt; right; by right).
    destruct (count_while_all_or_stop is_digit n ">" rest eq_refl Hgt')
      as [[Hall Hk]|(Hall & x & t & Hx & Hne')].
    + rewrite Hk. unfold strongs_name.
      destruct n as [|d ds]; [reflexivity|].
      rewrite Ew, Eh, Hall. cbn [andb length Nat.leb].
      change (S (length ds)) with (length (d :: ds)).
      rewrite drop_app_length. cbn [starts_with].
      rewrite Ascii.eqb_refl. cbn [andb length]. f_equal. lia.
    + unfold strongs_name. destruct n as [|d ds]; [discriminate Hall|].
      rewrite Ew, Eh, Hall. cbn [andb].
      destruct (1 <=? count_while is_digit ((d :: ds) ++ ">"%char :: rest))%nat;
        [|done].
      rewrite Hx. cbn [starts_with].
      by rewrite (proj2 (Ascii.eqb_neq ">" x)) by congruence.
Qed.

Lemma format_lower_pattern nm :
  ">"%char ∉ nm ->
  tag_pattern
    (m_seq (m_lit (lit "<")) (m_seq (m_opt (lit "/")) (m_lit (nm ++ [">"%char]))))
    (fun n => bool_decide (unslashed n = nm)).
Proof.
  intros Hnm.
  exact (slash_tag_pattern (m_lit (nm ++ [">"%char]))
           (fun n => bool_decide (n = nm))
           (fun n rest Hn => format_lower_body nm n rest Hnm Hn)).
Qed.

Lemma format_upper_pattern :
  tag_pattern MySword.format_tag_upper
    (fun n => format_upper_name (unslashed n)).
Proof.
  exact (slash_tag_pattern
           (m_seq (m_lit (lit "F"))
              (m_seq (m_set (one_of (lit "ROIA"))) (m_lit (lit ">"))))
           format_upper_name format_upper_body).
Qed.

Lemma pilcrow_absent s :
  ascii_of_N 194 ∉ s -> re_sub MySword.pilcrow [] s = s.
Proof.
  intros H. apply re_sub_none. intros c Hc t.
  apply m_seq_none, m_lit_other. intros E. subst c. exact (H Hc).
Qed.

Lemma render_filter_elem (f : piece -> bool) ps c :
  c ∈ render (List.filter f ps) -> c ∈ render ps.
Proof.
  unfold render. induction ps as [|p ps IH]; cbn [List.filter flat_map];
    [done|].
  destruct (f p); cbn [flat_map]; rewrite ?elem_of_app; [|by right; apply IH].
  intros [H|H]; [by left|right; by apply IH].
Qed.

(** On well-formed markup without the pilcrow pattern's first character
    the eight patterns of the resolver remove the tags named by
    [mysword_tag] and nothing else. *)
Lemma strip_markup_on_markup ps :
  Forall well_formed ps -> ascii_of_N 194 ∉ render ps ->
  MySword.strip_markup (render ps)
  = py_strip (render (List.filter (kept mysword_tag) ps)).
Proof.
  intros Hwf Hpil. unfold MySword.strip_markup. cbv zeta.
  rewrite (re_sub_tags MySword.strongs_tag strongs_name);
    [|exact strongs_tag_pattern|done].
  rewrite (re_sub_tags MySword.format_tag_upper
             (fun n => format_upper_name (unslashed n)));
    [|exact format_upper_pattern|by apply Forall_list_filter].
  rewrite (re_sub_tags (MySword.format_tag_lower "Fr>")
             (fun n => bool_decide (unslashed n = lit "Fr")));
    [|exact (format_lower_pattern (lit "Fr")
               (not_elem_by_check ">" (lit "Fr") eq_refl))
     |by do 2 apply Forall_list_filter].
  rewrite (re_sub_tags (MySword.format_tag_lower "Fo>")
             (fun n => bool_decide (unslashed n = lit "Fo")));
    [|exact (format_lower_pattern (lit "Fo")
               (not_elem_by_check ">" (lit "Fo") eq_refl))
     |by do 3 apply Forall_list_filter].
  rewrite (re_sub_tags (MySword.format_tag_lower "Fi>")
             (fun n => bool_decide (unslashed n = lit "Fi")));
    [|exact (format_lower_pattern (lit "Fi")
               (not_elem_by_check ">" (lit "Fi") eq_refl))
     |by do 4 apply Forall_list_filter].
  rewrite (re_sub_tags (MySword.format_tag_lower "Fa>")
             (fun n => bool_decide (unslashed n = lit "Fa")));
    [|exact (format_lower_pattern (lit "Fa")
               (not_elem_by_check ">" (lit "Fa") eq_refl))
     |by do 5 apply Forall_list_filter].
  rewrite (re_sub_tags (m_lit (lit "<CM>"))
             (fun n => bool_decide (n = lit "CM")));
    [|exact (lit_tag_pattern (lit "CM")
               (not_elem_by_check ">" (lit "CM") eq_refl))
     |by do 6 apply Forall_list_filter].
  rewrite !kept_both. rewrite pilcrow_absent; [done|].
  intros H. apply Hpil. by apply render_filter_elem in H.
Qed.

Lemma well_formed_by_check p :
  match p with
  | Txt a => negb (one_of a "<") && negb (one_of a "&")
  | Tag n =>
      negb (match n with [] => true | _ => false end)
      && negb (one_of n "<") && negb (one_of n ">")
  end = true ->
  well_formed p.
Proof.
  destruct p as [a|n]; cbn [well_formed]; intros H.
  - apply andb_true_iff in H as [H1 H2].
    split; apply not_elem_by_check; by apply negb_true_iff.
  - apply andb_true_iff in H as [H H3]. apply andb_true_iff in H as [H1 H2].
    split; [by destruct n|].
    split; apply not_elem_by_check; by apply negb_true_iff.
Qed.

(** X16.  The Catch-Word Resolver on well-formed markup (texts without [<] and
    [&] between tags [<n>]) that does not hold the character U+00C2.  The
    cleaning removes the tags of Strong's numbers ([W], [H] or [G], digits),
    the format tags ([FR FO FI FA Fr Fo Fi Fa], with or without a slash) and
    [CM]; every other tag stays where it is.  The catch word is the last
    word of what is left, trimmed and freed from the trailing characters of
    [:;,.], so a tag outside that list can be part of the catch word. *)
Theorem catch_word_on_markup (ps : list piece) :
  Forall well_formed ps ->
  ascii_of_N 194 ∉ render ps ->
  MySword.strip_markup (render ps)
  = py_strip (render (List.filter (kept mysword_tag) ps))
  /\ MySword.extract_catch_word (render ps)
     = last_word
         (py_split
            (py_rstrip_chars (lit ":;,.")
               (py_strip (render (List.filter (kept mysword_tag) ps))))).
Proof.
  intros Hwf Hpil. split; [by apply strip_markup_on_markup|].
  rewrite <- strip_markup_on_markup by done.
  unfold MySword.extract_catch_word. cbv zeta.
  destruct (py_rstrip_chars _ _) as [|c s] eqn:E; [done|].
  by destruct (py_split (c :: s)).
Qed.

Lemma catch_word_on_markup_witness :
  MySword.strip_markup (render sample_prefix)
  = lit "And he said unto <CL>them,"
  /\ MySword.extract_catch_word (render sample_prefix) = lit "<CL>them".
Proof.
  assert (Forall well_formed sample_prefix) as Hwf.
  { repeat (apply Forall_cons; split;
              [apply well_formed_by_check; reflexivity|]).
    apply Forall_nil_2. }
  assert (ascii_of_N 194 ∉ render sample_prefix) as Hpil
    by (apply not_elem_by_check; reflexivity).
  destruct (catch_word_on_markup sample_prefix Hwf Hpil) as [H1 H2].
  split.
  - rewrite H1. vm_compute. reflexivity.
  - rewrite H2. vm_compute. reflexivity.
Defined.

(** * The two scripts, one after the other *)

Lemma add_verse_number fs bn ch v : verse (Sword.add_verse fs bn ch v) = verse v.
Proof. unfold Sword.add_verse. by destruct (fs !! (bn, ch, verse v)). Qed.

(** X17.  The documented workflow: [add_footnotes_to_json] with the mapping of the
    SWORD module, then the MySword merge in its default mode.  Every verse
    keeps its place, number and text.  A verse of a New Testament book whose
    key is in the MySword mapping carries the MySword list.  Every other
    verse, those of New Testament books without a MySword note included,
    carries the SWORD list when its key is in the SWORD mapping, and is the
    verse of the loaded document otherwise. *)
Theorem sword_then_mysword (data : Document) (sword_fs my_fs : Mapping)
    (i j k : nat) (bn : list ascii) (ch : Z) (v : Verse) :
  verse_at (books data) i j k = Some (bn, ch, v) ->
  let final :=
    MySword.merge_footnotes_into_json
      (Sword.add_footnotes_to_json data sword_fs) my_fs true in
  exists v',
    verse_at (books final) i j k = Some (bn, ch, v')
    /\ verse v' = verse v /\ text v' = text v
    /\ (bn ∈ MySword.nt_book_names ->
        forall fns, my_fs !! (bn, ch, verse v) = Some fns ->
                    footnotes v' = Some fns)
    /\ (bn ∉ MySword.nt_book_names \/ my_fs !! (bn, ch, verse v) = None ->
        (forall fns, sword_fs !! (bn, ch, verse v) = Some fns ->
                     footnotes v' = Some fns)
        /\ (sword_fs !! (bn, ch, verse v) = None -> v' = v)).
Proof.
  intros Hv final. subst final.
  cbn [MySword.merge_footnotes_into_json Sword.add_footnotes_to_json books].
  rewrite verse_at_merge, verse_at_add, Hv.
  cbn [fmap option_fmap option_map fst snd andb].
  eexists. split; [reflexivity|].
  set (u := Sword.add_verse sword_fs bn ch v).
  assert (verse u = verse v /\ text u = text v
          /\ (forall fns, sword_fs !! (bn, ch, verse v) = Some fns ->
                          footnotes u = Some fns)
          /\ (sword_fs !! (bn, ch, verse v) = None -> u = v))
    as (Hn & Ht & Hs & Hk).
  { subst u. unfold Sword.add_verse.
    destruct (sword_fs !! (bn, ch, verse v)) as [l|];
      cbn [verse text footnotes].
    - split; [done|]. split; [done|].
      split; [by intros fns [= <-]|discriminate].
    - split; [done|]. split; [done|]. split; [discriminate|done]. }
  destruct (bool_decide (bn ∈ MySword.nt_book_names)) eqn:Ent; cbn [negb].
  - apply bool_decide_eq_true in Ent. unfold MySword.merge_verse.
    rewrite Hn. cbn [negb].
    destruct (my_fs !! (bn, ch, verse v)) as [l|] eqn:Emy;
      cbn [verse text footnotes].
    + split; [done|]. split; [done|]. split.
      * by intros _ fns [= <-].
      * intros [Hnot|Hnone]; [by destruct Hnot|discriminate].
    + split; [done|]. split; [done|]. split.
      * intros _ fns H. discriminate.
      * intros _. by split.
  - apply bool_decide_eq_false in Ent.
    split; [done|]. split; [done|]. split.
    + intros Hin. by destruct Ent.
    + intros _. by split.
Qed.

Lemma sword_then_mysword_witness :
  exists v',
    verse_at
      (books (MySword.merge_footnotes_into_json
                (Sword.add_footnotes_to_json sample_document
                   {[ (lit "Matthew", 1, 2) := [stale_note] ]})
                sample_mapping true)) 1 0 1
    = Some (lit "Matthew", 1, v')
    /\ footnotes v' = Some [stale_note].
Proof.
  destruct (sword_then_mysword sample_document
              {[ (lit "Matthew", 1, 2) := [stale_note] ]} sample_mapping
              1 0 1 (lit "Matthew") 1
              (mkVerse 2 (lit "Abraham begat") None) eq_refl)
    as (v' & Hv' & _ & _ & _ & H).
  exists v'. split; [exact Hv'|].
  apply H; [by right|]. reflexivity.
Defined.

(** * Cleaning a cleaned note text *)

Lemma py_split_join ws : Forall is_word ws -> py_split (join_words ws) = ws.
Proof.
  induction 1 as [|w ws Hw Hws IH]; [done|].
  destruct ws as [|w' ws]; [by apply py_split_one_word|].
  change (join_words (w :: w' :: ws))
    with (w ++ " "%char :: join_words (w' :: ws)).
  destruct Hw as [Hne Hw]. unfold py_split in *.
  rewrite split_ws_word by done. cbn [app split_ws].
  change (is_space " ") with true. cbn match.
  destruct w as [|c w]; [done|]. by rewrite IH.
Qed.

(** X18.  The Markup Cleaner run on its own result.  When the result holds
    neither [<] nor [&], cleaning it again returns it unchanged.  It can
    hold them: an entity decoded in the first run may form a tag that a
    second run removes, so that in general the cleaner is not idempotent. *)
Theorem clean_note_text_stable :
  (forall raw_note,
     let cleaned := MySword.clean_note_text raw_note in
     "<"%char ∉ cleaned -> "&"%char ∉ cleaned ->
     MySword.clean_note_text cleaned = cleaned)
  /\ MySword.clean_note_text (lit "&lt;b&gt;word") = lit "<b>word"
  /\ MySword.clean_note_text (lit "<b>word") = lit "word".
Proof.
  split; [|split; vm_compute; reflexivity].
  intros raw_note cleaned Hlt Hamp.
  assert (exists ws, Forall is_word ws /\ cleaned = join_words ws)
    as (ws & Hws & E).
  { eexists. split; [apply py_split_words|]. subst cleaned.
    unfold MySword.clean_note_text. cbv zeta. apply collapse_spaces_words. }
  clearbody cleaned. subst cleaned.
  unfold MySword.clean_note_text. cbv zeta.
  rewrite tags_absent by done.
  change (lit "&amp;") with ("&"%char :: lit "amp;").
  change (lit "&lt;") with ("&"%char :: lit "lt;").
  change (lit "&gt;") with ("&"%char :: lit "gt;").
  change (lit "&c") with ("&"%char :: lit "c").
  rewrite (py_replace_absent (lit "amp;") _ "&" (join_words ws)) by done.
  rewrite (py_replace_absent (lit "lt;") _ "&" (join_words ws)) by done.
  rewrite (py_replace_absent (lit "gt;") _ "&" (join_words ws)) by done.
  rewrite (py_replace_absent (lit "c") _ "&" (join_words ws)) by done.
  fold (collapse_spaces (join_words ws)).
  by rewrite collapse_spaces_words, py_split_join.
Qed.
